(** * Maxwell3D: the register-write engine of video_core/engines/maxwell_3d.cpp

    A shallow embedding of [Tegra::Engines::Maxwell3D]: the register file,
    the macro-call state machine with its three native handlers, the constant
    buffer bind/write logic, the query and draw triggers and the texture
    descriptor resolver.

    Conventions.
    - [u32] and [u64] (GPUVAddr, VAddr) values are [Z]; every place where the
      C++ code truncates is written out with [wrap32] / [wrap64].
    - [ASSERT], [ASSERT_MSG] and [UNIMPLEMENTED_MSG] abort the process
      (common/assert.h); an abort is the result [Abort e s], where [s] is the
      engine state at the moment the assertion fired.
    - Indexing a fixed-size array out of range is undefined behaviour in the
      source, which does not check the index: it reads or writes past the
      array and carries on.  The model stops with [OutOfBounds] there, so it
      is faithful for in-range indices only; [defined] says of a result that
      no such index occurred.
    - What video_core/engines/maxwell_3d.h and video_core/textures/texture.h
      declare (register positions, array bounds, bit fields) is not part of
      the sources at hand; it is collected in the record [Header] and the
      development is parametric in it. *)

From Stdlib Require Import ZArith List Bool String Lia.
From stdpp Require Import base option list gmap strings.

Local Open Scope Z_scope.

(** ** Machine integers *)

Definition wrap32 (x : Z) : Z := x mod 2 ^ 32.
Definition wrap64 (x : Z) : Z := x mod 2 ^ 64.
Definition u32 (x : Z) : Prop := 0 <= x < 2 ^ 32.
Definition u64 (x : Z) : Prop := 0 <= x < 2 ^ 64.

(** ** Bit fields *)

(** Modelled from the spec: common/bit_field.h is missing; section 9 of the
    spec asks for "pure accessor functions that extract/pack named fields by
    explicit offset/width".  [BitField<position, bits, u32>] is the pair of
    its two template arguments. *)
Record BitField := { position : Z; bits : Z }.

Definition bf_mask (f : BitField) : Z :=
  Z.shiftl (Z.ones (bits f)) (position f).

(** Modelled from the spec: [BitField::Value()] of the missing
    common/bit_field.h, the field extracted by offset and width. *)
Definition bf_value (f : BitField) (storage : Z) : Z :=
  Z.shiftr (Z.land storage (bf_mask f)) (position f).

(** Modelled from the spec: [BitField::Assign(val)] of the missing
    common/bit_field.h, the field packed into the 32-bit word, the other
    bits kept. *)
Definition bf_assign (f : BitField) (val storage : Z) : Z :=
  Z.lor (Z.land storage (Z.land (Z.lnot (bf_mask f)) (Z.ones 32)))
        (Z.land (Z.shiftl val (position f)) (bf_mask f)).

Definition bf_ok (f : BitField) : Prop :=
  0 <= position f /\ 0 < bits f /\ position f + bits f <= 32.

Definition bf_disjoint (f g : BitField) : Prop :=
  position f + bits f <= position g \/ position g + bits g <= position f.

(** ** Guest memory *)

(** Modelled from the spec: core/memory.cpp is missing; section 6 names the
    collaborator "Read32 / Write32 / ReadBlock(address, size)".  Memory is a
    finite map from guest addresses to bytes, unmapped bytes read as zero and
    32-bit accesses are little-endian. *)
Abbreviation Memory := (gmap Z Z).

Definition Read8 (m : Memory) (a : Z) : Z := default 0 (m !! a).

Definition Write8 (a b : Z) (m : Memory) : Memory := <[a := b mod 256]> m.

(** Modelled from the spec: [Memory::Read32] of the missing core/memory.cpp. *)
Definition Read32 (m : Memory) (a : Z) : Z :=
  Read8 m a
  + Z.shiftl (Read8 m (wrap64 (a + 1))) 8
  + Z.shiftl (Read8 m (wrap64 (a + 2))) 16
  + Z.shiftl (Read8 m (wrap64 (a + 3))) 24.

(** Modelled from the spec: [Memory::Write32] of the missing core/memory.cpp. *)
Definition Write32 (a v : Z) (m : Memory) : Memory :=
  Write8 (wrap64 (a + 3)) (Z.shiftr v 24)
    (Write8 (wrap64 (a + 2)) (Z.shiftr v 16)
      (Write8 (wrap64 (a + 1)) (Z.shiftr v 8)
        (Write8 a v m))).

(** Modelled from the spec: [Memory::ReadBlock] of the missing
    core/memory.cpp, the bytes of the block in address order. *)
Definition ReadBlock (m : Memory) (a size : Z) : list Z :=
  map (fun i => Read8 m (wrap64 (a + i))) (seqZ 0 size).

(** ** The engine's data *)

(** [Regs::ShaderStage]; the enumerators are numbered as the [cb_bind] array
    is indexed in [WriteReg] ("usually 4 for FragmentShader"). *)
Module ShaderStage.
Definition Vertex : Z := 0.
Definition TesselationControl : Z := 1.
Definition TesselationEval : Z := 2.
Definition Geometry : Z := 3.
Definition Fragment : Z := 4.
End ShaderStage.

(** [State::ConstBufferInfo] *)
Module ConstBufferInfo.
Record t := mk { address : Z; index : Z; size : Z; enabled : bool }.
Definition empty : t := mk 0 0 0 false.
End ConstBufferInfo.

(** [State::ShaderProgramInfo] *)
Module ShaderProgramInfo.
Record t := mk { stage : Z; program : Z; address : Z }.
Definition empty : t := mk 0 0 0.
End ShaderProgramInfo.

(** [State::ShaderStageInfo]: its only member is [const_buffers]. *)
Module ShaderStageInfo.
Record t := mk { const_buffers : list ConstBufferInfo.t }.
End ShaderStageInfo.

(** [Tegra::DebugContext::Event], the four events this file raises. *)
Inductive Event :=
  | MaxwellCommandLoaded
  | MaxwellCommandProcessed
  | IncomingPrimitiveBatch
  | FinishedPrimitiveBatch.

(** The named registers of [Regs] that the engine touches, that is the
    arguments [MAXWELL3D_REG_INDEX] and the member accesses [regs.x.y] range
    over.  Array members carry their subscript. *)
Inductive Reg :=
  | code_address_high
  | code_address_low
  | cb_size
  | cb_address_high
  | cb_address_low
  | cb_pos
  | cb_data (i : nat)
  | cb_bind_raw_config (stage : nat)
  | vertex_end_gl
  | query_address_high
  | query_address_low
  | query_sequence
  | query_get
  | tex_cb_index
  | ssbo_buffer_address
  | tex_info_address (stage : nat)
  | tex_info_size (stage : nat)
  | shader_start_id (program : nat)
  | tic_address_high
  | tic_address_low
  | tsc_address_high
  | tsc_address_low.

#[global] Instance Reg_eq_dec : EqDecision Reg.
Proof. solve_decision. Defined.

(** A descriptor record as [Memory::ReadBlock] delivers it: raw bytes. *)
Abbreviation TICEntry := (list Z) (only parsing).
Abbreviation TSCEntry := (list Z) (only parsing).

(** What the two missing headers declare. *)
Record Header := {
  (* maxwell_3d.h, struct Regs *)
  NUM_REGS : Z;
  MaxShaderProgram : Z;
  MaxShaderStage : Z;
  MaxConstBuffers : Z;
  (* offsetof(Regs, field) / sizeof(u32) *)
  MAXWELL3D_REG_INDEX : Reg -> Z;
  (* cb_bind[i]: union { raw_config; valid; index } *)
  cb_bind_valid : BitField;
  cb_bind_index : BitField;
  (* query.query_get: union { raw; mode; ... } and Regs::QueryMode::Write *)
  query_get_mode : BitField;
  QueryMode_Write : Z;
  (* ssbo_info.BufferAddress(), from the value of ssbo_info.buffer_address *)
  ssbo_info_BufferAddress : Z -> Z;
  (* texture.h *)
  sizeof_TextureHandle : Z;
  tic_id : BitField;
  tsc_id : BitField;
  sizeof_TICEntry : Z;
  sizeof_TSCEntry : Z;
  header_version : TICEntry -> Z;
  texture_type : TICEntry -> Z;
  r_type : TICEntry -> Z;
  g_type : TICEntry -> Z;
  b_type : TICEntry -> Z;
  a_type : TICEntry -> Z;
  TICHeaderVersion_BlockLinear : Z;
  TextureType_Texture2D : Z
}.

(** The subscripts for which a [Reg] names a member of [Regs]. *)
Definition valid_reg (H : Header) (r : Reg) : Prop :=
  match r with
  | cb_data i => (i < 16)%nat
  | cb_bind_raw_config st | tex_info_address st | tex_info_size st =>
      Z.of_nat st < MaxShaderStage H
  | shader_start_id p => Z.of_nat p < MaxShaderProgram H
  | _ => True
  end.

#[global] Instance valid_reg_dec H r : Decision (valid_reg H r).
Proof. destruct r; simpl; apply _. Defined.

(** What the source takes for granted of the header: distinct members of
    [Regs] are distinct words of [reg_array], all inside it; register ids are
    32-bit; bit fields fit their word, and the two fields of [cb_bind] that
    [SetShader] assigns do not overlap; the arrays have the elements the
    source names ([cb_bind[4]], bind slot 1); a handle has a size. *)
Record HeaderOK (H : Header) : Prop := {
  reg_index_inj : forall a b, valid_reg H a -> valid_reg H b ->
      MAXWELL3D_REG_INDEX H a = MAXWELL3D_REG_INDEX H b -> a = b;
  reg_index_range : forall a, valid_reg H a ->
      0 <= MAXWELL3D_REG_INDEX H a < NUM_REGS H;
  cb_bind_valid_ok : bf_ok (cb_bind_valid H);
  cb_bind_index_ok : bf_ok (cb_bind_index H);
  cb_bind_fields_disjoint : bf_disjoint (cb_bind_valid H) (cb_bind_index H);
  (* WriteReg names cb_bind[0] to cb_bind[4], SetShader binds slot 1 *)
  num_regs_u32 : NUM_REGS H <= 2 ^ 32;
  shader_stages_five : 5 <= MaxShaderStage H;
  const_buffer_one : 1 < MaxConstBuffers H;
  handle_size_pos : 0 < sizeof_TextureHandle H
}.

(** [FullTextureInfo] of texture.h *)
Module FullTextureInfo.
Record t := mk { index : Z; tic : TICEntry; tsc : TSCEntry; enabled : bool }.
End FullTextureInfo.

(** [Maxwell3D::MethodInfo] without its handler, which is given by
    [run_handler] below. *)
Inductive MacroHandler :=
  | HBindTextureInfoBuffer
  | HSetShader
  | HBindStorageBuffer.

Record MethodInfo := {
  name : string;
  arguments : nat;
  handler : MacroHandler
}.

(** The engine with the collaborators it drives.  [memory] is the guest
    memory, [debug_context] the GPU debug context of [Core::System] ([None]
    when there is none, otherwise the events it has received, oldest first),
    [rasterizer] the [is_indexed] arguments of the [AccelerateDrawBatch]
    calls made so far.  [dispatched] is a ghost field: it records every
    handler invocation of [CallMacroMethod], oldest first. *)
Record Maxwell3D := {
  regs : list Z;
  shader_programs : list ShaderProgramInfo.t;
  shader_stages : list ShaderStageInfo.t;
  uploaded_macros : gmap Z (list Z);
  executing_macro : Z;
  macro_params : list Z;
  memory : Memory;
  debug_context : option (list Event);
  rasterizer : list bool;
  dispatched : list (Z * list Z)
}.

Definition set_regs (f : list Z -> list Z) (s : Maxwell3D) : Maxwell3D :=
  {| regs := f (regs s); shader_programs := shader_programs s;
     shader_stages := shader_stages s; uploaded_macros := uploaded_macros s;
     executing_macro := executing_macro s; macro_params := macro_params s;
     memory := memory s; debug_context := debug_context s;
     rasterizer := rasterizer s; dispatched := dispatched s |}.

Definition set_shader_programs (f : list ShaderProgramInfo.t -> list ShaderProgramInfo.t)
    (s : Maxwell3D) : Maxwell3D :=
  {| regs := regs s; shader_programs := f (shader_programs s);
     shader_stages := shader_stages s; uploaded_macros := uploaded_macros s;
     executing_macro := executing_macro s; macro_params := macro_params s;
     memory := memory s; debug_context := debug_context s;
     rasterizer := rasterizer s; dispatched := dispatched s |}.

Definition set_shader_stages (f : list ShaderStageInfo.t -> list ShaderStageInfo.t)
    (s : Maxwell3D) : Maxwell3D :=
  {| regs := regs s; shader_programs := shader_programs s;
     shader_stages := f (shader_stages s); uploaded_macros := uploaded_macros s;
     executing_macro := executing_macro s; macro_params := macro_params s;
     memory := memory s; debug_context := debug_context s;
     rasterizer := rasterizer s; dispatched := dispatched s |}.

Definition set_uploaded_macros (f : gmap Z (list Z) -> gmap Z (list Z))
    (s : Maxwell3D) : Maxwell3D :=
  {| regs := regs s; shader_programs := shader_programs s;
     shader_stages := shader_stages s; uploaded_macros := f (uploaded_macros s);
     executing_macro := executing_macro s; macro_params := macro_params s;
     memory := memory s; debug_context := debug_context s;
     rasterizer := rasterizer s; dispatched := dispatched s |}.

Definition set_macro (id : Z) (params : list Z) (s : Maxwell3D) : Maxwell3D :=
  {| regs := regs s; shader_programs := shader_programs s;
     shader_stages := shader_stages s; uploaded_macros := uploaded_macros s;
     executing_macro := id; macro_params := params;
     memory := memory s; debug_context := debug_context s;
     rasterizer := rasterizer s; dispatched := dispatched s |}.

Definition set_memory (f : Memory -> Memory) (s : Maxwell3D) : Maxwell3D :=
  {| regs := regs s; shader_programs := shader_programs s;
     shader_stages := shader_stages s; uploaded_macros := uploaded_macros s;
     executing_macro := executing_macro s; macro_params := macro_params s;
     memory := f (memory s); debug_context := debug_context s;
     rasterizer := rasterizer s; dispatched := dispatched s |}.

Definition set_debug_context (f : option (list Event) -> option (list Event))
    (s : Maxwell3D) : Maxwell3D :=
  {| regs := regs s; shader_programs := shader_programs s;
     shader_stages := shader_stages s; uploaded_macros := uploaded_macros s;
     executing_macro := executing_macro s; macro_params := macro_params s;
     memory := memory s; debug_context := f (debug_context s);
     rasterizer := rasterizer s; dispatched := dispatched s |}.

Definition set_rasterizer (f : list bool -> list bool) (s : Maxwell3D) : Maxwell3D :=
  {| regs := regs s; shader_programs := shader_programs s;
     shader_stages := shader_stages s; uploaded_macros := uploaded_macros s;
     executing_macro := executing_macro s; macro_params := macro_params s;
     memory := memory s; debug_context := debug_context s;
     rasterizer := f (rasterizer s); dispatched := dispatched s |}.

Definition set_dispatched (f : list (Z * list Z) -> list (Z * list Z))
    (s : Maxwell3D) : Maxwell3D :=
  {| regs := regs s; shader_programs := shader_programs s;
     shader_stages := shader_stages s; uploaded_macros := uploaded_macros s;
     executing_macro := executing_macro s; macro_params := macro_params s;
     memory := memory s; debug_context := debug_context s;
     rasterizer := rasterizer s; dispatched := f (dispatched s) |}.

(** ** Aborting state computations *)

Inductive Error :=
  | InvalidRegister            (* method < Regs::NUM_REGS *)
  | MacroArgumentExpected      (* method == executing_macro + 1 *)
  | MacroStartOnArgument       (* (method % 2) == 0 *)
  | UnknownMacro               (* "Macro %08X was not uploaded" *)
  | UnimplementedMacro         (* "Unhandled method call %08X" *)
  | MacroArityMismatch         (* arguments == parameters.size() *)
  | UnexpectedCodeAddress      (* CodeAddress() == 0 *)
  | ConstBufferNotBound        (* buffer_address != 0 *)
  | ConstBufferOverflow        (* cb_pos + sizeof(u32) <= cb_size *)
  | UnimplementedQueryMode     (* "Query mode %u not implemented" *)
  | TextureBufferNotBound      (* tex_info_buffer.enabled && address != 0 *)
  | UnsupportedTextureFormat   (* the three assertions of GetTICEntry *)
  | OutOfBounds.               (* undefined behaviour: subscript out of range *)

#[global] Instance Error_eq_dec : EqDecision Error.
Proof. solve_decision. Defined.

Inductive Result (A : Type) :=
  | Ok (a : A) (s : Maxwell3D)
  | Abort (e : Error) (s : Maxwell3D).
Arguments Ok {A} a s.
Arguments Abort {A} e s.

Definition M (A : Type) : Type := Maxwell3D -> Result A.

Definition ret {A} (a : A) : M A := fun s => Ok a s.

Definition bind {A B} (m : M A) (k : A -> M B) : M B :=
  fun s => match m s with
           | Ok a s' => k a s'
           | Abort e s' => Abort e s'
           end.

Notation "x <- m ;; k" := (bind m (fun x => k))
  (at level 100, m at next level, right associativity).
Notation "m ;;; k" := (bind m (fun _ => k))
  (at level 100, right associativity).

(** [ASSERT(cond)] *)
Definition ASSERT (cond : bool) (e : Error) : M unit :=
  fun s => if cond then Ok tt s else Abort e s.

Definition get {A} (f : Maxwell3D -> A) : M A := fun s => Ok (f s) s.
Definition modify (f : Maxwell3D -> Maxwell3D) : M unit := fun s => Ok tt (f s).

(** The state a computation stops in, normally or not. *)
Definition final_state {A} (r : Result A) : Maxwell3D :=
  match r with Ok _ s => s | Abort _ s => s end.

(** [x[i]] on a [std::vector] or [std::array].  The source does not check
    [i]; out of range the model stops with [OutOfBounds], which stands for
    the undefined behaviour of the source and not for a state the engine is
    known to be in. *)
Definition at_index {A} (l : list A) (i : Z) : M A :=
  fun s => if 0 <=? i then
             match l !! Z.to_nat i with
             | Some x => Ok x s
             | None => Abort OutOfBounds s
             end
           else Abort OutOfBounds s.

(** A computation that leaves the component [f] of the engine as it was,
    whether it returns or aborts. *)
Definition unchanged {A B} (f : Maxwell3D -> B) (m : M A) : Prop :=
  forall s, f (final_state (m s)) = f s.

(** A run in which no array was indexed out of range: what the source
    does is defined, and the result is the engine's. *)
Definition defined {A} (r : Result A) : Prop :=
  match r with
  | Abort OutOfBounds _ => False
  | _ => True
  end.

(** ** The engine *)

(** First register id that is actually a Macro call. *)
Definition MacroRegistersStart : Z := 0xE00.

(** [Maxwell3D::method_handlers] *)
Definition method_handlers (method : Z) : option MethodInfo :=
  if method =? 0xE1A then
    Some {| name := "BindTextureInfoBuffer"; arguments := 1;
            handler := HBindTextureInfoBuffer |}
  else if method =? 0xE24 then
    Some {| name := "SetShader"; arguments := 5; handler := HSetShader |}
  else if method =? 0xE2A then
    Some {| name := "BindStorageBuffer"; arguments := 1;
            handler := HBindStorageBuffer |}
  else None.

Section Engine.

Context (H : Header).
(** [memory_manager.PhysicalToVirtualAddress], a collaborator the engine
    only calls. *)
Context (PhysicalToVirtualAddress : Z -> Z).

(** *** The register file *)

(** [regs.reg_array[i]] *)
Definition reg_array (s : Maxwell3D) (i : Z) : Z :=
  default 0 (regs s !! Z.to_nat i).

Definition set_reg_array (i v : Z) : Maxwell3D -> Maxwell3D :=
  set_regs (<[Z.to_nat i := v]>).

(** [regs.field], the same word seen through the struct half of the union. *)
Definition reg (r : Reg) (s : Maxwell3D) : Z :=
  reg_array s (MAXWELL3D_REG_INDEX H r).

Definition set_reg (r : Reg) (v : Z) : Maxwell3D -> Maxwell3D :=
  set_reg_array (MAXWELL3D_REG_INDEX H r) v.

(** A subscript into an array of [bound] elements, unchecked in the source
    as [at_index] is: [OutOfBounds] marks undefined behaviour. *)
Definition subscript (bound i : Z) : M nat :=
  fun s => if (0 <=? i) && (i <? bound) then Ok (Z.to_nat i) s
           else Abort OutOfBounds s.

(** Modelled from the spec: the address accessors are declared in
    maxwell_3d.h, which is missing; each "computes a guest address from the
    register's address fields" (section 4.10), the high word above the low
    one, which is how [BindTextureInfoBuffer] splits an address. *)
Definition join_address (high low : Z) : Z :=
  Z.lor (wrap64 (Z.shiftl high 32)) low.

(** Modelled from the spec: [regs.const_buffer.BufferAddress()] of the
    missing maxwell_3d.h. *)
Definition BufferAddress (s : Maxwell3D) : Z :=
  join_address (reg cb_address_high s) (reg cb_address_low s).

(** Modelled from the spec: [regs.code_address.CodeAddress()] of the missing
    maxwell_3d.h. *)
Definition CodeAddress (s : Maxwell3D) : Z :=
  join_address (reg code_address_high s) (reg code_address_low s).

(** Modelled from the spec: [regs.query.QueryAddress()] of the missing
    maxwell_3d.h. *)
Definition QueryAddress (s : Maxwell3D) : Z :=
  join_address (reg query_address_high s) (reg query_address_low s).

(** Modelled from the spec: [regs.tic.TICAddress()] of the missing
    maxwell_3d.h. *)
Definition TICAddress (s : Maxwell3D) : Z :=
  join_address (reg tic_address_high s) (reg tic_address_low s).

(** Modelled from the spec: [regs.tsc.TSCAddress()] of the missing
    maxwell_3d.h. *)
Definition TSCAddress (s : Maxwell3D) : Z :=
  join_address (reg tsc_address_high s) (reg tsc_address_low s).

(** [debug_context->OnEvent(e, nullptr)] under [if (debug_context)] *)
Definition OnEvent (e : Event) : M unit :=
  modify (set_debug_context (fmap (fun events => events ++ [e]))).

(** *** Macro upload *)

Definition SubmitMacroCode (entry : Z) (code : list Z) : M unit :=
  modify (set_uploaded_macros
            (<[wrap32 (entry * 2 + MacroRegistersStart) := code]>)).

(** *** Constant buffers *)

Definition ProcessCBBind (stage : Z) : M unit :=
  st <- subscript (MaxShaderStage H) stage;;
  bind_data <- get (reg (cb_bind_raw_config st));;
  let index := bf_value (cb_bind_index H) bind_data in
  slot <- subscript (MaxConstBuffers H) index;;
  address <- get BufferAddress;;
  size <- get (reg cb_size);;
  let buffer :=
    ConstBufferInfo.mk address index size
      (negb (bf_value (cb_bind_valid H) bind_data =? 0)) in
  modify (set_shader_stages
            (alter (fun shader =>
                      ShaderStageInfo.mk
                        (<[slot := buffer]> (ShaderStageInfo.const_buffers shader)))
                   st)).

Definition ProcessCBData (value : Z) : M unit :=
  buffer_address <- get BufferAddress;;
  ASSERT (negb (buffer_address =? 0)) ConstBufferNotBound;;;
  pos <- get (reg cb_pos);;
  size <- get (reg cb_size);;
  ASSERT (wrap64 (pos + 4) <=? size) ConstBufferOverflow;;;
  let address := PhysicalToVirtualAddress (wrap64 (buffer_address + pos)) in
  modify (set_memory (Write32 address value));;;
  modify (set_reg cb_pos (wrap32 (pos + 4))).

(** [ProcessCBData] for each word of a stream, in order. *)
Fixpoint stream_words (values : list Z) : M unit :=
  match values with
  | [] => ret tt
  | value :: rest => ProcessCBData value;;; stream_words rest
  end.

(** Guest memory after the words [values] have been written one after the
    other from GPU address [at_address] on. *)
Fixpoint words_written (at_address : Z) (values : list Z) (m : Memory) : Memory :=
  match values with
  | [] => m
  | value :: rest =>
      words_written (at_address + 4) rest
        (Write32 (PhysicalToVirtualAddress (wrap64 at_address)) value m)
  end.

(** *** Triggers *)

Definition ProcessQueryGet : M unit :=
  sequence_address <- get QueryAddress;;
  let address := PhysicalToVirtualAddress sequence_address in
  mode <- get (fun s => bf_value (query_get_mode H) (reg query_get s));;
  if mode =? QueryMode_Write H then
    sequence <- get (reg query_sequence);;
    modify (set_memory (Write32 address sequence))
  else
    ASSERT false UnimplementedQueryMode.

Definition DrawArrays : M unit :=
  OnEvent IncomingPrimitiveBatch;;;
  OnEvent FinishedPrimitiveBatch;;;
  modify (set_rasterizer (fun calls => calls ++ [false])).

(** *** Macro handlers *)

Definition BindTextureInfoBuffer (parameters : list Z) : M unit :=
  stage <- at_index parameters 0;;
  st <- subscript (MaxShaderStage H) stage;;
  address <- get (fun s => wrap64 (Z.shiftl (reg (tex_info_address st) s) 8));;
  size <- get (reg (tex_info_size st));;
  modify (set_reg cb_size size);;;
  modify (set_reg cb_address_high (wrap32 (Z.shiftr address 32)));;;
  modify (set_reg cb_address_low (wrap32 (Z.land address 0xFFFFFFFF))).

Definition SetShader (parameters : list Z) : M unit :=
  shader_program <- at_index parameters 0;;
  address <- at_index parameters 2;;
  shader_stage <- at_index parameters 3;;
  parameters_4 <- at_index parameters 4;;
  (* [parameters[4] << 8] is a shift of a u32 *)
  let cb_address := wrap32 (Z.shiftl parameters_4 8) in
  program <- subscript (MaxShaderProgram H) shader_program;;
  modify (set_shader_programs
            (<[program := ShaderProgramInfo.mk shader_stage shader_program address]>));;;
  modify (set_reg (shader_start_id program) (wrap32 address));;;
  modify (set_reg cb_size 0x10000);;;
  modify (set_reg cb_address_high (wrap32 (Z.shiftr cb_address 32)));;;
  modify (set_reg cb_address_low (wrap32 (Z.land cb_address 0xFFFFFFFF)));;;
  st <- subscript (MaxShaderStage H) shader_stage;;
  modify (fun s => set_reg (cb_bind_raw_config st)
                     (bf_assign (cb_bind_valid H) 1 (reg (cb_bind_raw_config st) s)) s);;;
  modify (fun s => set_reg (cb_bind_raw_config st)
                     (bf_assign (cb_bind_index H) 1 (reg (cb_bind_raw_config st) s)) s);;;
  ProcessCBBind shader_stage.

Definition BindStorageBuffer (parameters : list Z) : M unit :=
  parameters_0 <- at_index parameters 0;;
  let buffer_offset := wrap32 (Z.shiftl parameters_0 2) in
  modify (set_reg cb_size 0x5F00);;;
  address <- get (fun s => ssbo_info_BufferAddress H (reg ssbo_buffer_address s));;
  modify (set_reg cb_address_high (wrap32 (Z.shiftr address 32)));;;
  modify (set_reg cb_address_low (wrap32 (Z.land address 0xFFFFFFFF)));;;
  modify (set_reg cb_pos buffer_offset).

(** [(this->*handler)(parameters)] *)
Definition run_handler (h : MacroHandler) : list Z -> M unit :=
  match h with
  | HBindTextureInfoBuffer => BindTextureInfoBuffer
  | HSetShader => SetShader
  | HBindStorageBuffer => BindStorageBuffer
  end.

(** *** The macro engine and the write dispatcher *)

Definition CallMacroMethod (method : Z) (parameters : list Z) : M unit :=
  uploaded <- get uploaded_macros;;
  ASSERT (bool_decide (is_Some (uploaded !! method))) UnknownMacro;;;
  match method_handlers method with
  | None => ASSERT false UnimplementedMacro
  | Some info =>
      ASSERT (arguments info =? length parameters)%nat MacroArityMismatch;;;
      modify (set_dispatched (fun calls => calls ++ [(method, parameters)]));;;
      run_handler (handler info) parameters;;;
      (* Reset the current macro and its parameters. *)
      modify (set_macro 0 [])
  end.

(** The [switch (method)] of [WriteReg].  Its case labels are pairwise
    distinct constants, so the order of the tests below is immaterial. *)
Definition side_effect (method value : Z) : M unit :=
  let on r := method =? MAXWELL3D_REG_INDEX H r in
  if on code_address_high || on code_address_low then
    code_address <- get CodeAddress;;
    ASSERT (code_address =? 0) UnexpectedCodeAddress
  else if existsb (fun i => on (cb_data i)) (seq 0 16) then
    ProcessCBData value
  else if on (cb_bind_raw_config 0) then ProcessCBBind ShaderStage.Vertex
  else if on (cb_bind_raw_config 1) then ProcessCBBind ShaderStage.TesselationControl
  else if on (cb_bind_raw_config 2) then ProcessCBBind ShaderStage.TesselationEval
  else if on (cb_bind_raw_config 3) then ProcessCBBind ShaderStage.Geometry
  else if on (cb_bind_raw_config 4) then ProcessCBBind ShaderStage.Fragment
  else if on vertex_end_gl then DrawArrays
  else if on query_get then ProcessQueryGet
  else ret tt.

Definition WriteReg (method value remaining_params : Z) : M unit :=
  ASSERT (method <? NUM_REGS H) InvalidRegister;;;
  pending <- get executing_macro;;
  (if negb (pending =? 0)
   then ASSERT (method =? wrap32 (pending + 1)) MacroArgumentExpected
   else ret tt);;;
  if MacroRegistersStart <=? method then
    (if pending =? 0 then
       ASSERT (method mod 2 =? 0) MacroStartOnArgument;;;
       modify (fun s => set_macro method (macro_params s) s)
     else ret tt);;;
    modify (fun s => set_macro (executing_macro s) (macro_params s ++ [value]) s);;;
    (if remaining_params =? 0 then
       current <- get executing_macro;;
       parameters <- get macro_params;;
       CallMacroMethod current parameters
     else ret tt)
  else
    OnEvent MaxwellCommandLoaded;;;
    modify (set_reg_array method value);;;
    side_effect method value;;;
    OnEvent MaxwellCommandProcessed.

(** A command stream: [WriteReg] applied to each triple in order. *)
Fixpoint run_writes (writes : list (Z * Z * Z)) : M unit :=
  match writes with
  | [] => ret tt
  | (method, value, remaining) :: rest =>
      WriteReg method value remaining;;; run_writes rest
  end.

(** The part of [WriteReg] after its macro branch: the write of an
    ordinary register. *)
Definition register_write (method value : Z) : M unit :=
  OnEvent MaxwellCommandLoaded;;;
  modify (set_reg_array method value);;;
  side_effect method value;;;
  OnEvent MaxwellCommandProcessed.

(** The writes that pass the arguments of a macro call after the first:
    each goes to the argument register and announces how many follow. *)
Fixpoint argument_writes (argument_register : Z) (values : list Z)
    : list (Z * Z * Z) :=
  match values with
  | [] => []
  | value :: rest =>
      (argument_register, value, Z.of_nat (length rest))
        :: argument_writes argument_register rest
  end.

(** A macro call split over one write per parameter: the first to the
    entry register [entry], the others to [entry + 1]. *)
Definition macro_call_writes (entry : Z) (parameters : list Z)
    : list (Z * Z * Z) :=
  match parameters with
  | [] => []
  | value :: rest =>
      (entry, value, Z.of_nat (length rest)) :: argument_writes (entry + 1) rest
  end.

(** *** Texture descriptors *)

Definition GetTICEntry (tic_index : Z) : M TICEntry :=
  tic_base_address <- get TICAddress;;
  let tic_address_gpu :=
    wrap64 (tic_base_address + wrap64 (tic_index * sizeof_TICEntry H)) in
  let tic_address_cpu := PhysicalToVirtualAddress tic_address_gpu in
  tic_entry <- get (fun s => ReadBlock (memory s) tic_address_cpu (sizeof_TICEntry H));;
  ASSERT (header_version H tic_entry =? TICHeaderVersion_BlockLinear H)
    UnsupportedTextureFormat;;;
  ASSERT (texture_type H tic_entry =? TextureType_Texture2D H)
    UnsupportedTextureFormat;;;
  ASSERT ((r_type H tic_entry =? g_type H tic_entry)
          && (r_type H tic_entry =? b_type H tic_entry)
          && (r_type H tic_entry =? a_type H tic_entry))
    UnsupportedTextureFormat;;;
  ret tic_entry.

Definition GetTSCEntry (tsc_index : Z) : M TSCEntry :=
  tsc_base_address <- get TSCAddress;;
  let tsc_address_gpu :=
    wrap64 (tsc_base_address + wrap64 (tsc_index * sizeof_TSCEntry H)) in
  let tsc_address_cpu := PhysicalToVirtualAddress tsc_address_gpu in
  get (fun s => ReadBlock (memory s) tsc_address_cpu (sizeof_TSCEntry H)).

(** The descriptor record number [tic_index] of the TIC table, as guest
    memory holds it. *)
Definition tic_entry_at (s : Maxwell3D) (tic_index : Z) : TICEntry :=
  ReadBlock (memory s)
    (PhysicalToVirtualAddress
       (wrap64 (TICAddress s + wrap64 (tic_index * sizeof_TICEntry H))))
    (sizeof_TICEntry H).

(** The descriptors the resolver accepts: block-linear layout, 2D texture
    type, one data type for the four colour components. *)
Definition supported_format (tic : TICEntry) : Prop :=
  header_version H tic = TICHeaderVersion_BlockLinear H
  /\ texture_type H tic = TextureType_Texture2D H
  /\ r_type H tic = g_type H tic
  /\ r_type H tic = b_type H tic
  /\ r_type H tic = a_type H tic.

(** Offset into the texture constbuffer where the texture info begins. *)
Definition TextureInfoOffset : Z := 0x20.

(** The body of the loop of [GetStageTextures] at [current_texture]. *)
Definition texture_at (buffer_address current_texture : Z) : M FullTextureInfo.t :=
  tex_handle <- get (fun s => Read32 (memory s) (PhysicalToVirtualAddress current_texture));;
  let index :=
    wrap32 (wrap64 (wrap64 (current_texture - buffer_address) - TextureInfoOffset)
            / sizeof_TextureHandle H) in
  let tic_index := bf_value (tic_id H) tex_handle in
  let tsc_index := bf_value (tsc_id H) tex_handle in
  tic <- (if negb (tic_index =? 0) then GetTICEntry tic_index
          else ret (replicate (Z.to_nat (sizeof_TICEntry H)) 0));;
  tsc <- (if negb (tsc_index =? 0) then GetTSCEntry tsc_index
          else ret (replicate (Z.to_nat (sizeof_TSCEntry H)) 0));;
  ret (FullTextureInfo.mk index tic tsc (negb (tic_index =? 0))).

(** The [for] loop of [GetStageTextures].  The loop counter is a 64-bit
    address and can wrap, so the loop is not bounded by its arguments alone:
    [None] means that [fuel] iterations did not reach the end. *)
Fixpoint scan_textures (fuel : nat) (buffer_address tex_info_buffer_end : Z)
    (current_texture : Z) (textures : list FullTextureInfo.t) (s : Maxwell3D)
    : option (Result (list FullTextureInfo.t)) :=
  match fuel with
  | O => None
  | S fuel' =>
      if current_texture <? tex_info_buffer_end then
        match texture_at buffer_address current_texture s with
        | Ok tex_info s' =>
            scan_textures fuel' buffer_address tex_info_buffer_end
              (wrap64 (current_texture + sizeof_TextureHandle H))
              (if FullTextureInfo.enabled tex_info
               then textures ++ [tex_info] else textures)
              s'
        | Abort e s' => Some (Abort e s')
        end
      else Some (Ok textures s)
  end.

Definition GetStageTextures (fuel : nat) (stage : Z) (s : Maxwell3D)
    : option (Result (list FullTextureInfo.t)) :=
  let prologue : M ConstBufferInfo.t :=
    st <- subscript (MaxShaderStage H) stage;;
    fragment_shader <- (fun s => at_index (shader_stages s) (Z.of_nat st) s);;
    tex_cb <- get (reg tex_cb_index);;
    tex_info_buffer <- at_index (ShaderStageInfo.const_buffers fragment_shader) tex_cb;;
    ASSERT (ConstBufferInfo.enabled tex_info_buffer
            && negb (ConstBufferInfo.address tex_info_buffer =? 0))
      TextureBufferNotBound;;;
    ret tex_info_buffer in
  match prologue s with
  | Abort e s' => Some (Abort e s')
  | Ok tex_info_buffer s' =>
      let address := ConstBufferInfo.address tex_info_buffer in
      let tex_info_buffer_end := wrap64 (address + ConstBufferInfo.size tex_info_buffer) in
      scan_textures fuel address tex_info_buffer_end
        (wrap64 (address + TextureInfoOffset)) [] s'
  end.

(** *** What the resolver is to return

    The result of [GetStageTextures] in the words of the specification: the
    handle entries between [address + 0x20] and [address + size], numbered
    from zero, of which those with a nonzero texture id are kept. *)

Definition tsc_entry_at (s : Maxwell3D) (tsc_index : Z) : TSCEntry :=
  ReadBlock (memory s)
    (PhysicalToVirtualAddress
       (wrap64 (TSCAddress s + wrap64 (tsc_index * sizeof_TSCEntry H))))
    (sizeof_TSCEntry H).

Definition handle_count (size : Z) : Z :=
  if size <=? TextureInfoOffset then 0
  else (size - TextureInfoOffset + sizeof_TextureHandle H - 1)
       / sizeof_TextureHandle H.

(** The position of the [i]-th handle of the buffer at [address]. *)
Definition handle_address (address i : Z) : Z :=
  address + TextureInfoOffset + i * sizeof_TextureHandle H.

Definition handle_at (s : Maxwell3D) (address i : Z) : Z :=
  Read32 (memory s) (PhysicalToVirtualAddress (handle_address address i)).

Definition has_texture (s : Maxwell3D) (address i : Z) : Prop :=
  bf_value (tic_id H) (handle_at s address i) <> 0.

Definition resolved_texture (s : Maxwell3D) (address i : Z) : FullTextureInfo.t :=
  let tex_handle := handle_at s address i in
  FullTextureInfo.mk i
    (tic_entry_at s (bf_value (tic_id H) tex_handle))
    (if bf_value (tsc_id H) tex_handle =? 0
     then replicate (Z.to_nat (sizeof_TSCEntry H)) 0
     else tsc_entry_at s (bf_value (tsc_id H) tex_handle))
    true.

Definition stage_textures (s : Maxwell3D) (address size : Z)
    : list FullTextureInfo.t :=
  map (resolved_texture s address)
      (filter (has_texture s address) (seqZ 0 (handle_count size))).

(** The handles whose descriptor the resolver accepts, or that have none. *)
Definition resolvable (s : Maxwell3D) (address i : Z) : Prop :=
  has_texture s address i ->
  supported_format (tic_entry_at s (bf_value (tic_id H) (handle_at s address i))).

(** *** Well-formed engine states *)

(** The arrays have their declared sizes and the registers hold 32 bits. *)
Record state_ok (s : Maxwell3D) : Prop := {
  regs_length : Z.of_nat (length (regs s)) = NUM_REGS H;
  regs_u32 : Forall u32 (regs s);
  shader_programs_length : Z.of_nat (length (shader_programs s)) = MaxShaderProgram H;
  shader_stages_length : Z.of_nat (length (shader_stages s)) = MaxShaderStage H;
  const_buffers_length :
    Forall (fun shader =>
              Z.of_nat (length (ShaderStageInfo.const_buffers shader)) = MaxConstBuffers H)
           (shader_stages s)
}.

(** The debug context after event [e], if there is a debug context. *)
Definition notified (e : Event) : Maxwell3D -> Maxwell3D :=
  set_debug_context (fmap (fun events => events ++ [e])).

(** The engine when [WriteReg] has stored [value] at [method] and is about
    to apply the side effect. *)
Definition stored (method value : Z) (s : Maxwell3D) : Maxwell3D :=
  set_reg_array method value (notified MaxwellCommandLoaded s).

(** The constant buffer bound at [slot] of shader stage [stage]. *)
Definition bound_buffer (s : Maxwell3D) (stage slot : nat)
    : option ConstBufferInfo.t :=
  match shader_stages s !! stage with
  | Some shader => ShaderStageInfo.const_buffers shader !! slot
  | None => None
  end.

(** A named register that lies below the macro range. *)
Definition below_macros (r : Reg) : Prop :=
  MAXWELL3D_REG_INDEX H r < MacroRegistersStart.

(** The macro call state is idle, nothing queued, or a call is pending on an
    even register of the macro range with its first parameter queued. *)
Definition macro_state_ok (s : Maxwell3D) : Prop :=
  (executing_macro s = 0 /\ macro_params s = [])
  \/ (MacroRegistersStart <= executing_macro s < NUM_REGS H
      /\ executing_macro s mod 2 = 0
      /\ macro_params s <> []).

(** The registers that label a case of the [switch] of [WriteReg]. *)
Definition side_effect_registers : list Reg :=
  [code_address_high; code_address_low]
  ++ map cb_data (seq 0 16)
  ++ map cb_bind_raw_config (seq 0 5)
  ++ [vertex_end_gl; query_get].

(** [state_ok] as a test. *)
Definition state_okb (s : Maxwell3D) : bool :=
  (Z.of_nat (length (regs s)) =? NUM_REGS H)
  && forallb (fun r => (0 <=? r) && (r <? 2 ^ 32)) (regs s)
  && (Z.of_nat (length (shader_programs s)) =? MaxShaderProgram H)
  && (Z.of_nat (length (shader_stages s)) =? MaxShaderStage H)
  && forallb (fun shader =>
                Z.of_nat (length (ShaderStageInfo.const_buffers shader))
                =? MaxConstBuffers H)
             (shader_stages s).

End Engine.

#[global] Instance supported_format_dec (H : Header) (tic : list Z) :
  Decision (supported_format H tic).
Proof. unfold supported_format. apply _. Defined.

#[global] Instance resolvable_dec (H : Header) (P2V : Z -> Z) (s : Maxwell3D)
    (address i : Z) : Decision (resolvable H P2V s address i).
Proof. unfold resolvable, has_texture. apply _. Defined.

(** ** The upstream declarations

    The values the upstream headers give to the constants of [Header]; the
    model is run with them on concrete inputs. *)
Module Reference.

Definition REG_INDEX (r : Reg) : Z :=
  match r with
  | tsc_address_high => 0x557
  | tsc_address_low => 0x558
  | tic_address_high => 0x55D
  | tic_address_low => 0x55E
  | code_address_high => 0x582
  | code_address_low => 0x583
  | vertex_end_gl => 0x585
  | query_address_high => 0x6C0
  | query_address_low => 0x6C1
  | query_sequence => 0x6C2
  | query_get => 0x6C3
  | shader_start_id p => 0x800 + 0x10 * Z.of_nat p + 1
  | cb_size => 0x8E0
  | cb_address_high => 0x8E1
  | cb_address_low => 0x8E2
  | cb_pos => 0x8E3
  | cb_data i => 0x8E4 + Z.of_nat i
  | cb_bind_raw_config st => 0x904 + 8 * Z.of_nat st
  | tex_cb_index => 0x982
  | ssbo_buffer_address => 0xD18
  | tex_info_address st => 0xD2A + Z.of_nat st
  | tex_info_size st => 0xD2F + Z.of_nat st
  end.

(** The [w]-th 32-bit word of a descriptor block. *)
Definition word (w : nat) (block : list Z) : Z :=
  let byte i := default 0 (block !! (4 * w + i)%nat) in
  byte 0%nat + Z.shiftl (byte 1%nat) 8 + Z.shiftl (byte 2%nat) 16
  + Z.shiftl (byte 3%nat) 24.

Definition header : Header := {|
  NUM_REGS := 0xE36;
  MaxShaderProgram := 6;
  MaxShaderStage := 5;
  MaxConstBuffers := 16;
  MAXWELL3D_REG_INDEX := REG_INDEX;
  cb_bind_valid := {| position := 0; bits := 1 |};
  cb_bind_index := {| position := 4; bits := 5 |};
  query_get_mode := {| position := 0; bits := 2 |};
  QueryMode_Write := 0;
  ssbo_info_BufferAddress := fun buffer_address => wrap64 (Z.shiftl buffer_address 8);
  sizeof_TextureHandle := 4;
  tic_id := {| position := 0; bits := 20 |};
  tsc_id := {| position := 20; bits := 12 |};
  sizeof_TICEntry := 0x20;
  sizeof_TSCEntry := 0x20;
  header_version := fun tic => bf_value {| position := 21; bits := 3 |} (word 2 tic);
  texture_type := fun tic => bf_value {| position := 23; bits := 4 |} (word 4 tic);
  r_type := fun tic => bf_value {| position := 7; bits := 3 |} (word 0 tic);
  g_type := fun tic => bf_value {| position := 10; bits := 3 |} (word 0 tic);
  b_type := fun tic => bf_value {| position := 13; bits := 3 |} (word 0 tic);
  a_type := fun tic => bf_value {| position := 16; bits := 3 |} (word 0 tic);
  TICHeaderVersion_BlockLinear := 3;
  TextureType_Texture2D := 1
|}.

(** The registers of [valid_reg header], listed. *)
Definition all_regs : list Reg :=
  [code_address_high; code_address_low; cb_size; cb_address_high;
   cb_address_low; cb_pos; vertex_end_gl; query_address_high;
   query_address_low; query_sequence; query_get; tex_cb_index;
   ssbo_buffer_address; tic_address_high; tic_address_low;
   tsc_address_high; tsc_address_low]
  ++ map cb_data (seq 0 16)
  ++ map cb_bind_raw_config (seq 0 5)
  ++ map tex_info_address (seq 0 5)
  ++ map tex_info_size (seq 0 5)
  ++ map shader_start_id (seq 0 6).

(** The engine as its constructor leaves it, with a debug context that
    has seen no event. *)
Definition initial : Maxwell3D := {|
  regs := replicate (Z.to_nat 0xE36) 0;
  shader_programs := replicate 6 ShaderProgramInfo.empty;
  shader_stages :=
    replicate 5 (ShaderStageInfo.mk (replicate 16 ConstBufferInfo.empty));
  uploaded_macros := ∅;
  executing_macro := 0;
  macro_params := [];
  memory := ∅;
  debug_context := Some [];
  rasterizer := [];
  dispatched := []
|}.

(** An identity-mapped memory manager. *)
Definition identity_map (gpu_address : Z) : Z := gpu_address.

(** The engine after the guest has uploaded microcode for the entries of
    the three handlers (0xE1A, 0xE24, 0xE2A) and for entry 0 (0xE00). *)
Definition with_macros : Maxwell3D :=
  final_state
    ((SubmitMacroCode 0 [0x15];;;
      SubmitMacroCode 13 [0x15];;;
      SubmitMacroCode 18 [0x15];;;
      SubmitMacroCode 21 [0x15]) initial).

(** [with_macros] after the guest has written the active constant buffer
    registers: address 0x1000, size 4, cursor 0. *)
Definition const_buffer_of_one_word : Maxwell3D :=
  final_state
    (run_writes header identity_map
       [(0x8E0, 4, 0); (0x8E1, 0, 0); (0x8E2, 0x1000, 0); (0x8E3, 0, 0)]
       with_macros).

(** The fragment stage with the buffer at [address] of [size] bytes bound
    at slot 0, which [tex_cb_index] selects, over guest memory [bytes]. *)
Definition with_texture_buffer (address_high address_low size : Z)
    (bytes : Memory) : Maxwell3D :=
  final_state
    (run_writes header identity_map
       [(0x8E0, size, 0); (0x8E1, address_high, 0); (0x8E2, address_low, 0);
        (0x904 + 8 * 4, 0x01, 0)]
       (set_memory (fun _ => bytes) initial)).

(** [with_macros] after the guest has written the query registers:
    address 0x2000, sequence number 0xCAFE, mode Write. *)
Definition query_pending : Maxwell3D :=
  final_state
    (run_writes header identity_map
       [(0x6C0, 0, 0); (0x6C1, 0x2000, 0); (0x6C2, 0xCAFE, 0)] with_macros).

(** [query_pending] with mode 1 in the query-get register. *)
Definition query_sync_pending : Maxwell3D :=
  final_state (WriteReg header identity_map 0x6C3 1 0 query_pending).

(** [with_macros] after the guest has written 1 to the texture-info-buffer
    address register of the vertex stage. *)
Definition tex_info_address_one : Maxwell3D :=
  final_state (WriteReg header identity_map 0xD2A 1 0 with_macros).

(** [with_macros] after the guest has written 0x100 to the
    texture-info-buffer size register of the fragment stage. *)
Definition tex_info_size_set : Maxwell3D :=
  final_state (WriteReg header identity_map (0xD2F + 4) 0x100 0 with_macros).

(** A texture descriptor of a supported format: block linear (word 2),
    2D (word 4), all component types equal (word 0). *)
Definition supported_tic_bytes (address : Z) : list (Z * Z) :=
  [(address + 10, 0x60); (address + 18, 0x80)].

(** One handle with texture id 1 at 0x1020 and one with texture id 0 at
    0x1024; the descriptor table is at address 0, descriptor 1 at 0x20. *)
Definition one_texture_memory : Memory :=
  list_to_map ((0x1020, 1) :: supported_tic_bytes 0x20).

(** The same handles, the descriptor 1 left all zero: not block linear. *)
Definition unsupported_texture_memory : Memory :=
  list_to_map [(0x1020, 1)].

(** The two handles of the 0x28-byte buffer at 0x1000, descriptor 1
    supported. *)
Definition one_texture : Maxwell3D :=
  with_texture_buffer 0 0x1000 0x28 one_texture_memory.

(** The same buffer, descriptor 1 unsupported. *)
Definition unsupported_texture : Maxwell3D :=
  with_texture_buffer 0 0x1000 0x28 unsupported_texture_memory.

(** A 0x40-byte buffer at 0xFFFFFFFFFFFFFFD0, whose end lies beyond the
    64-bit address space; its first handle, at 0xFFFFFFFFFFFFFFF0, has
    texture id 1, descriptor 1 supported. *)
Definition wrapping_texture_buffer : Maxwell3D :=
  with_texture_buffer 0xFFFFFFFF 0xFFFFFFD0 0x40
    (list_to_map ((0xFFFFFFFFFFFFFFF0, 1) :: supported_tic_bytes 0x20)).

(** [with_macros] after the first of the five writes of a [SetShader]
    call: the call is pending. *)
Definition call_pending : Maxwell3D :=
  final_state (WriteReg header identity_map 0xE24 7 4 with_macros).

(** A texture buffer of 0x20 bytes at 0x1000, bound for the fragment
    stage: the header and no handle. *)
Definition header_only_buffer : Maxwell3D :=
  with_texture_buffer 0 0x1000 0x20 ∅.

(** The bind slot [GetStageTextures] reads for the fragment stage. *)
Definition fragment_shader (s : Maxwell3D) : ShaderStageInfo.t :=
  default (ShaderStageInfo.mk []) (shader_stages s !! 4%nat).

Definition tex_info_buffer (s : Maxwell3D) : ConstBufferInfo.t :=
  default ConstBufferInfo.empty
    (ShaderStageInfo.const_buffers (fragment_shader s) !! 0%nat).

End Reference.

(** * Properties *)

(** ** Machine integers and bit fields *)

Lemma wrap32_u32 (x : Z) : u32 (wrap32 x).
Proof. unfold u32, wrap32. apply Z.mod_pos_bound. lia. Qed.

Lemma wrap32_id (x : Z) : u32 x -> wrap32 x = x.
Proof. unfold u32, wrap32. intros. apply Z.mod_small. lia. Qed.

Lemma wrap64_id (x : Z) : u64 x -> wrap64 x = x.
Proof. unfold u64, wrap64. intros. apply Z.mod_small. lia. Qed.

Lemma u32_u64 (x : Z) : u32 x -> u64 x.
Proof. unfold u32, u64. lia. Qed.

(** ** The register file *)

Section RegisterFile.

Context (H : Header).

Lemma reg_array_set_same (s : Maxwell3D) (i v : Z) :
  0 <= i < Z.of_nat (length (regs s)) ->
  reg_array (set_reg_array i v s) i = v.
Proof.
  intros Hi. unfold reg_array, set_reg_array. simpl.
  rewrite list_lookup_insert_eq by lia. reflexivity.
Qed.

Lemma reg_array_set_other (s : Maxwell3D) (i j v : Z) :
  0 <= i -> 0 <= j -> i <> j ->
  reg_array (set_reg_array i v s) j = reg_array s j.
Proof.
  intros Hi Hj Hne. unfold reg_array, set_reg_array. simpl.
  rewrite list_lookup_insert_ne by lia. reflexivity.
Qed.

Context (HOK : HeaderOK H).

Lemma reg_set_same (s : Maxwell3D) (r : Reg) (v : Z) :
  Z.of_nat (length (regs s)) = NUM_REGS H -> valid_reg H r ->
  reg H r (set_reg H r v s) = v.
Proof.
  intros Hlen Hr. unfold reg, set_reg. apply reg_array_set_same.
  rewrite Hlen. apply (reg_index_range H HOK); assumption.
Qed.

Lemma reg_set_other (s : Maxwell3D) (a b : Reg) (v : Z) :
  valid_reg H a -> valid_reg H b -> a <> b ->
  reg H a (set_reg H b v s) = reg H a s.
Proof.
  intros Ha Hb Hne. unfold reg, set_reg.
  pose proof (reg_index_range H HOK a Ha).
  pose proof (reg_index_range H HOK b Hb).
  apply reg_array_set_other; try lia.
  intros Heq. apply Hne. symmetry. apply (reg_index_inj H HOK); auto.
Qed.

Lemma reg_array_u32 (s : Maxwell3D) (i : Z) :
  Forall u32 (regs s) -> u32 (reg_array s i).
Proof.
  intros Hall. unfold reg_array.
  destruct (regs s !! Z.to_nat i) as [x|] eqn:Hx; simpl.
  - eapply Forall_lookup_1; eauto.
  - unfold u32. lia.
Qed.

Lemma state_ok_set_reg_array (s : Maxwell3D) (i v : Z) :
  state_ok H s -> u32 v -> state_ok H (set_reg_array i v s).
Proof.
  intros [Hl Hu Hp Hs Hc] Hv. constructor; simpl; auto.
  - rewrite length_insert. assumption.
  - apply Forall_insert; assumption.
Qed.

End RegisterFile.

(** ** The side-effect table *)

Section SideEffects.

Context (H : Header) (HOK : HeaderOK H) (P2V : Z -> Z).

Lemma reg_index_eqb (a b : Reg) :
  valid_reg H a -> valid_reg H b ->
  (MAXWELL3D_REG_INDEX H a =? MAXWELL3D_REG_INDEX H b) = bool_decide (a = b).
Proof.
  intros Ha Hb. destruct (decide (a = b)) as [->|Hne].
  - rewrite Z.eqb_refl. symmetry. apply bool_decide_eq_true. reflexivity.
  - rewrite bool_decide_eq_false_2 by assumption.
    apply Z.eqb_neq. intros Heq. apply Hne. apply (reg_index_inj H HOK); assumption.
Qed.

Lemma valid_cb_bind (st : nat) : (st < 5)%nat -> valid_reg H (cb_bind_raw_config st).
Proof. intros Hst. simpl. pose proof (shader_stages_five H HOK). lia. Qed.

(** Rewrites the tests of the [switch] at a named register into
    comparisons of register names, and evaluates them. *)
Ltac switch_at :=
  unfold side_effect; cbn [existsb seq];
  rewrite ?reg_index_eqb by
    first [ apply valid_cb_bind; lia | simpl; first [exact I | lia] ];
  cbn.

(** The [switch] of [WriteReg] reaches [ProcessQueryGet] through the
    [query_get] register. *)
Lemma side_effect_query_get (v : Z) :
  side_effect H P2V (MAXWELL3D_REG_INDEX H query_get) v = ProcessQueryGet H P2V.
Proof. switch_at. reflexivity. Qed.

Lemma side_effect_cb_data (i : nat) (v : Z) :
  (i < 16)%nat ->
  side_effect H P2V (MAXWELL3D_REG_INDEX H (cb_data i)) v = ProcessCBData H P2V v.
Proof.
  intros Hi.
  do 16 (destruct i as [|i]; [switch_at; reflexivity|]). lia.
Qed.

End SideEffects.

(** ** The constant buffer manager *)

Section ConstBuffers.

Context (H : Header) (HOK : HeaderOK H) (P2V : Z -> Z).

Lemma ProcessCBData_unbound (s : Maxwell3D) (v : Z) :
  BufferAddress H s = 0 ->
  ProcessCBData H P2V v s = Abort ConstBufferNotBound s.
Proof.
  intros Ha. unfold ProcessCBData, bind, get, ASSERT.
  rewrite Ha. reflexivity.
Qed.

Lemma ProcessCBData_overflow (s : Maxwell3D) (v : Z) :
  Forall u32 (regs s) ->
  BufferAddress H s <> 0 ->
  reg H cb_pos s + 4 > reg H cb_size s ->
  ProcessCBData H P2V v s = Abort ConstBufferOverflow s.
Proof.
  intros Hu Ha Hov. unfold ProcessCBData, bind, get, ASSERT.
  destruct (BufferAddress H s =? 0) eqn:E; [apply Z.eqb_eq in E; contradiction|].
  simpl negb. cbv iota.
  pose proof (reg_array_u32 s (MAXWELL3D_REG_INDEX H cb_pos) Hu) as Hp.
  fold (reg H cb_pos s) in Hp. unfold u32 in Hp.
  rewrite wrap64_id by (unfold u64; lia).
  destruct (reg H cb_pos s + 4 <=? reg H cb_size s) eqn:E2;
    [apply Z.leb_le in E2; lia | reflexivity].
Qed.

(** The state after a successful streamed write of [v]. *)
Lemma ProcessCBData_ok (s : Maxwell3D) (v : Z) :
  Forall u32 (regs s) ->
  BufferAddress H s <> 0 ->
  reg H cb_pos s + 4 <= reg H cb_size s ->
  ProcessCBData H P2V v s =
    Ok tt (set_reg H cb_pos (reg H cb_pos s + 4)
             (set_memory
                (Write32 (P2V (wrap64 (BufferAddress H s + reg H cb_pos s))) v) s)).
Proof.
  intros Hu Ha Hle. unfold ProcessCBData, bind, get, ASSERT, modify.
  destruct (BufferAddress H s =? 0) eqn:E; [apply Z.eqb_eq in E; contradiction|].
  simpl negb. cbv iota.
  pose proof (reg_array_u32 s (MAXWELL3D_REG_INDEX H cb_pos) Hu) as Hp.
  pose proof (reg_array_u32 s (MAXWELL3D_REG_INDEX H cb_size) Hu) as Hs.
  fold (reg H cb_pos s) in Hp. fold (reg H cb_size s) in Hs. unfold u32 in Hp, Hs.
  rewrite wrap64_id by (unfold u64; lia).
  destruct (reg H cb_pos s + 4 <=? reg H cb_size s) eqn:E2;
    [| apply Z.leb_gt in E2; lia].
  rewrite wrap32_id by (unfold u32; lia). reflexivity.
Qed.

Lemma BufferAddress_set_cb_pos (s : Maxwell3D) (v : Z) (f : Memory -> Memory) :
  BufferAddress H (set_reg H cb_pos v (set_memory f s)) = BufferAddress H s.
Proof.
  unfold BufferAddress.
  rewrite !(reg_set_other H HOK) by (simpl; auto; discriminate).
  reflexivity.
Qed.

Lemma cb_size_set_cb_pos (s : Maxwell3D) (v : Z) (f : Memory -> Memory) :
  reg H cb_size (set_reg H cb_pos v (set_memory f s)) = reg H cb_size s.
Proof.
  rewrite (reg_set_other H HOK) by (simpl; auto; discriminate). reflexivity.
Qed.

Lemma cb_pos_set_cb_pos (s : Maxwell3D) (v : Z) (f : Memory -> Memory) :
  Z.of_nat (length (regs s)) = NUM_REGS H ->
  reg H cb_pos (set_reg H cb_pos v (set_memory f s)) = v.
Proof.
  intros Hl. apply (reg_set_same H HOK); simpl; auto.
Qed.

Lemma state_ok_set_memory (s : Maxwell3D) (f : Memory -> Memory) :
  state_ok H s -> state_ok H (set_memory f s).
Proof. intros [Hl Hu Hp Hs Hc]. constructor; simpl; auto. Qed.

(** [n] words fit: the stream succeeds and the cursor has advanced by [4n]. *)
Lemma stream_words_ok (values : list Z) : forall s : Maxwell3D,
  state_ok H s ->
  BufferAddress H s <> 0 ->
  reg H cb_pos s + 4 * Z.of_nat (length values) <= reg H cb_size s ->
  exists s', stream_words H P2V values s = Ok tt s'
    /\ reg H cb_pos s' = reg H cb_pos s + 4 * Z.of_nat (length values)
    /\ state_ok H s'.
Proof.
  induction values as [|v values IH]; intros s Hok Ha Hfit.
  - exists s. simpl. split; [reflexivity|]. split; [lia | assumption].
  - cbn [stream_words length] in *. unfold bind.
    pose proof (regs_u32 H s Hok) as Hu.
    pose proof (reg_array_u32 s (MAXWELL3D_REG_INDEX H cb_pos) Hu) as Hp.
    pose proof (reg_array_u32 s (MAXWELL3D_REG_INDEX H cb_size) Hu) as Hs.
    fold (reg H cb_pos s) in Hp. fold (reg H cb_size s) in Hs. unfold u32 in Hp, Hs.
    rewrite ProcessCBData_ok by (auto; lia).
    set (s1 := set_reg H cb_pos _ _).
    assert (Hok1 : state_ok H s1).
    { apply state_ok_set_reg_array; [apply state_ok_set_memory; assumption|].
      unfold u32. lia. }
    assert (Hp1 : reg H cb_pos s1 = reg H cb_pos s + 4).
    { apply cb_pos_set_cb_pos. apply (regs_length H s Hok). }
    destruct (IH s1) as (s' & Hrun & Hpos & Hok'); auto.
    + unfold s1. rewrite BufferAddress_set_cb_pos. assumption.
    + unfold s1 at 2. rewrite cb_size_set_cb_pos. lia.
    + exists s'. split; [assumption|]. split; [lia | assumption].
Qed.

(** Whenever a stream of [n] writes succeeds, the cursor moved by [4n]. *)
Lemma stream_words_cursor (values : list Z) : forall s s' : Maxwell3D,
  state_ok H s ->
  stream_words H P2V values s = Ok tt s' ->
  reg H cb_pos s' = reg H cb_pos s + 4 * Z.of_nat (length values).
Proof.
  induction values as [|v values IH]; intros s s' Hok Hrun.
  - simpl in Hrun. injection Hrun as <-. simpl. lia.
  - cbn [stream_words length] in *. unfold bind in Hrun.
    pose proof (regs_u32 H s Hok) as Hu.
    pose proof (reg_array_u32 s (MAXWELL3D_REG_INDEX H cb_pos) Hu) as Hp.
    fold (reg H cb_pos s) in Hp. unfold u32 in Hp.
    destruct (Z.eq_dec (BufferAddress H s) 0) as [Hz|Hnz].
    { rewrite ProcessCBData_unbound in Hrun by assumption. discriminate. }
    destruct (Z_le_gt_dec (reg H cb_pos s + 4) (reg H cb_size s)) as [Hle|Hgt].
    2:{ rewrite ProcessCBData_overflow in Hrun by assumption. discriminate. }
    rewrite ProcessCBData_ok in Hrun by assumption.
    pose proof (reg_array_u32 s (MAXWELL3D_REG_INDEX H cb_size) Hu) as Hs.
    fold (reg H cb_size s) in Hs. unfold u32 in Hs.
    apply IH in Hrun.
    + rewrite Hrun, cb_pos_set_cb_pos by apply (regs_length H s Hok). lia.
    + apply state_ok_set_reg_array; [apply state_ok_set_memory; assumption|].
      unfold u32. lia.
Qed.

(** C3: the streamed write of the constant buffer manager, which a write to
    one of the sixteen data registers runs.  With [address]
    the active buffer address, [pos] the cursor and [size] the active size:
    a zero address fails with ConstBufferNotBound; otherwise
    [pos + 4 > size] fails with ConstBufferOverflow; both failures leave the
    engine, guest memory and cursor included, as it was.  Otherwise the four
    bytes of the value are written at the translation of [address + pos]
    (64-bit GPU address arithmetic) and the cursor advances by exactly 4.
    A stream of [n] words that fits succeeds, and every stream of [n]
    successful writes advances the cursor by [4n]; with [size = 4] and the
    cursor at 0 one write succeeds and the next one overflows. *)
Theorem C3_streamed_write (s : Maxwell3D) (v : Z) :
  state_ok H s ->
  let address := BufferAddress H s in
  let pos := reg H cb_pos s in
  let size := reg H cb_size s in
  (forall i, (i < 16)%nat ->
     side_effect H P2V (MAXWELL3D_REG_INDEX H (cb_data i)) v = ProcessCBData H P2V v)
  /\ (address = 0 -> ProcessCBData H P2V v s = Abort ConstBufferNotBound s)
  /\ (address <> 0 -> pos + 4 > size ->
      ProcessCBData H P2V v s = Abort ConstBufferOverflow s)
  /\ (address <> 0 -> pos + 4 <= size ->
      exists s', ProcessCBData H P2V v s = Ok tt s'
        /\ memory s' = Write32 (P2V (wrap64 (address + pos))) v (memory s)
        /\ reg H cb_pos s' = pos + 4
        /\ reg H cb_size s' = size
        /\ BufferAddress H s' = address)
  /\ (forall values, address <> 0 ->
      pos + 4 * Z.of_nat (length values) <= size ->
      exists s', stream_words H P2V values s = Ok tt s')
  /\ (forall values s', stream_words H P2V values s = Ok tt s' ->
      reg H cb_pos s' = pos + 4 * Z.of_nat (length values))
  /\ (address <> 0 -> pos = 0 -> size = 4 ->
      exists s1, ProcessCBData H P2V v s = Ok tt s1
        /\ reg H cb_pos s1 = 4
        /\ forall v2, ProcessCBData H P2V v2 s1 = Abort ConstBufferOverflow s1).
Proof.
  intros Hok address pos size.
  pose proof (regs_u32 H s Hok) as Hu.
  pose proof (regs_length H s Hok) as Hl.
  split; [intros i Hi; apply side_effect_cb_data; assumption|].
  split; [apply ProcessCBData_unbound|].
  split; [apply ProcessCBData_overflow; assumption|].
  split.
  { intros Ha Hle. eexists. split; [apply ProcessCBData_ok; assumption|].
    split; [reflexivity|].
    split; [apply cb_pos_set_cb_pos; assumption|].
    split; [apply cb_size_set_cb_pos | apply BufferAddress_set_cb_pos]. }
  split.
  { intros values Ha Hfit.
    destruct (stream_words_ok values s Hok Ha Hfit) as (s' & Hrun & _).
    exists s'. assumption. }
  split.
  { intros values s' Hrun. apply stream_words_cursor; assumption. }
  intros Ha Hp Hs. subst pos size.
  eexists. split; [apply ProcessCBData_ok; auto; lia|].
  rewrite cb_pos_set_cb_pos by assumption.
  split; [lia|].
  intros v2. apply ProcessCBData_overflow.
  - simpl. apply Forall_insert; [assumption | unfold u32; lia].
  - rewrite BufferAddress_set_cb_pos. assumption.
  - rewrite cb_pos_set_cb_pos by assumption. rewrite cb_size_set_cb_pos. lia.
Qed.

End ConstBuffers.


(** ** The query processor *)

Section Query.

Context (H : Header) (HOK : HeaderOK H) (P2V : Z -> Z).

(** C7: a write to the query-get register runs the query processor, which
    takes the guest address from the query address registers; in mode Write
    it stores the 32-bit query sequence number there, in every other mode it
    fails with UnimplementedQueryMode and leaves the engine, guest memory
    included, as it was. *)
Theorem C7_query_get (s : Maxwell3D) (v : Z) :
  let address := P2V (QueryAddress H s) in
  let mode := bf_value (query_get_mode H) (reg H query_get s) in
  side_effect H P2V (MAXWELL3D_REG_INDEX H query_get) v = ProcessQueryGet H P2V
  /\ (mode = QueryMode_Write H ->
      ProcessQueryGet H P2V s =
        Ok tt (set_memory (Write32 address (reg H query_sequence s)) s))
  /\ (mode <> QueryMode_Write H ->
      ProcessQueryGet H P2V s = Abort UnimplementedQueryMode s).
Proof.
  intros address mode. split; [apply side_effect_query_get; assumption|].
  unfold ProcessQueryGet, bind, get, modify, ASSERT. fold mode. fold address.
  split; intros Hm.
  - rewrite Hm, Z.eqb_refl. reflexivity.
  - apply Z.eqb_neq in Hm. rewrite Hm. reflexivity.
Qed.

End Query.

(** ** The macro engine *)

Section MacroEngine.

Context (H : Header) (P2V : Z -> Z).

Lemma SubmitMacroCode_uploaded (s : Maxwell3D) (entry : Z) (code : list Z) :
  uploaded_macros (final_state (SubmitMacroCode entry code s))
    !! wrap32 (entry * 2 + MacroRegistersStart) = Some code.
Proof. simpl. apply lookup_insert_eq. Qed.

Lemma CallMacroMethod_unknown (s : Maxwell3D) (method : Z) (parameters : list Z) :
  uploaded_macros s !! method = None ->
  CallMacroMethod H method parameters s = Abort UnknownMacro s.
Proof.
  intros Hup. unfold CallMacroMethod, bind, get, ASSERT.
  rewrite bool_decide_eq_false_2; [reflexivity|].
  rewrite Hup. intros [x Hx]. discriminate.
Qed.

Lemma CallMacroMethod_unimplemented (s : Maxwell3D) (method : Z)
    (parameters : list Z) :
  is_Some (uploaded_macros s !! method) ->
  method_handlers method = None ->
  CallMacroMethod H method parameters s = Abort UnimplementedMacro s.
Proof.
  intros Hup Hh. unfold CallMacroMethod, bind, get, ASSERT.
  rewrite bool_decide_eq_true_2 by assumption. rewrite Hh. reflexivity.
Qed.

Lemma CallMacroMethod_arity (s : Maxwell3D) (method : Z) (parameters : list Z)
    (info : MethodInfo) :
  is_Some (uploaded_macros s !! method) ->
  method_handlers method = Some info ->
  arguments info <> length parameters ->
  CallMacroMethod H method parameters s = Abort MacroArityMismatch s.
Proof.
  intros Hup Hh Har. unfold CallMacroMethod, bind, get, ASSERT.
  rewrite bool_decide_eq_true_2 by assumption. rewrite Hh.
  apply Nat.eqb_neq in Har. rewrite Har. reflexivity.
Qed.

(** The call proper: the handler runs on the engine as it is, the
    invocation recorded, and the pending call is cleared when it returns. *)
Lemma CallMacroMethod_dispatch (s : Maxwell3D) (method : Z) (parameters : list Z)
    (info : MethodInfo) :
  is_Some (uploaded_macros s !! method) ->
  method_handlers method = Some info ->
  arguments info = length parameters ->
  CallMacroMethod H method parameters s =
    match run_handler H (handler info) parameters
            (set_dispatched (fun calls => calls ++ [(method, parameters)]) s)
    with
    | Ok _ s' => Ok tt (set_macro 0 [] s')
    | Abort e s' => Abort e s'
    end.
Proof.
  intros Hup Hh Har. unfold CallMacroMethod, bind, get, ASSERT, modify.
  rewrite bool_decide_eq_true_2 by assumption. rewrite Hh.
  apply Nat.eqb_eq in Har. rewrite Har.
  destruct (run_handler _ _ _ _) as [[] s'|e s']; reflexivity.
Qed.

Lemma CallMacroMethod_clears (s s' : Maxwell3D) (method : Z) (parameters : list Z) :
  CallMacroMethod H method parameters s = Ok tt s' ->
  executing_macro s' = 0 /\ macro_params s' = [].
Proof.
  unfold CallMacroMethod, bind, get, ASSERT, modify.
  destruct (bool_decide _); [|discriminate].
  destruct (method_handlers method) as [info|]; [|discriminate].
  destruct (_ =? _)%nat; [|discriminate].
  destruct (run_handler _ _ _ _) as [[] s1|e s1]; [|discriminate].
  intros [= <-]. split; reflexivity.
Qed.

(** C5: [CallMacroMethod] checks, in this order, that microcode was uploaded
    for the id (UnknownMacro), that the id is in the handler table
    (UnimplementedMacro; microcode is uploaded under the key
    [entry * 2 + MacroRegistersStart]) and that the number of parameters is
    the handler's arity (a contract violation).  A failed check leaves the
    engine as it was, no handler invoked.  When the three checks pass the
    handler runs, once, and when it returns the pending call is cleared. *)
Theorem C5_CallMacroMethod (s : Maxwell3D) (method : Z) (parameters : list Z) :
  (uploaded_macros s !! method = None ->
   CallMacroMethod H method parameters s = Abort UnknownMacro s)
  /\ (forall s0 entry code,
        s = final_state (SubmitMacroCode entry code s0) ->
        method = wrap32 (entry * 2 + MacroRegistersStart) ->
        method_handlers method = None ->
        CallMacroMethod H method parameters s = Abort UnimplementedMacro s)
  /\ (is_Some (uploaded_macros s !! method) ->
      method_handlers method = None ->
      CallMacroMethod H method parameters s = Abort UnimplementedMacro s)
  /\ (forall info,
        is_Some (uploaded_macros s !! method) ->
        method_handlers method = Some info ->
        arguments info <> length parameters ->
        CallMacroMethod H method parameters s = Abort MacroArityMismatch s)
  /\ (forall info,
        is_Some (uploaded_macros s !! method) ->
        method_handlers method = Some info ->
        arguments info = length parameters ->
        CallMacroMethod H method parameters s =
          match run_handler H (handler info) parameters
                  (set_dispatched (fun calls => calls ++ [(method, parameters)]) s)
          with
          | Ok _ s' => Ok tt (set_macro 0 [] s')
          | Abort e s' => Abort e s'
          end)
  /\ (forall s', CallMacroMethod H method parameters s = Ok tt s' ->
        executing_macro s' = 0 /\ macro_params s' = []).
Proof.
  split; [apply CallMacroMethod_unknown|].
  split.
  { intros s0 entry code -> -> Hh. apply CallMacroMethod_unimplemented; [|assumption].
    rewrite SubmitMacroCode_uploaded. eauto. }
  split; [apply CallMacroMethod_unimplemented|].
  split; [apply CallMacroMethod_arity|].
  split; [apply CallMacroMethod_dispatch|].
  intros s'. apply CallMacroMethod_clears.
Qed.

End MacroEngine.

(** ** Texture descriptors *)

Section Descriptors.

Context (H : Header) (P2V : Z -> Z).

Lemma GetTICEntry_supported (s : Maxwell3D) (tic_index : Z) :
  supported_format H (tic_entry_at H P2V s tic_index) ->
  GetTICEntry H P2V tic_index s = Ok (tic_entry_at H P2V s tic_index) s.
Proof.
  intros (Hv & Ht & Hg & Hb & Ha).
  unfold GetTICEntry, bind, get, ASSERT, ret.
  fold (tic_entry_at H P2V s tic_index).
  rewrite Hv, Ht, <- Hg, <- Hb, <- Ha, !Z.eqb_refl. reflexivity.
Qed.

Lemma GetTICEntry_unsupported (s : Maxwell3D) (tic_index : Z) :
  ~ supported_format H (tic_entry_at H P2V s tic_index) ->
  GetTICEntry H P2V tic_index s = Abort UnsupportedTextureFormat s.
Proof.
  intros Hns.
  unfold GetTICEntry, bind, get, ASSERT, ret.
  fold (tic_entry_at H P2V s tic_index).
  set (tic := tic_entry_at H P2V s tic_index) in *.
  destruct (header_version H tic =? _) eqn:Ev; [|reflexivity].
  destruct (texture_type H tic =? _) eqn:Et; [|reflexivity].
  destruct (r_type H tic =? g_type H tic) eqn:Eg; [|reflexivity].
  destruct (r_type H tic =? b_type H tic) eqn:Eb; [|reflexivity].
  destruct (r_type H tic =? a_type H tic) eqn:Ea; [|reflexivity].
  exfalso. apply Hns. unfold supported_format.
  rewrite Z.eqb_eq in *. auto.
Qed.

End Descriptors.

Section Resolver.

Context (H : Header) (HOK : HeaderOK H) (P2V : Z -> Z).

Lemma GetTSCEntry_ok (s : Maxwell3D) (tsc_index : Z) :
  GetTSCEntry H P2V tsc_index s = Ok (tsc_entry_at H P2V s tsc_index) s.
Proof. reflexivity. Qed.

(** A successful descriptor lookup returns a supported descriptor and
    leaves the engine alone. *)
Lemma GetTICEntry_inv (s s' : Maxwell3D) (tic_index : Z) (tic : list Z) :
  GetTICEntry H P2V tic_index s = Ok tic s' ->
  s' = s /\ tic = tic_entry_at H P2V s tic_index /\ supported_format H tic.
Proof.
  intros Hget.
  destruct (decide (supported_format H (tic_entry_at H P2V s tic_index))) as [Hs|Hn].
  - rewrite GetTICEntry_supported in Hget by assumption.
    injection Hget as <- <-. auto.
  - rewrite GetTICEntry_unsupported in Hget by assumption. discriminate.
Qed.

Lemma texture_index (address k : Z) :
  0 <= address -> 0 <= k < 2 ^ 32 ->
  handle_address H address k < 2 ^ 64 ->
  wrap32 (wrap64 (wrap64 (handle_address H address k - address) - TextureInfoOffset)
          / sizeof_TextureHandle H) = k.
Proof.
  intros Ha Hk Hfit. unfold handle_address, TextureInfoOffset in *.
  pose proof (handle_size_pos H HOK) as Hhs.
  assert (0 <= k * sizeof_TextureHandle H) by nia.
  replace (address + 32 + k * sizeof_TextureHandle H - address)
    with (32 + k * sizeof_TextureHandle H) by lia.
  rewrite (wrap64_id (32 + _)) by (unfold u64; lia).
  replace (32 + k * sizeof_TextureHandle H - 32) with (k * sizeof_TextureHandle H) by lia.
  rewrite wrap64_id by (unfold u64; lia).
  rewrite Z.div_mul by lia. apply wrap32_id. exact Hk.
Qed.

(** The loop body at the [k]-th handle. *)
Lemma texture_at_handle (s : Maxwell3D) (address k : Z) :
  0 <= address -> 0 <= k < 2 ^ 32 ->
  handle_address H address k < 2 ^ 64 ->
  texture_at H P2V address (handle_address H address k) s =
    if decide (has_texture H P2V s address k) then
      if decide (supported_format H
                   (tic_entry_at H P2V s (bf_value (tic_id H) (handle_at H P2V s address k))))
      then Ok (resolved_texture H P2V s address k) s
      else Abort UnsupportedTextureFormat s
    else
      Ok (FullTextureInfo.mk k
            (replicate (Z.to_nat (sizeof_TICEntry H)) 0)
            (if bf_value (tsc_id H) (handle_at H P2V s address k) =? 0
             then replicate (Z.to_nat (sizeof_TSCEntry H)) 0
             else tsc_entry_at H P2V s (bf_value (tsc_id H) (handle_at H P2V s address k)))
            false) s.
Proof.
  intros Ha Hk Hfit. unfold texture_at.
  rewrite texture_index by assumption.
  unfold bind at 1. unfold get at 1.
  change (Read32 (memory s) (P2V (handle_address H address k)))
    with (handle_at H P2V s address k).
  set (h := handle_at H P2V s address k).
  unfold has_texture. fold h.
  destruct (decide (bf_value (tic_id H) h <> 0)) as [Hnz|Hz].
  - apply Z.eqb_neq in Hnz. rewrite Hnz. cbn [negb]. unfold bind at 1.
    destruct (decide (supported_format H _)) as [Hs|Hn].
    + rewrite GetTICEntry_supported by assumption.
      unfold resolved_texture. fold h.
      destruct (bf_value (tsc_id H) h =? 0); reflexivity.
    + rewrite GetTICEntry_unsupported by assumption. reflexivity.
  - assert (Hz' : bf_value (tic_id H) h = 0) by lia.
    rewrite Hz'. cbn [Z.eqb negb]. unfold bind, ret.
    destruct (bf_value (tsc_id H) h =? 0); reflexivity.
Qed.

Lemma handle_count_nonneg (size : Z) : 0 <= handle_count H size.
Proof.
  unfold handle_count. pose proof (handle_size_pos H HOK).
  destruct (size <=? TextureInfoOffset) eqn:E; [lia|].
  apply Z.leb_gt in E. apply Z.div_pos; lia.
Qed.

(** The loop test at the [k]-th handle. *)
Lemma handle_in_buffer (address size k : Z) :
  0 <= k ->
  handle_address H address k < address + size <-> k < handle_count H size.
Proof.
  intros Hk. unfold handle_address, handle_count.
  pose proof (handle_size_pos H HOK) as Hhs.
  set (hs := sizeof_TextureHandle H) in *.
  destruct (size <=? TextureInfoOffset) eqn:E.
  - apply Z.leb_le in E. nia.
  - apply Z.leb_gt in E.
    set (d := size - TextureInfoOffset) in *.
    assert (Hd : 0 < d) by lia.
    replace (d + hs - 1) with (d - 1 + 1 * hs) by lia.
    rewrite Z.div_add by lia.
    pose proof (Z.div_mod (d - 1) hs ltac:(lia)) as Hdm.
    pose proof (Z.mod_pos_bound (d - 1) hs Hhs) as Hmod.
    split; intros Hlt.
    + assert (k * hs <= d - 1) by lia.
      assert (k <= (d - 1) / hs) by (apply Z.div_le_lower_bound; lia).
      lia.
    + assert (k <= (d - 1) / hs) by lia.
      assert (hs * k <= hs * ((d - 1) / hs)) by (apply Z.mul_le_mono_nonneg_l; lia).
      lia.
Qed.

Lemma handle_count_u32 (size : Z) : u32 size -> handle_count H size < 2 ^ 32.
Proof.
  intros [Hs0 Hs1]. unfold handle_count.
  pose proof (handle_size_pos H HOK) as Hhs.
  destruct (size <=? TextureInfoOffset) eqn:E; [lia|].
  apply Z.leb_gt in E. unfold TextureInfoOffset in *.
  apply Z.div_lt_upper_bound; [lia|]. nia.
Qed.


(** The loop from the [k]-th handle on, with [m] handles to go. *)
Lemma scan_textures_spec (s : Maxwell3D) (address size : Z) :
  0 <= address -> u32 size ->
  address + TextureInfoOffset + size + sizeof_TextureHandle H <= 2 ^ 64 ->
  forall (m : nat) (k : Z) (acc : list FullTextureInfo.t) (fuel : nat),
  0 <= k -> k + Z.of_nat m = handle_count H size -> (m < fuel)%nat ->
  scan_textures H P2V fuel address (address + size)
    (handle_address H address k) acc s =
  Some (if decide (Forall (resolvable H P2V s address) (seqZ k (Z.of_nat m)))
        then Ok (acc ++ map (resolved_texture H P2V s address)
                          (filter (has_texture H P2V s address) (seqZ k (Z.of_nat m)))) s
        else Abort UnsupportedTextureFormat s).
Proof.
  intros Ha Hsize Hfit.
  pose proof (handle_size_pos H HOK) as Hhs.
  pose proof (handle_count_u32 size Hsize) as Hn32.
  induction m as [|m IH]; intros k acc fuel Hk Hkm Hfuel;
    (destruct fuel as [|fuel]; [lia|]); cbn [scan_textures].
  - assert (Hend : ~ handle_address H address k < address + size).
    { rewrite handle_in_buffer by assumption. lia. }
    apply Z.ltb_nlt in Hend. rewrite Hend.
    change (Z.of_nat 0) with 0. rewrite seqZ_nil by lia.
    rewrite decide_True by constructor. cbn. rewrite app_nil_r. reflexivity.
  - assert (Hin : handle_address H address k < address + size).
    { rewrite handle_in_buffer by assumption. lia. }
    pose proof Hin as Hltb. apply Z.ltb_lt in Hltb. rewrite Hltb.
    unfold TextureInfoOffset in Hfit.
    rewrite texture_at_handle by (try assumption; lia).
    assert (Hnext : wrap64 (handle_address H address k + sizeof_TextureHandle H)
                    = handle_address H address (k + 1)).
    { unfold handle_address in *. unfold TextureInfoOffset in *.
      assert (0 <= k * sizeof_TextureHandle H) by nia.
      rewrite wrap64_id by (unfold u64; lia). lia. }
    rewrite seqZ_cons by lia.
    replace (Z.succ k) with (k + 1) by lia.
    replace (Z.pred (Z.of_nat (S m))) with (Z.of_nat m) by lia.
    rewrite filter_cons.
    destruct (decide (has_texture H P2V s address k)) as [Hhas|Hnot].
    + destruct (decide (supported_format H _)) as [Hsup|Hunsup].
      * cbn [FullTextureInfo.enabled resolved_texture]. rewrite Hnext.
        rewrite IH by lia.
        destruct (decide (Forall _ (seqZ (k + 1) (Z.of_nat m)))) as [Hall|Hnall].
        -- rewrite decide_True.
           ++ cbn [map]. rewrite <- app_assoc. reflexivity.
           ++ constructor; [intros _; exact Hsup | exact Hall].
        -- rewrite decide_False; [reflexivity|].
           intros Hall. apply Forall_cons in Hall. tauto.
      * rewrite decide_False; [reflexivity|].
        intros Hall. apply Forall_cons in Hall. destruct Hall as [Hr _].
        apply Hunsup, Hr, Hhas.
    + cbn [FullTextureInfo.enabled]. rewrite Hnext.
      rewrite IH by lia.
      destruct (decide (Forall _ (seqZ (k + 1) (Z.of_nat m)))) as [Hall|Hnall].
      * rewrite decide_True; [reflexivity|].
        constructor; [intros Hhas; contradiction | exact Hall].
      * rewrite decide_False; [reflexivity|].
        intros Hall. apply Forall_cons in Hall. tauto.
Qed.

End Resolver.

Section StageTextures.

Context (H : Header) (HOK : HeaderOK H) (P2V : Z -> Z).

(** The prologue of [GetStageTextures]: the bind slot the texture handles
    are read from. *)
Lemma GetStageTextures_slot (s : Maxwell3D) (stage : Z) (fuel : nat)
    (shader : ShaderStageInfo.t) (buffer : ConstBufferInfo.t) :
  0 <= stage < MaxShaderStage H ->
  shader_stages s !! Z.to_nat stage = Some shader ->
  0 <= reg H tex_cb_index s ->
  ShaderStageInfo.const_buffers shader !! Z.to_nat (reg H tex_cb_index s) = Some buffer ->
  GetStageTextures H P2V fuel stage s =
    if ConstBufferInfo.enabled buffer && negb (ConstBufferInfo.address buffer =? 0)
    then scan_textures H P2V fuel (ConstBufferInfo.address buffer)
           (wrap64 (ConstBufferInfo.address buffer + ConstBufferInfo.size buffer))
           (wrap64 (ConstBufferInfo.address buffer + TextureInfoOffset)) [] s
    else Some (Abort TextureBufferNotBound s).
Proof.
  intros Hst Hshader Hidx Hbuf.
  unfold GetStageTextures, bind, subscript, at_index, get, ASSERT, ret.
  replace ((0 <=? stage) && (stage <? MaxShaderStage H)) with true
    by (symmetry; apply andb_true_intro; split; [apply Z.leb_le | apply Z.ltb_lt]; lia).
  replace (0 <=? Z.of_nat (Z.to_nat stage)) with true by (symmetry; apply Z.leb_le; lia).
  rewrite Nat2Z.id, Hshader.
  replace (0 <=? reg H tex_cb_index s) with true by (symmetry; apply Z.leb_le; lia).
  rewrite Hbuf.
  destruct (ConstBufferInfo.enabled buffer && _); reflexivity.
Qed.

Lemma stage_textures_enabled (s : Maxwell3D) (address size : Z) :
  Forall (fun texture => FullTextureInfo.enabled texture = true)
         (stage_textures H P2V s address size).
Proof.
  unfold stage_textures. apply Forall_forall. intros x Hx.
  apply list_elem_of_In, in_map_iff in Hx. destruct Hx as (i & <- & _). reflexivity.
Qed.

Lemma stage_textures_index (s : Maxwell3D) (address size : Z) :
  map FullTextureInfo.index (stage_textures H P2V s address size)
  = filter (has_texture H P2V s address) (seqZ 0 (handle_count H size)).
Proof.
  unfold stage_textures. rewrite map_map. cbn [resolved_texture FullTextureInfo.index].
  apply map_id.
Qed.

(** C4, as the code has it.  The bind slot of the stage selected by the
    texture config buffer index register decides: disabled or at address
    zero, the call fails with TextureBufferNotBound.  Otherwise, for a buffer
    that does not wrap around the 64-bit address space, the handles between
    [address + 0x20] and [address + size] are scanned; if the descriptor of
    some handle with a nonzero texture id is not of a supported format the
    call fails with UnsupportedTextureFormat, else it returns, in ascending
    handle order, exactly the handles with a nonzero texture id, each
    enabled and with its position among all scanned handles as index. *)
Theorem C4_GetStageTextures (s : Maxwell3D) (stage : Z)
    (shader : ShaderStageInfo.t) (buffer : ConstBufferInfo.t) :
  0 <= stage < MaxShaderStage H ->
  shader_stages s !! Z.to_nat stage = Some shader ->
  0 <= reg H tex_cb_index s ->
  ShaderStageInfo.const_buffers shader !! Z.to_nat (reg H tex_cb_index s) = Some buffer ->
  let address := ConstBufferInfo.address buffer in
  let size := ConstBufferInfo.size buffer in
  let count := handle_count H size in
  (ConstBufferInfo.enabled buffer = false \/ address = 0 ->
   forall fuel, GetStageTextures H P2V fuel stage s = Some (Abort TextureBufferNotBound s))
  /\ (ConstBufferInfo.enabled buffer = true -> address <> 0 ->
      0 <= address -> u32 size ->
      address + TextureInfoOffset + size + sizeof_TextureHandle H <= 2 ^ 64 ->
      forall fuel, (Z.to_nat count < fuel)%nat ->
      (Forall (resolvable H P2V s address) (seqZ 0 count) ->
       GetStageTextures H P2V fuel stage s = Some (Ok (stage_textures H P2V s address size) s))
      /\ (~ Forall (resolvable H P2V s address) (seqZ 0 count) ->
          GetStageTextures H P2V fuel stage s = Some (Abort UnsupportedTextureFormat s)))
  /\ Forall (fun texture => FullTextureInfo.enabled texture = true)
            (stage_textures H P2V s address size)
  /\ map FullTextureInfo.index (stage_textures H P2V s address size)
     = filter (has_texture H P2V s address) (seqZ 0 count).
Proof.
  intros Hst Hshader Hidx Hbuf address size count.
  split.
  { intros Hunbound fuel.
    rewrite (GetStageTextures_slot s stage fuel shader buffer) by assumption.
    fold address. destruct Hunbound as [-> | ->]; [reflexivity|].
    rewrite andb_false_r. reflexivity. }
  split; [| split; [apply stage_textures_enabled | apply stage_textures_index]].
  intros Hen Hnz Ha Hsize Hfit fuel Hfuel.
  rewrite (GetStageTextures_slot s stage fuel shader buffer) by assumption.
  fold address size. rewrite Hen.
  apply Z.eqb_neq in Hnz. rewrite Hnz. cbn [negb andb].
  pose proof (handle_size_pos H HOK) as Hhs.
  pose proof (handle_count_nonneg H HOK size) as Hn.
  unfold TextureInfoOffset in Hfit. destruct Hsize as [Hs0 Hs1].
  rewrite (wrap64_id (address + size)) by (unfold u64; lia).
  rewrite (wrap64_id (address + TextureInfoOffset))
    by (unfold u64, TextureInfoOffset; lia).
  replace (address + TextureInfoOffset) with (handle_address H address 0)
    by (unfold handle_address; lia).
  rewrite (scan_textures_spec H HOK P2V s address size Ha (conj Hs0 Hs1) Hfit
             (Z.to_nat count) 0 [] fuel) by (fold count; lia).
  rewrite Z2Nat.id by exact Hn. fold count.
  split; intros Hall.
  - rewrite decide_True by assumption. reflexivity.
  - rewrite decide_False by assumption. reflexivity.
Qed.

(** Every texture a successful scan adds comes with a supported descriptor. *)
Lemma scan_textures_supported (address buffer_end : Z) :
  forall (fuel : nat) (current : Z) (acc result : list FullTextureInfo.t)
         (s s' : Maxwell3D),
  Forall (fun texture => supported_format H (FullTextureInfo.tic texture)) acc ->
  scan_textures H P2V fuel address buffer_end current acc s = Some (Ok result s') ->
  Forall (fun texture => supported_format H (FullTextureInfo.tic texture)) result.
Proof.
  induction fuel as [|fuel IH]; intros current acc result s s' Hacc Hscan;
    cbn [scan_textures] in Hscan; [discriminate|].
  destruct (current <? buffer_end).
  2:{ injection Hscan as <- <-. assumption. }
  destruct (texture_at H P2V address current s) as [info s1|e s1] eqn:Hbody;
    [|discriminate].
  apply IH in Hscan; [assumption|].
  destruct (FullTextureInfo.enabled info) eqn:Hen; [|assumption].
  apply Forall_app. split; [assumption|]. constructor; [|constructor].
  unfold texture_at, bind, get, ret in Hbody.
  destruct (negb (bf_value (tic_id H) _ =? 0)) eqn:Htic.
  - destruct (GetTICEntry H P2V _ s) as [tic s2|e s2] eqn:Hget; [|discriminate].
    apply GetTICEntry_inv in Hget. destruct Hget as (-> & _ & Hsup).
    destruct (negb (bf_value (tsc_id H) _ =? 0));
      cbn in Hbody; injection Hbody as <- <-; exact Hsup.
  - destruct (negb (bf_value (tsc_id H) _ =? 0));
      cbn in Hbody; injection Hbody as <- <-; discriminate.
Qed.

(** C8: a texture descriptor is resolved only if it has block-linear
    layout, 2D texture type and one data type for its four colour
    components; it is then returned as guest memory holds it.  A descriptor
    that violates one of the three conditions makes the resolution fail with
    UnsupportedTextureFormat, and so every texture [GetStageTextures]
    returns carries a descriptor that meets them. *)
Theorem C8_supported_descriptors (s : Maxwell3D) (tic_index : Z) :
  let tic := tic_entry_at H P2V s tic_index in
  (supported_format H tic -> GetTICEntry H P2V tic_index s = Ok tic s)
  /\ (header_version H tic <> TICHeaderVersion_BlockLinear H
      \/ texture_type H tic <> TextureType_Texture2D H
      \/ ~ (r_type H tic = g_type H tic /\ r_type H tic = b_type H tic
            /\ r_type H tic = a_type H tic) ->
      GetTICEntry H P2V tic_index s = Abort UnsupportedTextureFormat s)
  /\ (forall fuel stage textures s',
        GetStageTextures H P2V fuel stage s = Some (Ok textures s') ->
        Forall (fun texture => supported_format H (FullTextureInfo.tic texture)) textures).
Proof.
  intros tic. split; [apply GetTICEntry_supported|]. split.
  - intros Hbad. apply GetTICEntry_unsupported. fold tic.
    unfold supported_format. tauto.
  - intros fuel stage textures s' Hget. unfold GetStageTextures in Hget.
    match type of Hget with
    | match ?p with _ => _ end = _ => destruct p as [buffer s1|e s1]; [|discriminate]
    end.
    eapply scan_textures_supported; [|exact Hget]. constructor.
Qed.

End StageTextures.

(** ** Frame conditions *)

Section Frames.

Context {B : Type} (f : Maxwell3D -> B).

Lemma unchanged_ret {A} (a : A) : unchanged f (ret a).
Proof. intros s. reflexivity. Qed.

Lemma unchanged_bind {A C} (m : M A) (k : A -> M C) :
  unchanged f m -> (forall a, unchanged f (k a)) -> unchanged f (bind m k).
Proof.
  intros Hm Hk s. unfold bind. specialize (Hm s).
  destruct (m s) as [a s1|e s1]; simpl in *.
  - rewrite Hk. exact Hm.
  - exact Hm.
Qed.

Lemma unchanged_get {A} (g : Maxwell3D -> A) : unchanged f (get g).
Proof. intros s. reflexivity. Qed.

Lemma unchanged_ASSERT (cond : bool) (e : Error) : unchanged f (ASSERT cond e).
Proof. intros s. unfold ASSERT. destruct cond; reflexivity. Qed.

Lemma unchanged_modify (g : Maxwell3D -> Maxwell3D) :
  (forall s, f (g s) = f s) -> unchanged f (modify g).
Proof. intros Hg s. simpl. apply Hg. Qed.

Lemma unchanged_at_index {A} (l : list A) (i : Z) : unchanged f (at_index l i).
Proof.
  intros s. unfold at_index.
  destruct (0 <=? i); [destruct (l !! Z.to_nat i)|]; reflexivity.
Qed.

Lemma unchanged_subscript (bound i : Z) : unchanged f (subscript bound i).
Proof. intros s. unfold subscript. destruct (_ && _); reflexivity. Qed.

Lemma unchanged_if {A} (c : bool) (m1 m2 : M A) :
  unchanged f m1 -> unchanged f m2 -> unchanged f (if c then m1 else m2).
Proof. destruct c; auto. Qed.

End Frames.

(** Decomposes a frame condition along the structure of a computation; the
    setters that remain are settled by computation. *)
Ltac frame :=
  repeat first
    [ apply unchanged_bind; [|intros ?]
    | apply unchanged_ret
    | apply unchanged_get
    | apply unchanged_ASSERT
    | apply unchanged_at_index
    | apply unchanged_subscript
    | apply unchanged_if
    | apply unchanged_modify; intros ?; reflexivity ].

Section EngineFrames.

Context (H : Header) (P2V : Z -> Z).

Lemma OnEvent_regs (e : Event) : unchanged regs (OnEvent e).
Proof. unfold OnEvent. frame. Qed.

Lemma ProcessCBBind_regs (stage : Z) : unchanged regs (ProcessCBBind H stage).
Proof. unfold ProcessCBBind. frame. Qed.

Lemma DrawArrays_regs : unchanged regs DrawArrays.
Proof. unfold DrawArrays, OnEvent. frame. Qed.

Lemma ProcessQueryGet_regs : unchanged regs (ProcessQueryGet H P2V).
Proof. unfold ProcessQueryGet. frame. Qed.

(** The macro handlers touch registers and shader state, nothing else. *)
Lemma run_handler_frame (h : MacroHandler) (parameters : list Z) :
  unchanged uploaded_macros (run_handler H h parameters)
  /\ unchanged executing_macro (run_handler H h parameters)
  /\ unchanged macro_params (run_handler H h parameters)
  /\ unchanged memory (run_handler H h parameters)
  /\ unchanged debug_context (run_handler H h parameters)
  /\ unchanged rasterizer (run_handler H h parameters)
  /\ unchanged dispatched (run_handler H h parameters).
Proof.
  repeat split; destruct h;
    unfold run_handler, BindTextureInfoBuffer, SetShader, BindStorageBuffer,
      ProcessCBBind; frame.
Qed.

End EngineFrames.

(** ** The write dispatcher *)

Section Dispatcher.

Context (H : Header) (HOK : HeaderOK H) (P2V : Z -> Z).

Lemma bind_ret_unit (m : M unit) (s : Maxwell3D) :
  bind m (fun _ => ret tt) s = m s.
Proof. unfold bind, ret. destruct (m s) as [[] s'|e s']; reflexivity. Qed.

(** [WriteReg] with its assertions spelled out. *)
Lemma WriteReg_unfold (s : Maxwell3D) (method value remaining : Z) :
  WriteReg H P2V method value remaining s =
    if method <? NUM_REGS H then
      if negb (executing_macro s =? 0)
         && negb (method =? wrap32 (executing_macro s + 1))
      then Abort MacroArgumentExpected s
      else if MacroRegistersStart <=? method then
        if (executing_macro s =? 0) && negb (method mod 2 =? 0)
        then Abort MacroStartOnArgument s
        else
          let pending := if executing_macro s =? 0 then method else executing_macro s in
          (if remaining =? 0
           then CallMacroMethod H pending (macro_params s ++ [value])
           else ret tt) (set_macro pending (macro_params s ++ [value]) s)
      else register_write H P2V method value s
    else Abort InvalidRegister s.
Proof.
  unfold WriteReg, register_write.
  unfold bind at 1. unfold ASSERT at 1.
  destruct (method <? NUM_REGS H); [|reflexivity].
  unfold bind at 1. unfold get at 1. unfold bind at 1.
  destruct (executing_macro s =? 0) eqn:Hidle; cbn [negb andb].
  - unfold ret at 1.
    destruct (MacroRegistersStart <=? method); [|reflexivity].
    unfold bind at 1. unfold bind at 1. unfold ASSERT at 1.
    destruct (method mod 2 =? 0); cbn [negb]; [|reflexivity].
    unfold modify at 1. unfold bind at 1. unfold modify at 1.
    destruct (remaining =? 0); reflexivity.
  - unfold ASSERT at 1.
    destruct (method =? wrap32 (executing_macro s + 1)); cbn [negb]; [|reflexivity].
    destruct (MacroRegistersStart <=? method); [|reflexivity].
    unfold bind at 1. unfold ret at 1. unfold bind at 1. unfold modify at 1.
    destruct (remaining =? 0); [|reflexivity].
    unfold bind, get. reflexivity.
Qed.

(** A write below the macro range, no macro call pending. *)
Lemma WriteReg_register (s : Maxwell3D) (method value remaining : Z) :
  method < NUM_REGS H -> method < MacroRegistersStart ->
  executing_macro s = 0 ->
  WriteReg H P2V method value remaining s = register_write H P2V method value s.
Proof.
  intros Hn Hm Hidle. rewrite WriteReg_unfold.
  apply Z.ltb_lt in Hn. apply Z.leb_gt in Hm. rewrite Hn, Hm, Hidle. reflexivity.
Qed.

(** A write below the macro range either fails one of the two initial
    assertions, the engine untouched, or is an ordinary register write. *)
Lemma WriteReg_below_macros (s : Maxwell3D) (method value remaining : Z) :
  method < MacroRegistersStart ->
  WriteReg H P2V method value remaining s = Abort InvalidRegister s
  \/ WriteReg H P2V method value remaining s = Abort MacroArgumentExpected s
  \/ WriteReg H P2V method value remaining s = register_write H P2V method value s.
Proof.
  intros Hm. rewrite WriteReg_unfold. apply Z.leb_gt in Hm. rewrite Hm.
  destruct (method <? NUM_REGS H); [|auto].
  destruct (_ && _); auto.
Qed.



(** Every write into the macro range: the three assertions, then the
    parameter is queued and, on the last one, the macro is called. *)
Lemma WriteReg_macro_range (s : Maxwell3D) (method value remaining : Z) :
  MacroRegistersStart <= method ->
  let pending := if executing_macro s =? 0 then method else executing_macro s in
  (exists e, WriteReg H P2V method value remaining s = Abort e s)
  \/ WriteReg H P2V method value remaining s =
       (if remaining =? 0
        then CallMacroMethod H pending (macro_params s ++ [value])
        else ret tt) (set_macro pending (macro_params s ++ [value]) s).
Proof.
  intros Hm pending. rewrite WriteReg_unfold. apply Z.leb_le in Hm. rewrite Hm.
  destruct (method <? NUM_REGS H); [|eauto].
  destruct (negb _ && _); [eauto|].
  destruct ((executing_macro s =? 0) && _); [eauto|].
  right. reflexivity.
Qed.


Lemma reg_array_regs (s s' : Maxwell3D) (i : Z) :
  regs s' = regs s -> reg_array s' i = reg_array s i.
Proof. intros Hr. unfold reg_array. rewrite Hr. reflexivity. Qed.

(** [ProcessCBData] writes no register but the cursor. *)
Lemma ProcessCBData_other_regs (s : Maxwell3D) (value i : Z) :
  0 <= i -> i <> MAXWELL3D_REG_INDEX H cb_pos ->
  reg_array (final_state (ProcessCBData H P2V value s)) i = reg_array s i.
Proof.
  intros Hi Hne. unfold ProcessCBData, bind, get, ASSERT, modify.
  destruct (negb _); [|reflexivity].
  destruct (_ <=? _); [|reflexivity].
  cbn [final_state]. unfold set_reg.
  rewrite reg_array_set_other; [reflexivity | | assumption | congruence].
  apply (reg_index_range H HOK cb_pos). exact I.
Qed.

(** The side effect of a register write leaves that register alone. *)
Lemma side_effect_keeps_register (s : Maxwell3D) (method value : Z) :
  0 <= method ->
  reg_array (final_state (side_effect H P2V method value s)) method
  = reg_array s method.
Proof.
  intros Hm. unfold side_effect.
  destruct (_ || _).
  { apply reg_array_regs.
    apply (unchanged_bind regs); [apply unchanged_get | intros; apply unchanged_ASSERT]. }
  destruct (existsb _ _) eqn:Hdata.
  { apply existsb_exists in Hdata. destruct Hdata as (i & Hin & Hi).
    apply in_seq in Hin. apply Z.eqb_eq in Hi.
    apply ProcessCBData_other_regs; [assumption|].
    rewrite Hi. intros Heq.
    apply (reg_index_inj H HOK) in Heq; [discriminate | simpl; lia | exact I]. }
  repeat (destruct (method =? _);
          [apply reg_array_regs;
           first [ apply ProcessCBBind_regs | apply DrawArrays_regs
                 | apply ProcessQueryGet_regs ] |]).
  reflexivity.
Qed.

Lemma register_write_readback (s : Maxwell3D) (method value : Z) :
  0 <= method < Z.of_nat (length (regs s)) ->
  reg_array (final_state (register_write H P2V method value s)) method = value.
Proof.
  intros Hm. unfold register_write.
  unfold bind at 1. unfold OnEvent at 1. unfold modify at 1.
  unfold bind at 1. unfold modify at 1.
  set (s1 := set_reg_array method value _).
  assert (Hs1 : reg_array s1 method = value).
  { unfold s1. apply reg_array_set_same. exact Hm. }
  pose proof (side_effect_keeps_register s1 method value (proj1 Hm)) as Hside.
  unfold bind.
  destruct (side_effect H P2V method value s1) as [[] s2|e s2]; cbn in *;
    rewrite <- Hs1, <- Hside; reflexivity.
Qed.

(** A write below the macro range to a register that exists is rejected
    for a pending macro call, the engine untouched, or is an ordinary
    register write. *)
Lemma WriteReg_existing_register (s : Maxwell3D) (method value remaining : Z) :
  method < NUM_REGS H -> method < MacroRegistersStart ->
  WriteReg H P2V method value remaining s = Abort MacroArgumentExpected s
  \/ WriteReg H P2V method value remaining s = register_write H P2V method value s.
Proof.
  intros Hn Hm. rewrite WriteReg_unfold.
  apply Z.ltb_lt in Hn. apply Z.leb_gt in Hm. rewrite Hn, Hm.
  destruct (_ && _); auto.
Qed.

(** C6: a write to a register below the macro range stores the value, and
    no side effect of the table overwrites it.  When the write returns, the
    register reads back the value written.  More is true: unless the write
    is rejected because a macro call is pending, the register holds the
    value in the state the write ends in, also when its side effect
    aborts; with no macro call pending the write is never rejected. *)
Theorem C6_register_readback (s : Maxwell3D) (id v remaining : Z) :
  state_ok H s ->
  0 <= id < MacroRegistersStart -> id < NUM_REGS H ->
  let result := WriteReg H P2V id v remaining s in
  (forall s', result = Ok tt s' -> reg_array s' id = v)
  /\ (result = Abort MacroArgumentExpected s
      \/ reg_array (final_state result) id = v)
  /\ (executing_macro s = 0 -> reg_array (final_state result) id = v).
Proof.
  intros Hok Hid Hn result. subst result.
  assert (Hin : 0 <= id < Z.of_nat (length (regs s))).
  { rewrite (regs_length H s Hok). lia. }
  pose proof (register_write_readback s id v Hin) as Hread.
  split; [| split].
  - intros s' Hw.
    destruct (WriteReg_existing_register s id v remaining Hn (proj2 Hid)) as [Ha|Hb].
    + rewrite Hw in Ha. discriminate.
    + rewrite <- Hb, Hw in Hread. exact Hread.
  - destruct (WriteReg_existing_register s id v remaining Hn (proj2 Hid)) as [Ha|Hb].
    + left. exact Ha.
    + right. rewrite Hb. exact Hread.
  - intros Hidle. rewrite WriteReg_register by (assumption || lia). exact Hread.
Qed.

End Dispatcher.

(** ** Macro calls through the dispatcher *)

Section MacroCalls.

Context (H : Header) (HOK : HeaderOK H) (P2V : Z -> Z).

(** [CallMacroMethod] raises no debug event, writes no guest memory and
    draws nothing. *)
Lemma CallMacroMethod_frame (method : Z) (parameters : list Z) :
  unchanged debug_context (CallMacroMethod H method parameters)
  /\ unchanged memory (CallMacroMethod H method parameters)
  /\ unchanged rasterizer (CallMacroMethod H method parameters).
Proof.
  unfold CallMacroMethod.
  destruct (method_handlers method) as [info|];
    [destruct (run_handler_frame H (handler info) parameters)
       as (_ & _ & _ & Hm & Hd & Hr & _)|];
    repeat split; frame; assumption.
Qed.

(** C10, as the code has it.  A write into the macro range never stores
    its value in the register file, raises no command-loaded or
    command-processed event and applies no entry of the side-effect table:
    it fails an assertion with the engine untouched, or queues the value as
    a macro parameter.  Unless it is the last write of the call
    ([remaining = 0]) nothing but the pending macro state changes, every
    register keeps its value.  The last write calls the macro on the queued
    state, and then the registers change as the handler changes them. *)
Theorem C10_macro_range_write (s : Maxwell3D) (id v remaining : Z) :
  MacroRegistersStart <= id ->
  let pending := if executing_macro s =? 0 then id else executing_macro s in
  let queued := set_macro pending (macro_params s ++ [v]) s in
  let result := WriteReg H P2V id v remaining s in
  regs queued = regs s
  /\ debug_context (final_state result) = debug_context s
  /\ memory (final_state result) = memory s
  /\ rasterizer (final_state result) = rasterizer s
  /\ (remaining <> 0 ->
      result = Ok tt queued \/ exists e, result = Abort e s)
  /\ (remaining <> 0 ->
      regs (final_state result) = regs s
      /\ shader_programs (final_state result) = shader_programs s
      /\ shader_stages (final_state result) = shader_stages s
      /\ dispatched (final_state result) = dispatched s)
  /\ (remaining = 0 ->
      result = CallMacroMethod H pending (macro_params s ++ [v]) queued
      \/ exists e, result = Abort e s).
Proof.
  intros Hid pending queued result.
  pose proof (WriteReg_macro_range H P2V s id v remaining Hid) as Hcases.
  cbv zeta in Hcases. fold pending queued result in Hcases.
  destruct (CallMacroMethod_frame pending (macro_params s ++ [v])) as (Hd & Hm & Hr).
  split; [reflexivity|].
  destruct Hcases as [[e He]|Hrun].
  { rewrite He. cbn [final_state]. repeat split; eauto. }
  rewrite Hrun.
  destruct (Z.eq_dec remaining 0) as [->|Hrem].
  - cbn [Z.eqb].
    split; [rewrite Hd; reflexivity|].
    split; [rewrite Hm; reflexivity|].
    split; [rewrite Hr; reflexivity|].
    split; [intros Hn; contradiction|].
    split; [intros Hn; contradiction|].
    intros _. left. reflexivity.
  - pose proof Hrem as Hb. apply Z.eqb_neq in Hb. rewrite Hb. cbn.
    repeat split; auto. intros Hz. contradiction.
Qed.





End MacroCalls.

(** ** The macro handlers *)

Section Handlers.

Context (H : Header) (HOK : HeaderOK H).

(** Splitting a 64-bit address into its two registers and joining them
    again gives the address back. *)
Lemma join_split_address (x : Z) :
  u64 x ->
  join_address (wrap32 (Z.shiftr x 32)) (wrap32 (Z.land x 0xFFFFFFFF)) = x.
Proof.
  intros [Hx0 Hx1]. unfold join_address.
  assert (Hhigh : u32 (Z.shiftr x 32)).
  { rewrite Z.shiftr_div_pow2 by lia. split.
    - apply Z.div_pos; lia.
    - apply Z.div_lt_upper_bound; lia. }
  assert (Hlow : u32 (Z.land x 0xFFFFFFFF)).
  { change 0xFFFFFFFF with (Z.ones 32). rewrite Z.land_ones by lia.
    apply Z.mod_pos_bound. lia. }
  rewrite !wrap32_id by assumption.
  assert (Hsh : Z.shiftl (Z.shiftr x 32) 32 = Z.ldiff x (Z.ones 32)).
  { symmetry. apply Z.ldiff_ones_r. lia. }
  rewrite wrap64_id.
  - rewrite Hsh. change 0xFFFFFFFF with (Z.ones 32). apply Z.lor_ldiff_and.
  - rewrite Z.shiftl_mul_pow2, Z.shiftr_div_pow2 by lia.
    pose proof (Z.mul_div_le x (2 ^ 32) ltac:(lia)).
    assert (0 <= x / 2 ^ 32) by (apply Z.div_pos; lia).
    unfold u64. lia.
Qed.

Lemma shiftl8_u64 (a : Z) : u32 a -> u64 (Z.shiftl a 8).
Proof. intros [H0 H1]. rewrite Z.shiftl_mul_pow2 by lia. unfold u64. lia. Qed.

(** C9, as the code has it: for a valid stage, [BindTextureInfoBuffer]
    copies the stage's texture-info-buffer size register into the active
    constant-buffer size, and sets the active constant-buffer address to the
    stage's texture-info-buffer address register shifted left by 8 bits (the
    register holds the address in units of 256 bytes), high word and low
    word in their two registers. *)
Theorem C9_BindTextureInfoBuffer (s : Maxwell3D) (stage : Z) :
  state_ok H s -> 0 <= stage < MaxShaderStage H ->
  let st := Z.to_nat stage in
  let address := Z.shiftl (reg H (tex_info_address st) s) 8 in
  exists s', BindTextureInfoBuffer H [stage] s = Ok tt s'
    /\ reg H cb_size s' = reg H (tex_info_size st) s
    /\ BufferAddress H s' = address
    /\ reg H cb_address_high s' = Z.shiftr address 32
    /\ reg H cb_address_low s' = Z.land address 0xFFFFFFFF.
Proof.
  intros Hok Hst st address.
  pose proof (regs_length H s Hok) as Hlen.
  pose proof (reg_array_u32 s (MAXWELL3D_REG_INDEX H (tex_info_address st))
                (regs_u32 H s Hok)) as Ha.
  fold (reg H (tex_info_address st) s) in Ha.
  pose proof (shiftl8_u64 _ Ha) as Ha64. fold address in Ha64.
  unfold BindTextureInfoBuffer, bind, subscript, get, modify.
  change (at_index [stage] 0 s) with (Ok stage s). cbv iota beta.
  replace ((0 <=? stage) && (stage <? MaxShaderStage H)) with true
    by (symmetry; apply andb_true_intro; split; [apply Z.leb_le | apply Z.ltb_lt]; lia).
  fold st. fold address. rewrite (wrap64_id _ Ha64).
  eexists. split; [reflexivity|].
  assert (Hhigh : u32 (Z.shiftr address 32)).
  { destruct Ha64. rewrite Z.shiftr_div_pow2 by lia. split.
    - apply Z.div_pos; lia.
    - apply Z.div_lt_upper_bound; lia. }
  assert (Hlow : u32 (Z.land address 0xFFFFFFFF)).
  { change 0xFFFFFFFF with (Z.ones 32). rewrite Z.land_ones by lia.
    apply Z.mod_pos_bound. lia. }
  assert (Hjoin := join_split_address address Ha64).
  rewrite !wrap32_id in * by assumption.
  set (s1 := set_reg H cb_size _ s).
  set (s2 := set_reg H cb_address_high _ s1).
  assert (Hl1 : Z.of_nat (length (regs s1)) = NUM_REGS H)
    by (unfold s1; simpl; rewrite length_insert; assumption).
  assert (Hl2 : Z.of_nat (length (regs s2)) = NUM_REGS H)
    by (unfold s2; simpl; rewrite length_insert; assumption).
  assert (Hhi : reg H cb_address_high (set_reg H cb_address_low (Z.land address 0xFFFFFFFF) s2)
                = Z.shiftr address 32).
  { rewrite (reg_set_other H HOK) by (simpl; auto; discriminate).
    unfold s2. apply (reg_set_same H HOK); simpl; auto. }
  assert (Hlo : reg H cb_address_low (set_reg H cb_address_low (Z.land address 0xFFFFFFFF) s2)
                = Z.land address 0xFFFFFFFF).
  { apply (reg_set_same H HOK); simpl; auto. }
  split; [| split; [| split; assumption]].
  - unfold s2. rewrite !(reg_set_other H HOK) by (simpl; auto; discriminate).
    unfold s1. apply (reg_set_same H HOK); simpl; auto.
  - unfold BufferAddress. rewrite Hhi, Hlo. exact Hjoin.
Qed.

End Handlers.

(** ** Bit fields *)

Section BitFields.

Lemma bf_mask_spec (f : BitField) (i : Z) :
  bf_ok f -> 0 <= i ->
  Z.testbit (bf_mask f) i = (position f <=? i) && (i <? position f + bits f).
Proof.
  intros (Hp & Hb & Hfit) Hi. unfold bf_mask.
  rewrite Z.shiftl_spec by assumption.
  destruct (Z.leb_spec (position f) i) as [Hle|Hlt]; cbn [andb].
  - rewrite Z.testbit_ones by lia.
    destruct (Z.ltb_spec (i - position f) (bits f)), (Z.ltb_spec i (position f + bits f));
      destruct (Z.leb_spec 0 (i - position f)); try reflexivity; lia.
  - apply Z.testbit_neg_r. lia.
Qed.

Lemma bf_assign_spec (f : BitField) (val x i : Z) :
  bf_ok f -> 0 <= i ->
  Z.testbit (bf_assign f val x) i =
    if (position f <=? i) && (i <? position f + bits f)
    then Z.testbit val (i - position f)
    else Z.testbit x i && (i <? 32).
Proof.
  intros Hok Hi. unfold bf_assign.
  rewrite Z.lor_spec, !Z.land_spec, Z.lnot_spec, Z.shiftl_spec by assumption.
  rewrite bf_mask_spec by assumption.
  rewrite Z.testbit_ones by lia.
  destruct Hok as (Hp & Hb & Hfit).
  destruct ((position f <=? i) && (i <? position f + bits f)) eqn:Hin; cbn.
  - rewrite andb_false_r, andb_true_r. reflexivity.
  - rewrite andb_false_r, orb_false_r.
    destruct (Z.leb_spec 0 i); [reflexivity | lia].
Qed.

Lemma bf_value_spec (f : BitField) (x j : Z) :
  bf_ok f -> 0 <= j ->
  Z.testbit (bf_value f x) j = Z.testbit x (j + position f) && (j <? bits f).
Proof.
  intros Hok Hj. pose proof Hok as (Hp & Hb & Hfit). unfold bf_value.
  rewrite Z.shiftr_spec, Z.land_spec by assumption.
  rewrite bf_mask_spec by (assumption || lia).
  f_equal.
  destruct (Z.leb_spec (position f) (j + position f)),
           (Z.ltb_spec (j + position f) (position f + bits f)),
           (Z.ltb_spec j (bits f)); cbn; try reflexivity; lia.
Qed.

(** Reading a field back after assigning it. *)
Lemma bf_value_assign_same (f : BitField) (val x : Z) :
  bf_ok f -> bf_value f (bf_assign f val x) = Z.land val (Z.ones (bits f)).
Proof.
  intros Hok. pose proof Hok as (Hp & Hb & Hfit).
  apply Z.bits_inj'. intros j Hj.
  rewrite bf_value_spec, bf_assign_spec, Z.land_spec by (assumption || lia).
  rewrite Z.testbit_ones by lia.
  destruct (Z.ltb_spec j (bits f)) as [Hlt|Hge].
  - replace ((position f <=? j + position f) && (j + position f <? position f + bits f))
      with true by (symmetry; apply andb_true_intro; split;
                    [apply Z.leb_le | apply Z.ltb_lt]; lia).
    replace (j + position f - position f) with j by lia.
    destruct (Z.leb_spec 0 j); [|lia]. cbn. reflexivity.
  - rewrite !andb_false_r. reflexivity.
Qed.

(** Assigning one field leaves a disjoint field of the same word alone. *)
Lemma bf_value_assign_other (f g : BitField) (val x : Z) :
  bf_ok f -> bf_ok g -> bf_disjoint f g ->
  bf_value f (bf_assign g val x) = bf_value f x.
Proof.
  intros Hf Hg Hdis. pose proof Hf as (Hp & Hb & Hfit).
  apply Z.bits_inj'. intros j Hj.
  rewrite !bf_value_spec, bf_assign_spec by (assumption || lia).
  destruct (Z.ltb_spec j (bits f)) as [Hlt|Hge]; [|rewrite !andb_false_r; reflexivity].
  replace ((position g <=? j + position f) && (j + position f <? position g + bits g))
    with false.
  - replace (j + position f <? 32) with true by (symmetry; apply Z.ltb_lt; lia).
    rewrite andb_true_r. reflexivity.
  - symmetry. apply andb_false_iff. unfold bf_disjoint in Hdis.
    destruct Hdis; [left; apply Z.leb_gt | right; apply Z.ltb_ge]; lia.
Qed.

Lemma bf_assign_u32 (f : BitField) (val x : Z) :
  bf_ok f -> 0 <= val -> 0 <= x -> u32 (bf_assign f val x).
Proof.
  intros Hok Hval Hx. pose proof Hok as (Hp & Hb & Hfit).
  assert (Hnn : 0 <= bf_assign f val x).
  { unfold bf_assign. apply Z.lor_nonneg. split; apply Z.land_nonneg.
    - left. assumption.
    - left. apply Z.shiftl_nonneg. assumption. }
  split; [assumption|].
  destruct (Z.eq_dec (bf_assign f val x) 0) as [->|Hnz]; [lia|].
  apply Z.log2_lt_pow2; [lia|].
  destruct (Z_lt_dec (Z.log2 (bf_assign f val x)) 32) as [|Hge]; [assumption|].
  exfalso.
  pose proof (Z.bit_log2 (bf_assign f val x) ltac:(lia)) as Hbit.
  rewrite bf_assign_spec in Hbit by (assumption || apply Z.log2_nonneg).
  replace ((position f <=? Z.log2 (bf_assign f val x))
           && (Z.log2 (bf_assign f val x) <? position f + bits f)) with false in Hbit
    by (symmetry; apply andb_false_iff; right; apply Z.ltb_ge; lia).
  replace (Z.log2 (bf_assign f val x) <? 32) with false in Hbit
    by (symmetry; apply Z.ltb_ge; lia).
  rewrite andb_false_r in Hbit. discriminate.
Qed.

End BitFields.

(** ** The shader-bind handler *)

Section SetShaderHandler.

Context (H : Header) (HOK : HeaderOK H).

Lemma land_one_ones (n : Z) : 0 < n -> Z.land 1 (Z.ones n) = 1.
Proof.
  intros Hn. rewrite Z.land_ones by lia. apply Z.mod_small.
  pose proof (Z.pow_le_mono_r 2 1 n ltac:(lia) ltac:(lia)). lia.
Qed.

(** Settles that the register file keeps its length under the setters. *)
Ltac regs_length :=
  cbn [regs set_reg set_reg_array set_regs set_shader_programs set_shader_stages
       set_memory];
  unfold set_reg, set_reg_array; cbn [regs set_regs];
  rewrite ?length_insert; assumption.

(** What [ProcessCBBind] stores, for a stage whose bind-config register
    names slot [slot]. *)
Lemma ProcessCBBind_binds (s : Maxwell3D) (stage : Z) (slot : Z) :
  state_ok H s -> 0 <= stage < MaxShaderStage H ->
  bf_value (cb_bind_index H) (reg H (cb_bind_raw_config (Z.to_nat stage)) s) = slot ->
  0 <= slot < MaxConstBuffers H ->
  exists s' shader,
    ProcessCBBind H stage s = Ok tt s'
    /\ regs s' = regs s
    /\ shader_programs s' = shader_programs s
    /\ shader_stages s' !! Z.to_nat stage = Some shader
    /\ ShaderStageInfo.const_buffers shader !! Z.to_nat slot =
         Some (ConstBufferInfo.mk (BufferAddress H s) slot (reg H cb_size s)
                 (negb (bf_value (cb_bind_valid H)
                          (reg H (cb_bind_raw_config (Z.to_nat stage)) s) =? 0))).
Proof.
  intros Hok Hst Hslot Hrange.
  unfold ProcessCBBind, bind, subscript, get, modify.
  replace ((0 <=? stage) && (stage <? MaxShaderStage H)) with true
    by (symmetry; apply andb_true_intro; split; [apply Z.leb_le | apply Z.ltb_lt]; lia).
  rewrite Hslot.
  replace ((0 <=? slot) && (slot <? MaxConstBuffers H)) with true
    by (symmetry; apply andb_true_intro; split; [apply Z.leb_le | apply Z.ltb_lt]; lia).
  destruct (lookup_lt_is_Some_2 (shader_stages s) (Z.to_nat stage)) as [shader Hshader].
  { pose proof (shader_stages_length H s Hok). lia. }
  pose proof (const_buffers_length H s Hok) as Hall.
  pose proof (Forall_lookup_1 _ _ _ _ Hall Hshader) as Hlen. cbn beta in Hlen.
  eexists. eexists. split; [reflexivity|].
  cbn [regs shader_programs shader_stages set_shader_stages].
  split; [reflexivity|]. split; [reflexivity|].
  split.
  - rewrite list_lookup_alter_eq, Hshader. reflexivity.
  - cbn [ShaderStageInfo.const_buffers].
    apply list_lookup_insert_eq. lia.
Qed.

(** What [SetShader] does on valid arguments.  The address bound is the
    32-bit shift of the fifth parameter. *)
Lemma SetShader_binds (s : Maxwell3D) (p x off stage h : Z) :
  state_ok H s ->
  0 <= p < MaxShaderProgram H -> 0 <= stage < MaxShaderStage H ->
  exists s' shader,
    SetShader H [p; x; off; stage; h] s = Ok tt s'
    /\ shader_programs s' !! Z.to_nat p = Some (ShaderProgramInfo.mk stage p off)
    /\ shader_stages s' !! Z.to_nat stage = Some shader
    /\ ShaderStageInfo.const_buffers shader !! 1%nat =
         Some (ConstBufferInfo.mk (wrap32 (Z.shiftl h 8)) 1 0x10000 true)
    /\ bf_value (cb_bind_valid H) (reg H (cb_bind_raw_config (Z.to_nat stage)) s') = 1
    /\ bf_value (cb_bind_index H) (reg H (cb_bind_raw_config (Z.to_nat stage)) s') = 1.
Proof.
  intros Hok Hp Hst.
  pose proof (regs_length H s Hok) as Hlen.
  pose proof (cb_bind_valid_ok H HOK) as Hvalid.
  pose proof (cb_bind_index_ok H HOK) as Hindex.
  pose proof (cb_bind_fields_disjoint H HOK) as Hdis.
  pose proof (const_buffer_one H HOK) as Hone.
  unfold SetShader.
  unfold bind at 1. change (at_index [p; x; off; stage; h] 0 s) with (Ok p s). cbv iota beta.
  unfold bind at 1. change (at_index [p; x; off; stage; h] 2 s) with (Ok off s). cbv iota beta.
  unfold bind at 1. change (at_index [p; x; off; stage; h] 3 s) with (Ok stage s). cbv iota beta.
  unfold bind at 1. change (at_index [p; x; off; stage; h] 4 s) with (Ok h s). cbv iota beta zeta.
  unfold bind at 1. unfold subscript at 1.
  replace ((0 <=? p) && (p <? MaxShaderProgram H)) with true
    by (symmetry; apply andb_true_intro; split; [apply Z.leb_le | apply Z.ltb_lt]; lia).
  do 5 (unfold bind at 1; unfold modify at 1).
  unfold bind at 1. unfold subscript at 1.
  replace ((0 <=? stage) && (stage <? MaxShaderStage H)) with true
    by (symmetry; apply andb_true_intro; split; [apply Z.leb_le | apply Z.ltb_lt]; lia).
  do 2 (unfold bind at 1; unfold modify at 1).
  set (pn := Z.to_nat p). set (st := Z.to_nat stage).
  set (cb := wrap32 (Z.shiftl h 8)).
  assert (Hcb : u64 cb) by (apply u32_u64, wrap32_u32).
  assert (Hvp : valid_reg H (shader_start_id pn)) by (simpl; lia).
  assert (Hvs : valid_reg H (cb_bind_raw_config st)) by (simpl; lia).
  set (s1 := set_shader_programs _ s).
  set (s2 := set_reg H (shader_start_id pn) _ s1).
  set (s3 := set_reg H cb_size _ s2).
  set (s4 := set_reg H cb_address_high _ s3).
  set (s5 := set_reg H cb_address_low _ s4).
  set (s6 := set_reg H (cb_bind_raw_config st) _ s5).
  set (s7 := set_reg H (cb_bind_raw_config st) _ s6).
  assert (Hl5 : Z.of_nat (length (regs s5)) = NUM_REGS H)
    by (unfold s5, s4, s3, s2, s1; regs_length).
  assert (Hl6 : Z.of_nat (length (regs s6)) = NUM_REGS H)
    by (unfold s6; regs_length).
  assert (Hu5 : Forall u32 (regs s5)).
  { unfold s5, s4, s3, s2, s1, set_reg, set_reg_array. cbn [regs set_regs set_shader_programs].
    repeat apply Forall_insert; try apply wrap32_u32.
    - apply (regs_u32 H s Hok).
    - unfold u32. lia. }
  (* the bind-config register after the two assignments *)
  assert (Hr6 : reg H (cb_bind_raw_config st) s6
                = bf_assign (cb_bind_valid H) 1 (reg H (cb_bind_raw_config st) s5)).
  { unfold s6. apply (reg_set_same H HOK); assumption. }
  assert (Hr7 : reg H (cb_bind_raw_config st) s7
                = bf_assign (cb_bind_index H) 1 (reg H (cb_bind_raw_config st) s6)).
  { unfold s7. apply (reg_set_same H HOK); assumption. }
  assert (Hidx : bf_value (cb_bind_index H) (reg H (cb_bind_raw_config st) s7) = 1).
  { rewrite Hr7, bf_value_assign_same by assumption.
    apply land_one_ones. destruct Hindex as (_ & ? & _). assumption. }
  assert (Hval : bf_value (cb_bind_valid H) (reg H (cb_bind_raw_config st) s7) = 1).
  { rewrite Hr7, bf_value_assign_other, Hr6, bf_value_assign_same by assumption.
    apply land_one_ones. destruct Hvalid as (_ & ? & _). assumption. }
  (* the active constant buffer *)
  assert (Hsize : reg H cb_size s7 = 0x10000).
  { unfold s7, s6, s5, s4.
    rewrite !(reg_set_other H HOK) by (simpl; auto; discriminate).
    unfold s3. apply (reg_set_same H HOK); [|exact I].
    unfold s2, s1; regs_length. }
  assert (Haddr : BufferAddress H s7 = cb).
  { unfold BufferAddress, s7, s6.
    rewrite !(reg_set_other H HOK _ _ (cb_bind_raw_config st))
      by (simpl; auto; discriminate).
    unfold s5 at 1. rewrite (reg_set_other H HOK) by (simpl; auto; discriminate).
    unfold s4 at 1. rewrite (reg_set_same H HOK);
      [| unfold s3, s2, s1; regs_length | exact I].
    unfold s5. rewrite (reg_set_same H HOK);
      [| unfold s4, s3, s2, s1; regs_length | exact I].
    apply join_split_address. exact Hcb. }
  assert (Hok7 : state_ok H s7).
  { destruct Hok as [Hl Hu Hpl Hsl Hcl].
    assert (Hu6 : Forall u32 (regs s6)).
    { unfold s6, set_reg, set_reg_array. cbn [regs set_regs].
      apply Forall_insert; [assumption|].
      apply bf_assign_u32; [assumption | lia |].
      apply (reg_array_u32 s5 _ Hu5). }
    constructor.
    - unfold s7; regs_length.
    - unfold s7, set_reg, set_reg_array. cbn [regs set_regs].
      apply Forall_insert; [assumption|].
      apply bf_assign_u32; [assumption | lia |].
      apply (reg_array_u32 s6 _ Hu6).
    - cbn. rewrite length_insert. assumption.
    - assumption.
    - assumption. }
  destruct (ProcessCBBind_binds s7 stage 1 Hok7 Hst Hidx ltac:(lia))
    as (s' & shader & Hrun & Hregs & Hprogs & Hshader & Hslot).
  exists s', shader. split; [exact Hrun|].
  fold st in Hslot. rewrite Hval, Hsize, Haddr in Hslot.
  split.
  { rewrite Hprogs. cbn. apply list_lookup_insert_eq.
    pose proof (shader_programs_length H s Hok). lia. }
  split; [exact Hshader|]. split; [exact Hslot|].
  unfold reg, reg_array in *. rewrite Hregs. split; assumption.
Qed.

End SetShaderHandler.

(** ** The upstream declarations are well formed *)

Lemma state_okb_sound (H : Header) (s : Maxwell3D) :
  state_okb H s = true -> state_ok H s.
Proof.
  unfold state_okb. rewrite !andb_true_iff.
  intros ((((Hl & Hu) & Hp) & Hs) & Hc).
  constructor.
  - apply Z.eqb_eq. assumption.
  - apply Forall_forall. intros x Hx.
    rewrite forallb_forall in Hu. apply list_elem_of_In in Hx.
    specialize (Hu x Hx). apply andb_true_iff in Hu. destruct Hu as [H0 H1].
    apply Z.leb_le in H0. apply Z.ltb_lt in H1. split; assumption.
  - apply Z.eqb_eq. assumption.
  - apply Z.eqb_eq. assumption.
  - apply Forall_forall. intros x Hx.
    rewrite forallb_forall in Hc. apply list_elem_of_In in Hx.
    apply Z.eqb_eq. apply Hc. assumption.
Qed.

Lemma Reference_all_regs_complete (r : Reg) :
  valid_reg Reference.header r -> r ∈ Reference.all_regs.
Proof.
  intros Hr.
  destruct r as [| | | | | |i|st| | | | | | | |st|st|p| | | |]; cbn in Hr;
    try (apply (bool_decide_unpack _); vm_compute; exact I).
  - do 16 (destruct i as [|i]; [apply (bool_decide_unpack _); vm_compute; exact I|]). lia.
  - do 5 (destruct st as [|st]; [apply (bool_decide_unpack _); vm_compute; exact I|]). lia.
  - do 5 (destruct st as [|st]; [apply (bool_decide_unpack _); vm_compute; exact I|]). lia.
  - do 5 (destruct st as [|st]; [apply (bool_decide_unpack _); vm_compute; exact I|]). lia.
  - do 6 (destruct p as [|p]; [apply (bool_decide_unpack _); vm_compute; exact I|]). lia.
Qed.

Lemma Reference_header_ok : HeaderOK Reference.header.
Proof.
  constructor.
  - intros a b Ha Hb.
    apply Reference_all_regs_complete in Ha, Hb.
    assert (Hall : Forall (fun a => Forall (fun b =>
                     Reference.REG_INDEX a = Reference.REG_INDEX b -> a = b)
                   Reference.all_regs) Reference.all_regs).
    { apply (bool_decide_unpack _). vm_compute. exact I. }
    rewrite Forall_forall in Hall. specialize (Hall a Ha).
    rewrite Forall_forall in Hall. exact (Hall b Hb).
  - intros a Ha. apply Reference_all_regs_complete in Ha.
    assert (Hall : Forall (fun a => 0 <= Reference.REG_INDEX a < 0xE36)
                     Reference.all_regs).
    { apply (bool_decide_unpack _). vm_compute. exact I. }
    rewrite Forall_forall in Hall. exact (Hall a Ha).
  - unfold bf_ok. cbn. lia.
  - unfold bf_ok. cbn. lia.
  - unfold bf_disjoint. cbn. lia.
  - cbn. lia.
  - cbn. lia.
  - cbn. lia.
  - cbn. lia.
Qed.


(** ** The theorems at concrete engines *)

Section Runs.

Import Reference.

Lemma with_macros_ok : state_ok header with_macros.
Proof. apply state_okb_sound. vm_compute. reflexivity. Qed.


Lemma const_buffer_of_one_word_ok : state_ok header const_buffer_of_one_word.
Proof. apply state_okb_sound. vm_compute. reflexivity. Qed.

Lemma C3_streamed_write_witness :
  exists s1,
    ProcessCBData header identity_map 7 const_buffer_of_one_word = Ok tt s1
    /\ reg header cb_pos s1 = 4
    /\ forall v2, ProcessCBData header identity_map v2 s1 = Abort ConstBufferOverflow s1.
Proof.
  pose proof (C3_streamed_write header Reference_header_ok identity_map const_buffer_of_one_word 7
                const_buffer_of_one_word_ok) as Hc.
  cbv zeta in Hc. destruct Hc as (_ & _ & _ & _ & _ & _ & Hlast).
  apply Hlast; vm_compute; congruence.
Defined.

Lemma one_texture_slot :
  shader_stages one_texture !! Z.to_nat 4 = Some (fragment_shader one_texture)
  /\ ShaderStageInfo.const_buffers (fragment_shader one_texture)
       !! Z.to_nat (reg header tex_cb_index one_texture)
     = Some (tex_info_buffer one_texture).
Proof. split; vm_compute; reflexivity. Qed.

Lemma C4_GetStageTextures_witness :
  GetStageTextures header identity_map 3 4 one_texture
  = Some (Ok (stage_textures header identity_map one_texture 0x1000 0x28) one_texture)
  /\ map FullTextureInfo.index (stage_textures header identity_map one_texture 0x1000 0x28)
     = [0].
Proof.
  assert (Hstage : 0 <= 4 < MaxShaderStage header) by (cbn; lia).
  assert (Hindex : 0 <= reg header tex_cb_index one_texture)
    by (vm_compute; discriminate).
  destruct one_texture_slot as [Hshader Hslot].
  pose proof (C4_GetStageTextures header Reference_header_ok identity_map one_texture 4
                (fragment_shader one_texture) (tex_info_buffer one_texture)
                Hstage Hshader Hindex Hslot) as Hc.
  cbv zeta in Hc. destruct Hc as (_ & Hbound & _ & _).
  assert (Henabled : ConstBufferInfo.enabled (tex_info_buffer one_texture) = true)
    by (vm_compute; reflexivity).
  assert (Haddress : ConstBufferInfo.address (tex_info_buffer one_texture) = 0x1000)
    by (vm_compute; reflexivity).
  assert (Hsize : ConstBufferInfo.size (tex_info_buffer one_texture) = 0x28)
    by (vm_compute; reflexivity).
  rewrite Haddress, Hsize in Hbound.
  assert (Hfuel : (Z.to_nat (handle_count header 0x28) < 3)%nat)
    by (vm_compute; lia).
  assert (Hfit : 0x1000 + TextureInfoOffset + 0x28 + sizeof_TextureHandle header <= 2 ^ 64)
    by (vm_compute; discriminate).
  assert (Hu32 : u32 0x28) by (unfold u32; lia).
  destruct (Hbound Henabled ltac:(lia) ltac:(lia) Hu32 Hfit 3%nat Hfuel) as [Hok _].
  split.
  - apply Hok. apply (bool_decide_unpack _). vm_compute. exact I.
  - vm_compute. reflexivity.
Defined.

(** A bound buffer whose one texture has an unsupported descriptor, and a
    bound buffer that reaches beyond the end of the address space: the first
    call fails, the second returns nothing although the handle at
    [address + 0x20] has a texture. *)
Lemma C4_counterexample :
  (ConstBufferInfo.enabled (tex_info_buffer unsupported_texture) = true
   /\ ConstBufferInfo.address (tex_info_buffer unsupported_texture) = 0x1000
   /\ GetStageTextures header identity_map 3 4 unsupported_texture
      = Some (Abort UnsupportedTextureFormat unsupported_texture))
  /\ (ConstBufferInfo.enabled (tex_info_buffer wrapping_texture_buffer) = true
      /\ ConstBufferInfo.address (tex_info_buffer wrapping_texture_buffer)
         = 0xFFFFFFFFFFFFFFD0
      /\ ConstBufferInfo.size (tex_info_buffer wrapping_texture_buffer) = 0x40
      /\ bf_value (tic_id header)
           (Read32 (memory wrapping_texture_buffer)
              (identity_map (0xFFFFFFFFFFFFFFD0 + 0x20))) = 1
      /\ GetStageTextures header identity_map 3 4 wrapping_texture_buffer
         = Some (Ok [] wrapping_texture_buffer)).
Proof. vm_compute. repeat split; reflexivity. Qed.

Lemma C5_CallMacroMethod_witness :
  CallMacroMethod header 0xE24 [0; 7; 0x40; 4; 0x1234] initial
    = Abort UnknownMacro initial
  /\ CallMacroMethod header 0xE00 [1] with_macros
     = Abort UnimplementedMacro with_macros
  /\ CallMacroMethod header 0xE1A [4; 5] with_macros
     = Abort MacroArityMismatch with_macros.
Proof.
  split; [| split].
  - apply (C5_CallMacroMethod header initial 0xE24). vm_compute. reflexivity.
  - destruct (C5_CallMacroMethod header with_macros 0xE00 [1])
      as (_ & _ & Hunimplemented & _).
    apply Hunimplemented; [exists [0x15]; vm_compute; reflexivity | reflexivity].
  - destruct (C5_CallMacroMethod header with_macros 0xE1A [4; 5])
      as (_ & _ & _ & Harity & _).
    apply (Harity {| name := "BindTextureInfoBuffer"; arguments := 1;
                     handler := HBindTextureInfoBuffer |});
      [exists [0x15]; vm_compute; reflexivity | reflexivity | cbn; lia].
Defined.

Lemma C6_register_readback_witness :
  reg_array (final_state (WriteReg header identity_map 0x100 5 0 with_macros)) 0x100 = 5.
Proof.
  assert (Hbelow : 0 <= 0x100 < MacroRegistersStart) by (unfold MacroRegistersStart; lia).
  assert (Hin : 0x100 < NUM_REGS header) by (cbn; lia).
  apply (C6_register_readback header Reference_header_ok identity_map with_macros
           0x100 5 0 with_macros_ok Hbelow Hin).
  reflexivity.
Defined.

Lemma C7_query_get_witness :
  ProcessQueryGet header identity_map query_pending
    = Ok tt (set_memory (Write32 0x2000 0xCAFE) query_pending)
  /\ ProcessQueryGet header identity_map query_sync_pending
     = Abort UnimplementedQueryMode query_sync_pending.
Proof.
  split.
  - destruct (C7_query_get header Reference_header_ok identity_map query_pending 0) as (_ & Hwrite & _).
    cbv zeta in Hwrite. rewrite Hwrite; vm_compute; reflexivity.
  - destruct (C7_query_get header Reference_header_ok identity_map query_sync_pending 0) as (_ & _ & Hother).
    apply Hother. vm_compute. congruence.
Defined.

Lemma C8_supported_descriptors_witness :
  GetTICEntry header identity_map 1 one_texture
    = Ok (tic_entry_at header identity_map one_texture 1) one_texture
  /\ GetTICEntry header identity_map 1 unsupported_texture
     = Abort UnsupportedTextureFormat unsupported_texture.
Proof.
  split.
  - apply (C8_supported_descriptors header identity_map one_texture 1).
    apply (bool_decide_unpack _). vm_compute. exact I.
  - apply (C8_supported_descriptors header identity_map unsupported_texture 1).
    left. vm_compute. congruence.
Defined.

Lemma tex_info_address_one_ok : state_ok header tex_info_address_one.
Proof. apply state_okb_sound. vm_compute. reflexivity. Qed.

Lemma C9_BindTextureInfoBuffer_witness :
  exists s', BindTextureInfoBuffer header [0] tex_info_address_one = Ok tt s'
    /\ reg header cb_size s' = 0
    /\ BufferAddress header s' = 0x100.
Proof.
  destruct (C9_BindTextureInfoBuffer header Reference_header_ok tex_info_address_one 0)
    as (s' & Hrun & Hsize & Haddress & _).
  - exact tex_info_address_one_ok.
  - cbn. lia.
  - exists s'. split; [exact Hrun|]. split.
    + rewrite Hsize. vm_compute. reflexivity.
    + rewrite Haddress. vm_compute. reflexivity.
Defined.

(** The address register of the vertex stage holds 1; after the handler the
    active constant-buffer address is 0x100, the register shifted by 8. *)
Lemma C9_counterexample :
  let s' := final_state (BindTextureInfoBuffer header [0] tex_info_address_one) in
  BindTextureInfoBuffer header [0] tex_info_address_one = Ok tt s'
  /\ reg header (tex_info_address 0) tex_info_address_one = 1
  /\ reg header cb_address_high s' = 0
  /\ reg header cb_address_low s' = 0x100
  /\ BufferAddress header s' <> reg header (tex_info_address 0) tex_info_address_one.
Proof. vm_compute. repeat split; congruence. Qed.

Lemma C10_macro_range_write_witness :
  let result := WriteReg header identity_map 0xE24 7 4 with_macros in
  result = Ok tt (set_macro 0xE24 [7] with_macros)
  /\ regs (final_state result) = regs with_macros
  /\ debug_context (final_state result) = debug_context with_macros.
Proof.
  intros result.
  pose proof (C10_macro_range_write header identity_map with_macros 0xE24 7 4) as Hc.
  cbv zeta in Hc. fold result in Hc.
  destruct Hc as (_ & Hdebug & _ & _ & Hqueued & Hframe & _).
  { unfold MacroRegistersStart. lia. }
  split; [| split; [apply Hframe; lia | exact Hdebug]].
  destruct Hqueued as [Hq|[e He]]; [lia | exact Hq |].
  exfalso. revert He. vm_compute. discriminate.
Defined.

(** The one-parameter call of [BindTextureInfoBuffer] for the fragment
    stage: the write into the macro range changes the active
    constant-buffer size register. *)
Lemma C10_counterexample :
  let result := WriteReg header identity_map 0xE1A 4 0 tex_info_size_set in
  result = Ok tt (final_state result)
  /\ reg_array tex_info_size_set 0x8E0 = 0
  /\ reg_array (final_state result) 0x8E0 = 0x100.
Proof. vm_compute. repeat split; reflexivity. Qed.

(** C2 at [h = 0x1000000]: the shader stage's slot 1 is bound at address 0,
    where [h << 8] is 0x100000000. *)
Theorem C2_SetShader_address_truncated :
  exists s' shader,
    SetShader header [0; 0; 0; 0; 0x1000000] initial = Ok tt s'
    /\ shader_programs s' !! 0%nat = Some (ShaderProgramInfo.mk 0 0 0)
    /\ shader_stages s' !! 0%nat = Some shader
    /\ ShaderStageInfo.const_buffers shader !! 1%nat
       = Some (ConstBufferInfo.mk 0 1 0x10000 true)
    /\ Z.shiftl 0x1000000 8 = 0x100000000.
Proof.
  destruct (SetShader_binds header Reference_header_ok initial 0 0 0 0 0x1000000)
    as (s' & shader & Hrun & Hprogram & Hstage & Hslot & _).
  - apply state_okb_sound. vm_compute. reflexivity.
  - cbn. lia.
  - cbn. lia.
  - exists s', shader. repeat split; assumption || reflexivity.
Qed.

End Runs.
(** * Further properties of the engine *)

(** ** Well-formed states *)

Section WellFormed.

Context (H : Header) (HOK : HeaderOK H) (P2V : Z -> Z).

Lemma state_ok_reg (s : Maxwell3D) (r : Reg) : state_ok H s -> u32 (reg H r s).
Proof. intros Hok. apply reg_array_u32. apply (regs_u32 H s Hok). Qed.

(** The components a state is well formed by are the register file and the
    shader tables. *)
Lemma state_ok_same (s s' : Maxwell3D) :
  regs s' = regs s -> shader_programs s' = shader_programs s ->
  shader_stages s' = shader_stages s ->
  state_ok H s -> state_ok H s'.
Proof.
  intros Hr Hp Hs [Hl Hu Hpl Hsl Hcl].
  constructor; rewrite ?Hr, ?Hp, ?Hs; assumption.
Qed.

End WellFormed.


(** ** The macro call state *)

Section MacroState.

Context (H : Header) (HOK : HeaderOK H) (P2V : Z -> Z).

(** An ordinary register write leaves the macro engine alone. *)
Lemma register_write_macro_frame (method value : Z) :
  unchanged executing_macro (register_write H P2V method value)
  /\ unchanged macro_params (register_write H P2V method value)
  /\ unchanged uploaded_macros (register_write H P2V method value)
  /\ unchanged dispatched (register_write H P2V method value).
Proof.
  repeat split;
    unfold register_write, side_effect, OnEvent, ProcessCBData, ProcessCBBind,
      DrawArrays, ProcessQueryGet, OnEvent; cbv zeta; frame.
Qed.

(** A macro call ends with the call cleared, or stops with the macro state
    it was given. *)
Lemma CallMacroMethod_macro_state (s : Maxwell3D) (method : Z) (parameters : list Z) :
  let s' := final_state (CallMacroMethod H method parameters s) in
  (executing_macro s' = 0 /\ macro_params s' = [])
  \/ (executing_macro s' = executing_macro s /\ macro_params s' = macro_params s).
Proof.
  cbv zeta. unfold CallMacroMethod, bind, get, ASSERT, modify.
  destruct (bool_decide _); [|right; split; reflexivity].
  destruct (method_handlers method) as [info|]; [|right; split; reflexivity].
  destruct (_ =? _)%nat; [|right; split; reflexivity].
  destruct (run_handler_frame H (handler info) parameters)
    as (_ & Hem & Hmp & _).
  specialize (Hem (set_dispatched (fun calls => calls ++ [(method, parameters)]) s)).
  specialize (Hmp (set_dispatched (fun calls => calls ++ [(method, parameters)]) s)).
  destruct (run_handler H (handler info) parameters _) as [[] s1|e s1]; cbn in *.
  - left. split; reflexivity.
  - right. split; assumption.
Qed.

Lemma WriteReg_macro_state_ok (s : Maxwell3D) (method value remaining : Z) :
  macro_state_ok H s ->
  macro_state_ok H (final_state (WriteReg H P2V method value remaining s)).
Proof.
  intros Hinv. rewrite WriteReg_unfold.
  destruct (method <? NUM_REGS H) eqn:Hn; [|exact Hinv].
  apply Z.ltb_lt in Hn.
  destruct (negb (executing_macro s =? 0) && _) eqn:Harg; [exact Hinv|].
  destruct (MacroRegistersStart <=? method) eqn:Hm.
  - apply Z.leb_le in Hm.
    destruct ((executing_macro s =? 0) && negb (method mod 2 =? 0)) eqn:Hodd;
      [exact Hinv|].
    cbv zeta.
    set (pending := if executing_macro s =? 0 then method else executing_macro s).
    set (queued := set_macro pending (macro_params s ++ [value]) s).
    assert (Hqueued : macro_state_ok H queued).
    { right. unfold queued, pending. cbn [executing_macro macro_params set_macro].
      destruct (executing_macro s =? 0) eqn:Hidle.
      - cbn in Hodd. apply negb_false_iff, Z.eqb_eq in Hodd.
        repeat split; try assumption; try lia.
        intros Hnil. apply app_eq_nil in Hnil. destruct Hnil. discriminate.
      - apply Z.eqb_neq in Hidle.
        destruct Hinv as [[Hz _]|(Hrange & Heven & _)]; [contradiction|].
        repeat split; try assumption; try lia.
        intros Hnil. apply app_eq_nil in Hnil. destruct Hnil. discriminate. }
    destruct (remaining =? 0); [|exact Hqueued].
    destruct (CallMacroMethod_macro_state queued pending (macro_params s ++ [value]))
      as [[Hz Hnil]|[Hsame Hparams]].
    + left. split; assumption.
    + unfold macro_state_ok. rewrite Hsame, Hparams. exact Hqueued.
  - destruct (register_write_macro_frame method value) as (Hem & Hmp & _).
    unfold macro_state_ok. rewrite (Hem s), (Hmp s). exact Hinv.
Qed.

(** X2: the macro call state keeps its invariant under every write and
    every stream of writes in which no array is indexed out of range, in the
    state the write returns in as in the state an assertion stops it in: the
    engine is idle with no parameter queued, or a call is pending on an even
    register of the macro range with at least one parameter queued.  Where a
    handler or a bind indexes out of range the source has undefined
    behaviour, and nothing is said. *)
Theorem WriteReg_keeps_macro_state_ok (s : Maxwell3D) :
  macro_state_ok H s ->
  (forall method value remaining,
     defined (WriteReg H P2V method value remaining s) ->
     macro_state_ok H (final_state (WriteReg H P2V method value remaining s)))
  /\ (forall writes,
      defined (run_writes H P2V writes s) ->
      macro_state_ok H (final_state (run_writes H P2V writes s))).
Proof.
  intros Hinv. split.
  - intros method value remaining _. apply WriteReg_macro_state_ok. exact Hinv.
  - intros writes. revert s Hinv.
    induction writes as [|[[method value] remaining] writes IH]; intros s Hinv;
      cbn [run_writes].
    + intros _. exact Hinv.
    + unfold bind.
      pose proof (WriteReg_macro_state_ok s method value remaining Hinv) as Hstep.
      destruct (WriteReg H P2V method value remaining s) as [[] s1|e s1];
        cbn in Hstep; [apply IH | intros _]; exact Hstep.
Qed.

(** X3: the three ways [WriteReg] rejects a write, each with the engine
    untouched: a register id outside the register file, whatever else holds;
    while a macro call is pending, every register but the argument register
    of the call, so every register below the macro range and the entry
    register itself; and a call started on an odd register. *)
Theorem WriteReg_rejections (s : Maxwell3D) (method value remaining : Z) :
  (NUM_REGS H <= method ->
   WriteReg H P2V method value remaining s = Abort InvalidRegister s)
  /\ (macro_state_ok H s -> executing_macro s <> 0 ->
      method < NUM_REGS H -> method <> executing_macro s + 1 ->
      WriteReg H P2V method value remaining s = Abort MacroArgumentExpected s)
  /\ (executing_macro s = 0 ->
      MacroRegistersStart <= method < NUM_REGS H -> method mod 2 <> 0 ->
      WriteReg H P2V method value remaining s = Abort MacroStartOnArgument s).
Proof.
  rewrite WriteReg_unfold. split; [| split].
  - intros Hn. apply Z.ltb_ge in Hn. rewrite Hn. reflexivity.
  - intros Hinv Hpending Hn Hother.
    apply Z.ltb_lt in Hn. rewrite Hn.
    destruct Hinv as [[Hz _]|(Hrange & Heven & _)]; [contradiction|].
    pose proof (num_regs_u32 H HOK) as H32.
    assert (Hwrap : wrap32 (executing_macro s + 1) = executing_macro s + 1).
    { apply wrap32_id. unfold u32, MacroRegistersStart in *.
      pose proof (Z.div_mod (executing_macro s) 2 ltac:(lia)) as Hdiv.
      rewrite Heven in Hdiv. change (2 ^ 32) with 4294967296 in *. lia. }
    rewrite Hwrap.
    apply Z.eqb_neq in Hpending, Hother. rewrite Hpending, Hother. reflexivity.
  - intros Hidle [Hm Hn] Hodd.
    apply Z.ltb_lt in Hn. apply Z.leb_le in Hm. apply Z.eqb_neq in Hodd.
    rewrite Hn, Hm, Hidle, Hodd. reflexivity.
Qed.

End MacroState.

(** ** Writes to the registers of the side-effect table *)

Section Triggers.

Context (H : Header) (HOK : HeaderOK H) (P2V : Z -> Z).

(** Evaluates the tests of the [switch] at a named register. *)
Ltac switch_on :=
  unfold side_effect; cbn [existsb seq];
  rewrite ?(reg_index_eqb H HOK) by
    first [ apply (valid_cb_bind H HOK); lia | simpl; first [exact I | lia] ];
  cbn.

Lemma register_write_unfold (s : Maxwell3D) (method value : Z) :
  register_write H P2V method value s =
    match side_effect H P2V method value (stored method value s) with
    | Ok _ s' => Ok tt (notified MaxwellCommandProcessed s')
    | Abort e s' => Abort e s'
    end.
Proof. reflexivity. Qed.

(** An idle engine takes a write to a named register below the macro range
    as an ordinary register write. *)
Lemma WriteReg_named (s : Maxwell3D) (r : Reg) (value remaining : Z) :
  executing_macro s = 0 -> valid_reg H r -> below_macros H r ->
  WriteReg H P2V (MAXWELL3D_REG_INDEX H r) value remaining s =
    match side_effect H P2V (MAXWELL3D_REG_INDEX H r) value
            (stored (MAXWELL3D_REG_INDEX H r) value s) with
    | Ok _ s' => Ok tt (notified MaxwellCommandProcessed s')
    | Abort e s' => Abort e s'
    end.
Proof.
  intros Hidle Hr Hbelow.
  pose proof (reg_index_range H HOK r Hr) as Hrange.
  rewrite WriteReg_register by (assumption || lia).
  apply register_write_unfold.
Qed.

Lemma side_effect_code_address (r : Reg) (value : Z) :
  r = code_address_high \/ r = code_address_low ->
  side_effect H P2V (MAXWELL3D_REG_INDEX H r) value =
    (code_address <- get (CodeAddress H);;
     ASSERT (code_address =? 0) UnexpectedCodeAddress).
Proof. intros [-> | ->]; switch_on; reflexivity. Qed.

Lemma side_effect_vertex_end_gl (value : Z) :
  side_effect H P2V (MAXWELL3D_REG_INDEX H vertex_end_gl) value = DrawArrays.
Proof. switch_on. reflexivity. Qed.

Lemma side_effect_cb_bind (i : nat) (value : Z) :
  (i < 5)%nat ->
  side_effect H P2V (MAXWELL3D_REG_INDEX H (cb_bind_raw_config i)) value =
    ProcessCBBind H (Z.of_nat i).
Proof.
  intros Hi.
  do 5 (destruct i as [|i]; [switch_on; reflexivity|]). lia.
Qed.

(** A register that labels no case of the [switch] has no side effect. *)
Lemma side_effect_none (method value : Z) :
  Forall (fun r => method <> MAXWELL3D_REG_INDEX H r) (side_effect_registers) ->
  side_effect H P2V method value = ret tt.
Proof.
  intros Hnone. rewrite Forall_forall in Hnone.
  assert (Hne : forall r, r ∈ side_effect_registers ->
                  (method =? MAXWELL3D_REG_INDEX H r) = false).
  { intros r Hr. apply Z.eqb_neq. apply Hnone. exact Hr. }
  unfold side_effect.
  replace (existsb _ (seq 0 16)) with false.
  2:{ symmetry. apply not_true_is_false. intros Hex.
      apply existsb_exists in Hex. destruct Hex as (i & Hin & Hi).
      rewrite Hne in Hi; [discriminate|].
      unfold side_effect_registers. apply list_elem_of_In.
      apply in_or_app. right. apply in_or_app. left.
      apply in_map. exact Hin. }
  rewrite !Hne by (apply (bool_decide_unpack _); vm_compute; exact I).
  reflexivity.
Qed.

(** X4: a write to a register that is in no case of the side-effect table, the
    engine idle: the value is stored, the debug context hears the command
    loaded and processed, and nothing else happens. *)
Theorem WriteReg_plain_register (s : Maxwell3D) (method value remaining : Z) :
  executing_macro s = 0 ->
  method < MacroRegistersStart -> method < NUM_REGS H ->
  Forall (fun r => method <> MAXWELL3D_REG_INDEX H r) side_effect_registers ->
  WriteReg H P2V method value remaining s =
    Ok tt (notified MaxwellCommandProcessed (stored method value s)).
Proof.
  intros Hidle Hm Hn Hnone.
  rewrite WriteReg_register by assumption.
  rewrite register_write_unfold, side_effect_none by assumption.
  reflexivity.
Qed.

Lemma join_address_zero (high low : Z) :
  u32 high -> u32 low -> (join_address high low = 0 <-> high = 0 /\ low = 0).
Proof.
  intros [Hh0 Hh1] [Hl0 Hl1]. unfold join_address.
  rewrite Z.lor_eq_0_iff.
  rewrite wrap64_id.
  - rewrite Z.shiftl_eq_0_iff by lia. tauto.
  - rewrite Z.shiftl_mul_pow2 by lia. unfold u64. lia.
Qed.

Lemma stored_reg_same (s : Maxwell3D) (r : Reg) (value : Z) :
  state_ok H s -> valid_reg H r ->
  reg H r (stored (MAXWELL3D_REG_INDEX H r) value s) = value.
Proof.
  intros Hok Hr. unfold stored.
  change (set_reg_array (MAXWELL3D_REG_INDEX H r) value)
    with (set_reg H r value).
  apply (reg_set_same H HOK); [|exact Hr]. apply (regs_length H s Hok).
Qed.

Lemma stored_reg_other (s : Maxwell3D) (r r' : Reg) (value : Z) :
  valid_reg H r -> valid_reg H r' -> r' <> r ->
  reg H r' (stored (MAXWELL3D_REG_INDEX H r) value s) = reg H r' s.
Proof.
  intros Hr Hr' Hne. unfold stored.
  change (set_reg_array (MAXWELL3D_REG_INDEX H r) value)
    with (set_reg H r value).
  rewrite (reg_set_other H HOK _ r' r value Hr' Hr Hne). reflexivity.
Qed.

(** X5: the code address must stay zero.  With the engine idle, a write of a
    32-bit value to one half of the code address returns exactly when the
    value is zero and the other half is zero too; otherwise it aborts with
    the value already stored. *)
Theorem WriteReg_code_address (s : Maxwell3D) (value remaining : Z) :
  state_ok H s -> executing_macro s = 0 -> u32 value ->
  (below_macros H code_address_low ->
   let written := stored (MAXWELL3D_REG_INDEX H code_address_low) value s in
   WriteReg H P2V (MAXWELL3D_REG_INDEX H code_address_low) value remaining s =
     if (value =? 0) && (reg H code_address_high s =? 0)
     then Ok tt (notified MaxwellCommandProcessed written)
     else Abort UnexpectedCodeAddress written)
  /\ (below_macros H code_address_high ->
      let written := stored (MAXWELL3D_REG_INDEX H code_address_high) value s in
      WriteReg H P2V (MAXWELL3D_REG_INDEX H code_address_high) value remaining s =
        if (value =? 0) && (reg H code_address_low s =? 0)
        then Ok tt (notified MaxwellCommandProcessed written)
        else Abort UnexpectedCodeAddress written).
Proof.
  intros Hok Hidle Hvalue.
  assert (Hzero : forall h l, u32 h -> u32 l ->
            (join_address h l =? 0) = (h =? 0) && (l =? 0)).
  { intros h l Hh Hl. pose proof (join_address_zero h l Hh Hl) as Hiff.
    destruct (join_address h l =? 0) eqn:E.
    - apply Z.eqb_eq in E. apply Hiff in E. destruct E as [-> ->]. reflexivity.
    - symmetry. apply not_true_is_false. intros Hb.
      apply andb_true_iff in Hb. destruct Hb as [Hb1 Hb2].
      apply Z.eqb_eq in Hb1, Hb2. apply Z.eqb_neq in E. apply E, Hiff. auto. }
  split; intros Hbelow written.
  - rewrite WriteReg_named by (assumption || exact I).
    rewrite side_effect_code_address by auto.
    unfold bind, get, ASSERT, CodeAddress. fold written.
    unfold written at 1 2.
    rewrite stored_reg_same by (assumption || exact I).
    rewrite stored_reg_other by (exact I || discriminate).
    rewrite Hzero by (assumption || apply state_ok_reg; assumption).
    rewrite andb_comm. destruct (_ && _); reflexivity.
  - rewrite WriteReg_named by (assumption || exact I).
    rewrite side_effect_code_address by auto.
    unfold bind, get, ASSERT, CodeAddress. fold written.
    unfold written at 1 2.
    rewrite stored_reg_same by (assumption || exact I).
    rewrite stored_reg_other by (exact I || discriminate).
    rewrite Hzero by (assumption || apply state_ok_reg; assumption).
    destruct (_ && _); reflexivity.
Qed.

(** X6: a write to the draw-end register, the engine idle, never fails: the
    value is stored, the rasterizer receives exactly one non-indexed draw
    batch, the debug context hears the command loaded, the batch incoming,
    the batch finished and the command processed, in this order, and
    registers other than the one written, guest memory and the shader
    tables stay as they were. *)
Theorem WriteReg_draw (s : Maxwell3D) (value remaining : Z) :
  executing_macro s = 0 -> below_macros H vertex_end_gl ->
  exists s',
    WriteReg H P2V (MAXWELL3D_REG_INDEX H vertex_end_gl) value remaining s = Ok tt s'
    /\ rasterizer s' = rasterizer s ++ [false]
    /\ debug_context s' =
         fmap (fun events => events ++ [MaxwellCommandLoaded; IncomingPrimitiveBatch;
                                       FinishedPrimitiveBatch; MaxwellCommandProcessed])
              (debug_context s)
    /\ regs s' = <[Z.to_nat (MAXWELL3D_REG_INDEX H vertex_end_gl) := value]> (regs s)
    /\ memory s' = memory s
    /\ shader_programs s' = shader_programs s
    /\ shader_stages s' = shader_stages s.
Proof.
  intros Hidle Hbelow.
  rewrite WriteReg_named by (assumption || exact I).
  rewrite side_effect_vertex_end_gl.
  eexists. split; [reflexivity|]. cbn.
  repeat split.
  destruct (debug_context s) as [events|]; cbn; [|reflexivity].
  rewrite <- !app_assoc. reflexivity.
Qed.

End Triggers.

Section BufferWrites.

Context (H : Header) (HOK : HeaderOK H) (P2V : Z -> Z).

Lemma stored_state_ok (s : Maxwell3D) (method value : Z) :
  state_ok H s -> u32 value -> state_ok H (stored method value s).
Proof.
  intros Hok Hvalue. unfold stored. apply state_ok_set_reg_array; [|exact Hvalue].
  apply (state_ok_same H s); [reflexivity.. | exact Hok].
Qed.

Lemma stored_BufferAddress (s : Maxwell3D) (r : Reg) (value : Z) :
  valid_reg H r -> r <> cb_address_high -> r <> cb_address_low ->
  BufferAddress H (stored (MAXWELL3D_REG_INDEX H r) value s) = BufferAddress H s.
Proof.
  intros Hr Hhigh Hlow. unfold BufferAddress.
  rewrite !(stored_reg_other H HOK) by (assumption || exact I || congruence).
  reflexivity.
Qed.

(** [ProcessCBBind] for a stage whose bind-config register names a slot
    that exists. *)
Lemma ProcessCBBind_run (s : Maxwell3D) (stage : nat) :
  Z.of_nat stage < MaxShaderStage H ->
  let bind_data := reg H (cb_bind_raw_config stage) s in
  let slot := bf_value (cb_bind_index H) bind_data in
  0 <= slot < MaxConstBuffers H ->
  ProcessCBBind H (Z.of_nat stage) s =
    Ok tt (set_shader_stages
             (alter (fun shader =>
                       ShaderStageInfo.mk
                         (<[Z.to_nat slot :=
                              ConstBufferInfo.mk (BufferAddress H s) slot (reg H cb_size s)
                                (negb (bf_value (cb_bind_valid H) bind_data =? 0))]>
                            (ShaderStageInfo.const_buffers shader)))
                    stage) s).
Proof.
  intros Hstage bind_data slot Hslot.
  unfold ProcessCBBind, bind, subscript, get, modify.
  replace ((0 <=? Z.of_nat stage) && (Z.of_nat stage <? MaxShaderStage H)) with true
    by (symmetry; apply andb_true_intro; split; [apply Z.leb_le | apply Z.ltb_lt]; lia).
  rewrite Nat2Z.id. fold bind_data. fold slot.
  replace ((0 <=? slot) && (slot <? MaxConstBuffers H)) with true
    by (symmetry; apply andb_true_intro; split; [apply Z.leb_le | apply Z.ltb_lt]; lia).
  reflexivity.
Qed.

(** X7: a write to the bind-config register of a stage, the engine idle, binds
    the active constant buffer: the slot named by the index field of the
    value written gets the active address and size and is enabled exactly if
    the valid bit of the value is set, whatever was bound there before; every
    other slot of every stage, the shader programs and guest memory stay as
    they were. *)
Theorem WriteReg_cb_bind (s : Maxwell3D) (stage : nat) (value remaining : Z) :
  state_ok H s -> executing_macro s = 0 -> u32 value ->
  (stage < 5)%nat -> below_macros H (cb_bind_raw_config stage) ->
  let slot := bf_value (cb_bind_index H) value in
  0 <= slot < MaxConstBuffers H ->
  exists s',
    WriteReg H P2V (MAXWELL3D_REG_INDEX H (cb_bind_raw_config stage)) value remaining s
      = Ok tt s'
    /\ bound_buffer s' stage (Z.to_nat slot) =
         Some (ConstBufferInfo.mk (BufferAddress H s) slot (reg H cb_size s)
                 (negb (bf_value (cb_bind_valid H) value =? 0)))
    /\ (forall stage' slot', stage' <> stage \/ slot' <> Z.to_nat slot ->
          bound_buffer s' stage' slot' = bound_buffer s stage' slot')
    /\ shader_programs s' = shader_programs s
    /\ memory s' = memory s.
Proof.
  intros Hok Hidle Hvalue Hstage Hbelow slot Hslot.
  pose proof (valid_cb_bind H HOK stage Hstage) as Hvalid.
  assert (Hst : Z.of_nat stage < MaxShaderStage H) by exact Hvalid.
  rewrite WriteReg_named by assumption.
  rewrite side_effect_cb_bind by assumption.
  set (written := stored (MAXWELL3D_REG_INDEX H (cb_bind_raw_config stage)) value s).
  assert (Hbind : reg H (cb_bind_raw_config stage) written = value)
    by (apply stored_reg_same; assumption).
  assert (Haddress : BufferAddress H written = BufferAddress H s)
    by (apply stored_BufferAddress; assumption || discriminate).
  assert (Hsize : reg H cb_size written = reg H cb_size s)
    by (apply stored_reg_other; assumption || exact I || discriminate).
  rewrite ProcessCBBind_run by (rewrite ?Hbind; assumption).
  rewrite Hbind, Haddress, Hsize. fold slot.
  destruct (lookup_lt_is_Some_2 (shader_stages s) stage) as [shader Hshader].
  { pose proof (shader_stages_length H s Hok). lia. }
  pose proof (Forall_lookup_1 _ _ _ _ (const_buffers_length H s Hok) Hshader) as Hlen.
  cbn beta in Hlen.
  eexists. split; [reflexivity|].
  unfold bound_buffer. cbn [shader_stages shader_programs memory notified
                            set_debug_context set_shader_stages].
  change (shader_stages written) with (shader_stages s).
  split; [| split; [| split; reflexivity]].
  - rewrite list_lookup_alter_eq, Hshader. cbn.
    apply list_lookup_insert_eq. lia.
  - intros stage' slot' Hother.
    destruct (decide (stage' = stage)) as [->|Hne].
    + rewrite list_lookup_alter_eq, Hshader. cbn.
      apply list_lookup_insert_ne. destruct Hother; congruence.
    + rewrite list_lookup_alter_ne by congruence. reflexivity.
Qed.

(** X8: the sixteen data registers are aliases: a write to any of them, the
    engine idle, streams the value into the active constant buffer.  With no
    buffer bound or no room left the write aborts, the value already stored in
    the register; otherwise the four bytes go to guest memory at the cursor,
    the cursor advances by 4, and of the data registers only the one written
    changes. *)
Theorem WriteReg_cb_data (s : Maxwell3D) (i : nat) (value remaining : Z) :
  state_ok H s -> executing_macro s = 0 -> u32 value ->
  (i < 16)%nat -> below_macros H (cb_data i) ->
  let written := stored (MAXWELL3D_REG_INDEX H (cb_data i)) value s in
  let result := WriteReg H P2V (MAXWELL3D_REG_INDEX H (cb_data i)) value remaining s in
  (BufferAddress H s = 0 -> result = Abort ConstBufferNotBound written)
  /\ (BufferAddress H s <> 0 -> reg H cb_pos s + 4 > reg H cb_size s ->
      result = Abort ConstBufferOverflow written)
  /\ (BufferAddress H s <> 0 -> reg H cb_pos s + 4 <= reg H cb_size s ->
      exists s', result = Ok tt s'
        /\ memory s' =
             Write32 (P2V (wrap64 (BufferAddress H s + reg H cb_pos s))) value (memory s)
        /\ reg H cb_pos s' = reg H cb_pos s + 4
        /\ reg H (cb_data i) s' = value
        /\ (forall j, (j < 16)%nat -> j <> i -> reg H (cb_data j) s' = reg H (cb_data j) s)
        /\ shader_stages s' = shader_stages s).
Proof.
  intros Hok Hidle Hvalue Hi Hbelow written result.
  assert (Hvalid : valid_reg H (cb_data i)) by exact Hi.
  pose proof (stored_state_ok s (MAXWELL3D_REG_INDEX H (cb_data i)) value Hok Hvalue)
    as Hwritten. fold written in Hwritten.
  assert (Haddress : BufferAddress H written = BufferAddress H s)
    by (apply stored_BufferAddress; assumption || discriminate).
  assert (Hpos : reg H cb_pos written = reg H cb_pos s)
    by (apply stored_reg_other; assumption || exact I || discriminate).
  assert (Hsize : reg H cb_size written = reg H cb_size s)
    by (apply stored_reg_other; assumption || exact I || discriminate).
  assert (Hresult : result =
            match ProcessCBData H P2V value written with
            | Ok _ s' => Ok tt (notified MaxwellCommandProcessed s')
            | Abort e s' => Abort e s'
            end).
  { unfold result. rewrite WriteReg_named by assumption.
    rewrite side_effect_cb_data by assumption. reflexivity. }
  rewrite Hresult.
  split; [| split].
  - intros Hzero. rewrite ProcessCBData_unbound by congruence. reflexivity.
  - intros Hnz Hover.
    rewrite ProcessCBData_overflow;
      [reflexivity | apply (regs_u32 H _ Hwritten) | congruence | lia].
  - intros Hnz Hroom.
    rewrite ProcessCBData_ok;
      [| apply (regs_u32 H _ Hwritten) | congruence | lia].
    rewrite Haddress, Hpos.
    eexists. split; [reflexivity|].
    split; [reflexivity|].
    pose proof (regs_length H _ Hwritten) as Hlen.
    split; [| split; [| split; [| reflexivity]]].
    + change (reg H cb_pos (notified MaxwellCommandProcessed ?x)) with (reg H cb_pos x).
      apply (cb_pos_set_cb_pos H HOK). exact Hlen.
    + change (reg H (cb_data i) (notified MaxwellCommandProcessed ?x))
        with (reg H (cb_data i) x).
      change (set_reg H cb_pos ?v (set_memory ?f written))
        with (set_memory f (set_reg H cb_pos v written)).
      change (reg H (cb_data i) (set_memory ?f ?x)) with (reg H (cb_data i) x).
      rewrite (reg_set_other H HOK) by (assumption || exact I || discriminate).
      apply stored_reg_same; assumption.
    + intros j Hj Hne.
      change (reg H (cb_data j) (notified MaxwellCommandProcessed ?x))
        with (reg H (cb_data j) x).
      change (set_reg H cb_pos ?v (set_memory ?f written))
        with (set_memory f (set_reg H cb_pos v written)).
      change (reg H (cb_data j) (set_memory ?f ?x)) with (reg H (cb_data j) x).
      rewrite (reg_set_other H HOK) by (exact Hj || exact I || discriminate).
      apply (stored_reg_other H HOK s (cb_data i) (cb_data j) value);
        [exact Hvalid | exact Hj | congruence].
Qed.

(** X9: a write to the query-get register, the engine idle, takes the query
    mode from the value being written, not from what the register held: in
    mode Write the sequence number is stored at the translated query
    address, in any other mode the write aborts with the value already in
    the register and guest memory as it was. *)
Theorem WriteReg_query_get (s : Maxwell3D) (value remaining : Z) :
  state_ok H s -> executing_macro s = 0 -> below_macros H query_get ->
  let written := stored (MAXWELL3D_REG_INDEX H query_get) value s in
  let result := WriteReg H P2V (MAXWELL3D_REG_INDEX H query_get) value remaining s in
  (bf_value (query_get_mode H) value = QueryMode_Write H ->
   result =
     Ok tt (notified MaxwellCommandProcessed
              (set_memory (Write32 (P2V (QueryAddress H s)) (reg H query_sequence s))
                 written)))
  /\ (bf_value (query_get_mode H) value <> QueryMode_Write H ->
      result = Abort UnimplementedQueryMode written /\ memory written = memory s).
Proof.
  intros Hok Hidle Hbelow written result.
  assert (Hmode : reg H query_get written = value)
    by (apply stored_reg_same; assumption || exact I).
  assert (Haddress : QueryAddress H written = QueryAddress H s).
  { unfold QueryAddress, written.
    rewrite !(stored_reg_other H HOK) by (exact I || discriminate). reflexivity. }
  assert (Hsequence : reg H query_sequence written = reg H query_sequence s)
    by (apply (stored_reg_other H HOK s query_get query_sequence value);
        exact I || discriminate).
  unfold result. rewrite WriteReg_named by (assumption || exact I).
  rewrite side_effect_query_get by assumption. fold written.
  unfold ProcessQueryGet, bind, get, modify, ASSERT.
  rewrite Hmode, Haddress.
  split; intros Hm.
  - rewrite Hm, Z.eqb_refl. cbv beta iota. rewrite Hsequence. reflexivity.
  - apply Z.eqb_neq in Hm. rewrite Hm. split; reflexivity.
Qed.

End BufferWrites.

(** ** The storage-buffer handler *)

Section StorageBuffer.

Context (H : Header) (HOK : HeaderOK H).

(** X10: [BindStorageBuffer] makes the storage-buffer info buffer the active
    constant buffer: size 0x5F00, the address [ssbo_info.BufferAddress()]
    split over the two address registers, and the cursor at four times the
    parameter, in 32 bits; the shader tables are not touched. *)
Theorem BindStorageBuffer_effect (s : Maxwell3D) (offset : Z) :
  state_ok H s ->
  let address := ssbo_info_BufferAddress H (reg H ssbo_buffer_address s) in
  u64 address ->
  exists s', BindStorageBuffer H [offset] s = Ok tt s'
    /\ reg H cb_size s' = 0x5F00
    /\ BufferAddress H s' = address
    /\ reg H cb_pos s' = wrap32 (Z.shiftl offset 2)
    /\ shader_programs s' = shader_programs s
    /\ shader_stages s' = shader_stages s.
Proof.
  intros Hok address Haddress.
  pose proof (regs_length H s Hok) as Hlen.
  unfold BindStorageBuffer, bind, get, modify.
  change (at_index [offset] 0 s) with (Ok offset s). cbv iota beta zeta.
  rewrite (reg_set_other H HOK) by (exact I || discriminate). fold address.
  set (s1 := set_reg H cb_size _ s).
  set (s2 := set_reg H cb_address_high _ s1).
  set (s3 := set_reg H cb_address_low _ s2).
  assert (Hl1 : Z.of_nat (length (regs s1)) = NUM_REGS H)
    by (unfold s1; cbn; rewrite length_insert; assumption).
  assert (Hl2 : Z.of_nat (length (regs s2)) = NUM_REGS H)
    by (unfold s2; cbn; rewrite length_insert; assumption).
  assert (Hl3 : Z.of_nat (length (regs s3)) = NUM_REGS H)
    by (unfold s3; cbn; rewrite length_insert; assumption).
  eexists. split; [reflexivity|].
  split; [| split; [| split; [| split; reflexivity]]].
  - unfold s3, s2. rewrite !(reg_set_other H HOK) by (exact I || discriminate).
    unfold s1. apply (reg_set_same H HOK); [assumption | exact I].
  - unfold BufferAddress.
    rewrite (reg_set_other H HOK _ cb_address_high cb_pos) by (exact I || discriminate).
    rewrite (reg_set_other H HOK _ cb_address_low cb_pos) by (exact I || discriminate).
    unfold s3 at 1. rewrite (reg_set_other H HOK) by (exact I || discriminate).
    unfold s2 at 1. rewrite (reg_set_same H HOK) by (assumption || exact I).
    unfold s3. rewrite (reg_set_same H HOK) by (assumption || exact I).
    apply join_split_address. exact Haddress.
  - apply (reg_set_same H HOK); [assumption | exact I].
Qed.

End StorageBuffer.

(** ** The resolver reads only *)

Section ReadOnly.

Context (H : Header) (HOK : HeaderOK H) (P2V : Z -> Z).

Lemma texture_at_const (address current : Z) :
  unchanged (fun s => s) (texture_at H P2V address current).
Proof. unfold texture_at, GetTICEntry, GetTSCEntry. cbv zeta. frame. Qed.

Lemma scan_textures_const (address buffer_end : Z) :
  forall (fuel : nat) (current : Z) (acc : list FullTextureInfo.t) (s : Maxwell3D)
         (result : Result (list FullTextureInfo.t)),
  scan_textures H P2V fuel address buffer_end current acc s = Some result ->
  final_state result = s.
Proof.
  induction fuel as [|fuel IH]; intros current acc s result Hscan;
    cbn [scan_textures] in Hscan; [discriminate|].
  destruct (current <? buffer_end).
  2:{ injection Hscan as <-. reflexivity. }
  pose proof (texture_at_const address current s) as Hbody.
  destruct (texture_at H P2V address current s) as [info s1|e s1]; cbn in Hbody.
  - subst s1. eapply IH. exact Hscan.
  - injection Hscan as <-. exact Hbody.
Qed.

(** X11: the resolver is read-only: whatever [GetTICEntry], [GetTSCEntry] and
    [GetStageTextures] return or abort with, the engine and guest memory are
    as they were. *)
Theorem resolver_read_only (s : Maxwell3D) :
  (forall tic_index, final_state (GetTICEntry H P2V tic_index s) = s)
  /\ (forall tsc_index, GetTSCEntry H P2V tsc_index s
                        = Ok (tsc_entry_at H P2V s tsc_index) s)
  /\ (forall fuel stage result,
        GetStageTextures H P2V fuel stage s = Some result -> final_state result = s).
Proof.
  split; [| split].
  - intros tic_index.
    assert (Hconst : unchanged (fun s => s) (GetTICEntry H P2V tic_index))
      by (unfold GetTICEntry; cbv zeta; frame).
    apply Hconst.
  - intros tsc_index. reflexivity.
  - intros fuel stage result Hget. unfold GetStageTextures in Hget.
    match type of Hget with
    | match ?p s with _ => _ end = _ =>
        assert (Hconst : unchanged (fun s => s) p);
        [ frame; intros s0; unfold at_index;
          destruct (0 <=? _); [destruct (_ !! _)|]; reflexivity
        | specialize (Hconst s); destruct (p s) as [buffer s1|e s1] ]
    end; cbn in Hconst.
    + subst s1. eapply scan_textures_const. exact Hget.
    + injection Hget as <-. exact Hconst.
Qed.

(** X12: a texture buffer that holds no more than its 0x20-byte header has
    no texture, as long as its header does not reach the end of the 64-bit
    address space: for a bound slot of at most 0x20 bytes whose address plus
    0x20 is below 2^64 the resolver returns the empty list, and it does so
    on the first test of its loop. *)
Theorem GetStageTextures_header_only (s : Maxwell3D) (stage : Z)
    (shader : ShaderStageInfo.t) (buffer : ConstBufferInfo.t) (fuel : nat) :
  0 <= stage < MaxShaderStage H ->
  shader_stages s !! Z.to_nat stage = Some shader ->
  0 <= reg H tex_cb_index s ->
  ShaderStageInfo.const_buffers shader !! Z.to_nat (reg H tex_cb_index s) = Some buffer ->
  ConstBufferInfo.enabled buffer = true ->
  0 < ConstBufferInfo.address buffer ->
  ConstBufferInfo.address buffer + TextureInfoOffset < 2 ^ 64 ->
  0 <= ConstBufferInfo.size buffer <= TextureInfoOffset ->
  GetStageTextures H P2V (S fuel) stage s = Some (Ok [] s).
Proof.
  intros Hstage Hshader Hindex Hslot Henabled Haddress Hfit Hsize.
  rewrite (GetStageTextures_slot H P2V s stage (S fuel) shader buffer) by assumption.
  rewrite Henabled.
  replace (ConstBufferInfo.address buffer =? 0) with false
    by (symmetry; apply Z.eqb_neq; lia).
  cbn [negb andb scan_textures].
  unfold TextureInfoOffset in *.
  rewrite !wrap64_id by (unfold u64; lia).
  replace (_ <? _) with false by (symmetry; apply Z.ltb_ge; lia).
  reflexivity.
Qed.

End ReadOnly.

(** ** Macro upload *)

Section Upload.

(** X13: uploading microcode never fails and touches nothing but the table of
    uploaded macros: the code is found under its key, an even register id,
    every other key keeps what it had, a second upload for the same entry
    replaces the first, and since the key is computed in 32 bits the entries
    [entry] and [entry + 2^31] share one key. *)
Theorem SubmitMacroCode_effect (s : Maxwell3D) (entry : Z) (code : list Z) :
  let key := wrap32 (entry * 2 + MacroRegistersStart) in
  let s' := set_uploaded_macros (<[key := code]>) s in
  SubmitMacroCode entry code s = Ok tt s'
  /\ uploaded_macros s' !! key = Some code
  /\ (forall method, method <> key ->
        uploaded_macros s' !! method = uploaded_macros s !! method)
  /\ key mod 2 = 0
  /\ (forall code', SubmitMacroCode entry code' s' = SubmitMacroCode entry code' s)
  /\ SubmitMacroCode (entry + 2 ^ 31) code s = SubmitMacroCode entry code s.
Proof.
  intros key s'.
  split; [reflexivity|].
  split; [apply lookup_insert_eq|].
  split; [intros method Hne; apply lookup_insert_ne; congruence|].
  split.
  { unfold key, wrap32, MacroRegistersStart.
    rewrite Z.mod_mod_divide by (exists (2 ^ 31); reflexivity).
    replace (entry * 2 + 3584) with (0 + (entry + 1792) * 2) by lia.
    rewrite Z.mod_add by lia. reflexivity. }
  split.
  { intros code'. unfold SubmitMacroCode, modify, s', set_uploaded_macros; cbn.
    fold key. rewrite insert_insert_eq. reflexivity. }
  unfold SubmitMacroCode, modify. do 3 f_equal.
  unfold wrap32.
  replace ((entry + 2 ^ 31) * 2 + MacroRegistersStart)
    with (entry * 2 + MacroRegistersStart + 1 * 2 ^ 32) by lia.
  apply Z.mod_add. lia.
Qed.

End Upload.

(** ** The shader-bind handler, in full *)

Section SetShaderEffect.

Context (H : Header) (HOK : HeaderOK H).

Ltac regs_length :=
  cbn [regs set_reg set_reg_array set_regs set_shader_programs set_shader_stages
       set_memory];
  unfold set_reg, set_reg_array; cbn [regs set_regs];
  rewrite ?length_insert; assumption.

Lemma shiftr32_u32 (x : Z) : u32 x -> Z.shiftr x 32 = 0.
Proof.
  intros [H0 H1]. rewrite Z.shiftr_div_pow2 by lia. apply Z.div_small. lia.
Qed.

Lemma land_mask_u32 (x : Z) : u32 x -> Z.land x 0xFFFFFFFF = x.
Proof.
  intros [H0 H1]. change 0xFFFFFFFF with (Z.ones 32).
  rewrite Z.land_ones by lia. apply Z.mod_small. lia.
Qed.

(** X14: what [SetShader] does for a valid program and stage, in full.  The
    program slot records stage, program and code offset; the start-id
    register of the program holds the offset; the active constant buffer
    becomes 0x10000 bytes at the 32-bit value of [h << 8], so that the high
    address register is always zero; slot 1 of the stage is bound to it,
    enabled; no other program slot, no other bind slot and no guest memory
    changes. *)
Theorem SetShader_effect (s : Maxwell3D) (p x off stage h : Z) :
  state_ok H s ->
  0 <= p < MaxShaderProgram H -> 0 <= stage < MaxShaderStage H ->
  let address := wrap32 (Z.shiftl h 8) in
  exists s',
    SetShader H [p; x; off; stage; h] s = Ok tt s'
    /\ shader_programs s' =
         <[Z.to_nat p := ShaderProgramInfo.mk stage p off]> (shader_programs s)
    /\ bound_buffer s' (Z.to_nat stage) 1 =
         Some (ConstBufferInfo.mk address 1 0x10000 true)
    /\ (forall stage' slot', stage' <> Z.to_nat stage \/ slot' <> 1%nat ->
          bound_buffer s' stage' slot' = bound_buffer s stage' slot')
    /\ reg H (shader_start_id (Z.to_nat p)) s' = wrap32 off
    /\ reg H cb_size s' = 0x10000
    /\ reg H cb_address_high s' = 0
    /\ reg H cb_address_low s' = address
    /\ memory s' = memory s.
Proof.
  intros Hok Hp Hst address.
  pose proof (regs_length H s Hok) as Hlen.
  pose proof (cb_bind_valid_ok H HOK) as Hvalid.
  pose proof (cb_bind_index_ok H HOK) as Hindex.
  pose proof (cb_bind_fields_disjoint H HOK) as Hdis.
  pose proof (const_buffer_one H HOK) as Hone.
  assert (Haddress : u32 address) by apply wrap32_u32.
  unfold SetShader.
  unfold bind at 1. change (at_index [p; x; off; stage; h] 0 s) with (Ok p s). cbv iota beta.
  unfold bind at 1. change (at_index [p; x; off; stage; h] 2 s) with (Ok off s). cbv iota beta.
  unfold bind at 1. change (at_index [p; x; off; stage; h] 3 s) with (Ok stage s). cbv iota beta.
  unfold bind at 1. change (at_index [p; x; off; stage; h] 4 s) with (Ok h s). cbv iota beta zeta.
  unfold bind at 1. unfold subscript at 1.
  replace ((0 <=? p) && (p <? MaxShaderProgram H)) with true
    by (symmetry; apply andb_true_intro; split; [apply Z.leb_le | apply Z.ltb_lt]; lia).
  do 5 (unfold bind at 1; unfold modify at 1).
  unfold bind at 1. unfold subscript at 1.
  replace ((0 <=? stage) && (stage <? MaxShaderStage H)) with true
    by (symmetry; apply andb_true_intro; split; [apply Z.leb_le | apply Z.ltb_lt]; lia).
  do 2 (unfold bind at 1; unfold modify at 1).
  fold address.
  rewrite (shiftr32_u32 address Haddress), (land_mask_u32 address Haddress).
  rewrite (wrap32_id 0) by (unfold u32; lia).
  rewrite (wrap32_id address) by exact Haddress.
  set (pn := Z.to_nat p). set (st := Z.to_nat stage).
  assert (Hvp : valid_reg H (shader_start_id pn)) by (simpl; lia).
  assert (Hvs : valid_reg H (cb_bind_raw_config st)) by (simpl; lia).
  set (s1 := set_shader_programs _ s).
  set (s2 := set_reg H (shader_start_id pn) _ s1).
  set (s3 := set_reg H cb_size _ s2).
  set (s4 := set_reg H cb_address_high _ s3).
  set (s5 := set_reg H cb_address_low _ s4).
  set (s6 := set_reg H (cb_bind_raw_config st) _ s5).
  set (s7 := set_reg H (cb_bind_raw_config st) _ s6).
  assert (Hl1 : Z.of_nat (length (regs s1)) = NUM_REGS H) by (unfold s1; regs_length).
  assert (Hl2 : Z.of_nat (length (regs s2)) = NUM_REGS H) by (unfold s2; regs_length).
  assert (Hl3 : Z.of_nat (length (regs s3)) = NUM_REGS H) by (unfold s3; regs_length).
  assert (Hl4 : Z.of_nat (length (regs s4)) = NUM_REGS H) by (unfold s4; regs_length).
  assert (Hl5 : Z.of_nat (length (regs s5)) = NUM_REGS H) by (unfold s5; regs_length).
  assert (Hl6 : Z.of_nat (length (regs s6)) = NUM_REGS H) by (unfold s6; regs_length).
  assert (Hr6 : reg H (cb_bind_raw_config st) s6
                = bf_assign (cb_bind_valid H) 1 (reg H (cb_bind_raw_config st) s5))
    by (unfold s6; apply (reg_set_same H HOK); assumption).
  assert (Hr7 : reg H (cb_bind_raw_config st) s7
                = bf_assign (cb_bind_index H) 1 (reg H (cb_bind_raw_config st) s6))
    by (unfold s7; apply (reg_set_same H HOK); assumption).
  assert (Hidx : bf_value (cb_bind_index H) (reg H (cb_bind_raw_config st) s7) = 1).
  { rewrite Hr7, bf_value_assign_same by assumption.
    apply land_one_ones. destruct Hindex as (_ & ? & _). assumption. }
  assert (Hval : bf_value (cb_bind_valid H) (reg H (cb_bind_raw_config st) s7) = 1).
  { rewrite Hr7, bf_value_assign_other, Hr6, bf_value_assign_same by assumption.
    apply land_one_ones. destruct Hvalid as (_ & ? & _). assumption. }
  assert (Hstart : reg H (shader_start_id pn) s7 = wrap32 off).
  { unfold s7, s6, s5, s4, s3.
    rewrite !(reg_set_other H HOK) by (assumption || exact I || discriminate).
    unfold s2. apply (reg_set_same H HOK); assumption. }
  assert (Hsize : reg H cb_size s7 = 0x10000).
  { unfold s7, s6, s5, s4.
    rewrite !(reg_set_other H HOK) by (assumption || exact I || discriminate).
    unfold s3. apply (reg_set_same H HOK); [assumption | exact I]. }
  assert (Hhigh : reg H cb_address_high s7 = 0).
  { unfold s7, s6, s5.
    rewrite !(reg_set_other H HOK) by (assumption || exact I || discriminate).
    unfold s4. apply (reg_set_same H HOK); [assumption | exact I]. }
  assert (Hlow : reg H cb_address_low s7 = address).
  { unfold s7, s6.
    rewrite !(reg_set_other H HOK) by (assumption || exact I || discriminate).
    unfold s5. apply (reg_set_same H HOK); [assumption | exact I]. }
  assert (Hbuffer : BufferAddress H s7 = address).
  { unfold BufferAddress. rewrite Hhigh, Hlow. unfold join_address.
    change (wrap64 (Z.shiftl 0 32)) with 0. apply Z.lor_0_l. }
  replace (ProcessCBBind H stage s7) with (ProcessCBBind H (Z.of_nat st) s7)
    by (unfold st; rewrite Z2Nat.id by lia; reflexivity).
  rewrite ProcessCBBind_run by (rewrite ?Hidx; simpl in Hvs; lia).
  rewrite Hidx, Hval, Hsize, Hbuffer.
  change (negb (1 =? 0)) with true. change (Z.to_nat 1) with 1%nat.
  destruct (lookup_lt_is_Some_2 (shader_stages s) st) as [shader Hshader].
  { pose proof (shader_stages_length H s Hok). lia. }
  pose proof (Forall_lookup_1 _ _ _ _ (const_buffers_length H s Hok) Hshader) as Hslots.
  cbn beta in Hslots.
  eexists. split; [reflexivity|].
  split; [reflexivity|].
  unfold bound_buffer.
  cbn [shader_stages set_shader_stages].
  change (shader_stages s7) with (shader_stages s).
  split; [| split].
  - rewrite list_lookup_alter_eq, Hshader. cbn.
    apply list_lookup_insert_eq. lia.
  - intros stage' slot' Hother.
    destruct (decide (stage' = st)) as [->|Hne].
    + rewrite list_lookup_alter_eq, Hshader. cbn.
      apply list_lookup_insert_ne. destruct Hother; congruence.
    + rewrite list_lookup_alter_ne by congruence. reflexivity.
  - repeat split; assumption.
Qed.

End SetShaderEffect.

(** ** Streams that do not fit *)

Section StreamOverflow.

Context (H : Header) (HOK : HeaderOK H) (P2V : Z -> Z).

Lemma stream_words_app (values rest : list Z) : forall s : Maxwell3D,
  stream_words H P2V (values ++ rest) s =
    match stream_words H P2V values s with
    | Ok _ s' => stream_words H P2V rest s'
    | Abort e s' => Abort e s'
    end.
Proof.
  induction values as [|v values IH]; intros s; cbn [app stream_words].
  - reflexivity.
  - unfold bind. destruct (ProcessCBData H P2V v s) as [[] s1|e s1]; [apply IH | reflexivity].
Qed.

(** A stream that fits leaves the active buffer where it is. *)
Lemma stream_words_fits (values : list Z) : forall s : Maxwell3D,
  state_ok H s ->
  BufferAddress H s <> 0 ->
  reg H cb_pos s + 4 * Z.of_nat (length values) <= reg H cb_size s ->
  exists s', stream_words H P2V values s = Ok tt s'
    /\ reg H cb_pos s' = reg H cb_pos s + 4 * Z.of_nat (length values)
    /\ BufferAddress H s' = BufferAddress H s
    /\ reg H cb_size s' = reg H cb_size s
    /\ state_ok H s'.
Proof.
  induction values as [|v values IH]; intros s Hok Ha Hfit.
  - exists s. split; [reflexivity|]. split; [cbn [length]; lia|].
    split; [reflexivity|]. split; [reflexivity | exact Hok].
  - cbn [stream_words length] in *. unfold bind.
    pose proof (state_ok_reg H s cb_pos Hok) as Hp.
    pose proof (state_ok_reg H s cb_size Hok) as Hs. unfold u32 in Hp, Hs.
    rewrite (ProcessCBData_ok H P2V) by (try apply (regs_u32 H s Hok); auto; lia).
    set (s1 := set_reg H cb_pos _ _).
    assert (Hok1 : state_ok H s1).
    { apply state_ok_set_reg_array; [apply state_ok_set_memory; assumption|].
      unfold u32. lia. }
    assert (Hp1 : reg H cb_pos s1 = reg H cb_pos s + 4)
      by (apply (cb_pos_set_cb_pos H HOK); apply (regs_length H s Hok)).
    assert (Ha1 : BufferAddress H s1 = BufferAddress H s)
      by apply (BufferAddress_set_cb_pos H HOK).
    assert (Hs1 : reg H cb_size s1 = reg H cb_size s)
      by apply (cb_size_set_cb_pos H HOK).
    destruct (IH s1) as (s' & Hrun & Hpos & Haddr & Hsize & Hok'); auto.
    + congruence.
    + lia.
    + exists s'. split; [exact Hrun|]. split; [lia|].
      split; [congruence|]. split; [congruence | exact Hok'].
Qed.

(** X15: a stream that is longer than the room left in the active constant
    buffer writes the words that fit and aborts with ConstBufferOverflow at
    the first word that does not: the cursor then stands behind the last
    word written, and guest memory holds the words that fit and nothing of
    the rest. *)
Theorem stream_words_overflow (s : Maxwell3D) (fit : list Z) (v : Z) (rest : list Z) :
  state_ok H s ->
  BufferAddress H s <> 0 ->
  let room := reg H cb_size s - reg H cb_pos s in
  4 * Z.of_nat (length fit) <= room < 4 * Z.of_nat (length fit) + 4 ->
  exists s',
    stream_words H P2V fit s = Ok tt s'
    /\ stream_words H P2V (fit ++ v :: rest) s = Abort ConstBufferOverflow s'
    /\ reg H cb_pos s' = reg H cb_pos s + 4 * Z.of_nat (length fit).
Proof.
  intros Hok Ha room Hroom. subst room.
  destruct (stream_words_fits fit s Hok Ha ltac:(lia))
    as (s' & Hrun & Hpos & Haddr & Hsize & Hok').
  exists s'. split; [exact Hrun|]. split; [|exact Hpos].
  rewrite stream_words_app, Hrun. cbn [stream_words]. unfold bind.
  rewrite (ProcessCBData_overflow H P2V);
    [reflexivity | apply (regs_u32 H s' Hok') | congruence | lia].
Qed.

(** X16: a stream that fits lands word by word: the k-th word is written at the
    translation of the buffer address plus the cursor plus 4k, each address
    translated on its own, and of the registers only the cursor changes. *)
Theorem stream_words_memory (values : list Z) : forall s : Maxwell3D,
  state_ok H s ->
  BufferAddress H s <> 0 ->
  reg H cb_pos s + 4 * Z.of_nat (length values) <= reg H cb_size s ->
  exists s', stream_words H P2V values s = Ok tt s'
    /\ memory s' =
         words_written P2V (BufferAddress H s + reg H cb_pos s) values (memory s)
    /\ reg H cb_pos s' = reg H cb_pos s + 4 * Z.of_nat (length values)
    /\ (forall r, valid_reg H r -> r <> cb_pos -> reg H r s' = reg H r s)
    /\ shader_stages s' = shader_stages s.
Proof.
  induction values as [|v values IH]; intros s Hok Ha Hfit.
  - exists s. split; [reflexivity|]. split; [reflexivity|].
    split; [cbn [length]; lia|]. split; [reflexivity | reflexivity].
  - cbn [stream_words length words_written] in *. unfold bind.
    pose proof (state_ok_reg H s cb_pos Hok) as Hp.
    pose proof (state_ok_reg H s cb_size Hok) as Hs. unfold u32 in Hp, Hs.
    rewrite (ProcessCBData_ok H P2V) by (try apply (regs_u32 H s Hok); auto; lia).
    set (s1 := set_reg H cb_pos _ _).
    assert (Hok1 : state_ok H s1).
    { apply state_ok_set_reg_array; [apply state_ok_set_memory; assumption|].
      unfold u32. lia. }
    assert (Hp1 : reg H cb_pos s1 = reg H cb_pos s + 4)
      by (apply (cb_pos_set_cb_pos H HOK); apply (regs_length H s Hok)).
    assert (Ha1 : BufferAddress H s1 = BufferAddress H s)
      by apply (BufferAddress_set_cb_pos H HOK).
    assert (Hs1 : reg H cb_size s1 = reg H cb_size s)
      by apply (cb_size_set_cb_pos H HOK).
    destruct (IH s1) as (s' & Hrun & Hmem & Hpos & Hregs & Hstages); auto.
    + congruence.
    + lia.
    + exists s'. split; [exact Hrun|].
      split.
      { rewrite Hmem, Ha1, Hp1. f_equal. lia. }
      split; [lia|]. split; [|exact Hstages].
      intros r Hr Hne. rewrite (Hregs r Hr Hne). unfold s1.
      change (set_reg H cb_pos ?x (set_memory ?f s))
        with (set_memory f (set_reg H cb_pos x s)).
      change (reg H r (set_memory ?f ?y)) with (reg H r y).
      apply (reg_set_other H HOK); [exact Hr | exact I | exact Hne].
Qed.

End StreamOverflow.

(** ** The further properties at concrete engines *)

Section FurtherRuns.

Import Reference.

Lemma with_macros_idle : macro_state_ok header with_macros.
Proof. left. split; reflexivity. Qed.

(** The split call of [SetShader], five writes, the last of which runs the
    handler. *)
Lemma WriteReg_keeps_macro_state_ok_witness :
  let writes := macro_call_writes 0xE24 [0; 7; 0x40; 4; 0x1234] in
  defined (run_writes header identity_map writes with_macros)
  /\ macro_state_ok header
       (final_state (run_writes header identity_map writes with_macros)).
Proof.
  intros writes.
  assert (Hdefined : defined (run_writes header identity_map writes with_macros))
    by (vm_compute; exact I).
  destruct (WriteReg_keeps_macro_state_ok header identity_map with_macros
              with_macros_idle) as [_ Hstream].
  split; [exact Hdefined | exact (Hstream writes Hdefined)].
Defined.

Lemma call_pending_macro_state : macro_state_ok header call_pending.
Proof.
  right. split; [|split].
  - vm_compute. split; [discriminate | reflexivity].
  - vm_compute. reflexivity.
  - vm_compute. discriminate.
Qed.

Lemma WriteReg_rejections_witness :
  WriteReg header identity_map 0x100 5 0 call_pending
  = Abort MacroArgumentExpected call_pending.
Proof.
  assert (Hpending : executing_macro call_pending <> 0) by (vm_compute; discriminate).
  assert (Hin : 0x100 < NUM_REGS header) by (cbn; lia).
  assert (Hother : 0x100 <> executing_macro call_pending + 1)
    by (vm_compute; discriminate).
  destruct (WriteReg_rejections header Reference_header_ok identity_map
              call_pending 0x100 5 0) as (_ & Hrejected & _).
  exact (Hrejected call_pending_macro_state Hpending Hin Hother).
Defined.

Lemma WriteReg_plain_register_witness :
  WriteReg header identity_map 0x100 5 0 with_macros
  = Ok tt (notified MaxwellCommandProcessed (stored 0x100 5 with_macros)).
Proof.
  assert (Hbelow : 0x100 < MacroRegistersStart) by (unfold MacroRegistersStart; lia).
  assert (Hin : 0x100 < NUM_REGS header) by (cbn; lia).
  assert (Hplain : Forall (fun r => 0x100 <> MAXWELL3D_REG_INDEX header r)
                     side_effect_registers)
    by (apply (bool_decide_unpack _); vm_compute; exact I).
  exact (WriteReg_plain_register header identity_map with_macros 0x100 5 0
           eq_refl Hbelow Hin Hplain).
Defined.

Lemma WriteReg_code_address_witness :
  WriteReg header identity_map 0x583 1 0 with_macros
  = Abort UnexpectedCodeAddress (stored 0x583 1 with_macros).
Proof.
  assert (Hvalue : u32 1) by (unfold u32; lia).
  assert (Hbelow : below_macros header code_address_low)
    by (unfold below_macros, MacroRegistersStart; cbn; lia).
  destruct (WriteReg_code_address header Reference_header_ok identity_map
              with_macros 1 0 with_macros_ok eq_refl Hvalue) as [Hlow _].
  exact (Hlow Hbelow).
Defined.

Lemma WriteReg_draw_witness :
  exists s', WriteReg header identity_map 0x585 0 0 with_macros = Ok tt s'
    /\ rasterizer s' = [false].
Proof.
  assert (Hbelow : below_macros header vertex_end_gl)
    by (unfold below_macros, MacroRegistersStart; cbn; lia).
  destruct (WriteReg_draw header Reference_header_ok identity_map with_macros 0 0
              eq_refl Hbelow) as (s' & Hrun & Hdraw & _).
  exists s'. split; [exact Hrun | exact Hdraw].
Defined.

Lemma WriteReg_cb_bind_witness :
  exists s', WriteReg header identity_map (0x904 + 8 * 4) 0x11 0 const_buffer_of_one_word
             = Ok tt s'
    /\ bound_buffer s' 4 1 = Some (ConstBufferInfo.mk 0x1000 1 4 true).
Proof.
  assert (Hidle : executing_macro const_buffer_of_one_word = 0)
    by (vm_compute; reflexivity).
  assert (Hvalue : u32 0x11) by (unfold u32; lia).
  assert (Hstage : (4 < 5)%nat) by lia.
  assert (Hbelow : below_macros header (cb_bind_raw_config 4))
    by (unfold below_macros, MacroRegistersStart; cbn; lia).
  assert (Hslot : 0 <= bf_value (cb_bind_index header) 0x11 < MaxConstBuffers header)
    by (vm_compute; split; [discriminate | reflexivity]).
  destruct (WriteReg_cb_bind header Reference_header_ok identity_map
              const_buffer_of_one_word 4 0x11 0 const_buffer_of_one_word_ok
              Hidle Hvalue Hstage Hbelow Hslot) as (s' & Hrun & Hbound & _).
  exists s'. split; [exact Hrun|].
  eapply eq_trans; [exact Hbound | vm_compute; reflexivity].
Defined.

Lemma WriteReg_cb_data_witness :
  exists s', WriteReg header identity_map 0x8E4 7 0 const_buffer_of_one_word = Ok tt s'
    /\ reg header cb_pos s' = 4
    /\ reg header (cb_data 0) s' = 7.
Proof.
  assert (Hidle : executing_macro const_buffer_of_one_word = 0)
    by (vm_compute; reflexivity).
  assert (Hvalue : u32 7) by (unfold u32; lia).
  assert (Hin : (0 < 16)%nat) by lia.
  assert (Hbelow : below_macros header (cb_data 0))
    by (unfold below_macros, MacroRegistersStart; cbn; lia).
  assert (Hbound : BufferAddress header const_buffer_of_one_word <> 0)
    by (vm_compute; discriminate).
  assert (Hroom : reg header cb_pos const_buffer_of_one_word + 4
                  <= reg header cb_size const_buffer_of_one_word)
    by (vm_compute; discriminate).
  destruct (WriteReg_cb_data header Reference_header_ok identity_map
              const_buffer_of_one_word 0 7 0 const_buffer_of_one_word_ok
              Hidle Hvalue Hin Hbelow) as (_ & _ & Hwrite).
  destruct (Hwrite Hbound Hroom) as (s' & Hrun & _ & Hpos & Hdata & _).
  exists s'. split; [exact Hrun|]. split; [|exact Hdata].
  rewrite Hpos. vm_compute. reflexivity.
Defined.

Lemma query_pending_ok : state_ok header query_pending.
Proof. apply state_okb_sound. vm_compute. reflexivity. Qed.

Lemma WriteReg_query_get_witness :
  WriteReg header identity_map 0x6C3 1 0 query_pending
  = Abort UnimplementedQueryMode (stored 0x6C3 1 query_pending).
Proof.
  assert (Hidle : executing_macro query_pending = 0) by (vm_compute; reflexivity).
  assert (Hbelow : below_macros header query_get)
    by (unfold below_macros, MacroRegistersStart; cbn; lia).
  assert (Hmode : bf_value (query_get_mode header) 1 <> QueryMode_Write header)
    by (vm_compute; discriminate).
  destruct (WriteReg_query_get header Reference_header_ok identity_map
              query_pending 1 0 query_pending_ok Hidle Hbelow) as [_ Hother].
  exact (proj1 (Hother Hmode)).
Defined.

Lemma BindStorageBuffer_effect_witness :
  exists s', BindStorageBuffer header [5] with_macros = Ok tt s'
    /\ reg header cb_size s' = 0x5F00
    /\ reg header cb_pos s' = 20.
Proof.
  assert (Haddress : u64 (ssbo_info_BufferAddress header
                            (reg header ssbo_buffer_address with_macros)))
    by (vm_compute; split; [discriminate | reflexivity]).
  destruct (BindStorageBuffer_effect header Reference_header_ok with_macros 5
              with_macros_ok Haddress) as (s' & Hrun & Hsize & _ & Hpos & _).
  exists s'. split; [exact Hrun|]. split; [exact Hsize | exact Hpos].
Defined.

Lemma SetShader_effect_witness :
  exists s', SetShader header [0; 7; 0x40; 4; 0x1234] with_macros = Ok tt s'
    /\ bound_buffer s' 4 1 = Some (ConstBufferInfo.mk 0x123400 1 0x10000 true)
    /\ reg header cb_address_high s' = 0.
Proof.
  assert (Hprogram : 0 <= 0 < MaxShaderProgram header) by (cbn; lia).
  assert (Hstage : 0 <= 4 < MaxShaderStage header) by (cbn; lia).
  destruct (SetShader_effect header Reference_header_ok with_macros 0 7 0x40 4 0x1234
              with_macros_ok Hprogram Hstage)
    as (s' & Hrun & _ & Hbound & _ & _ & _ & Hhigh & _).
  exists s'. split; [exact Hrun|]. split; [exact Hbound | exact Hhigh].
Defined.

Lemma header_only_buffer_slot :
  shader_stages header_only_buffer !! Z.to_nat 4
    = Some (fragment_shader header_only_buffer)
  /\ ShaderStageInfo.const_buffers (fragment_shader header_only_buffer)
       !! Z.to_nat (reg header tex_cb_index header_only_buffer)
     = Some (tex_info_buffer header_only_buffer).
Proof. split; vm_compute; reflexivity. Qed.

Lemma GetStageTextures_header_only_witness :
  GetStageTextures header identity_map 1 4 header_only_buffer
  = Some (Ok [] header_only_buffer).
Proof.
  assert (Hstage : 0 <= 4 < MaxShaderStage header) by (cbn; lia).
  assert (Hindex : 0 <= reg header tex_cb_index header_only_buffer)
    by (vm_compute; discriminate).
  destruct header_only_buffer_slot as [Hshader Hslot].
  assert (Henabled : ConstBufferInfo.enabled (tex_info_buffer header_only_buffer) = true)
    by (vm_compute; reflexivity).
  assert (Haddress : 0 < ConstBufferInfo.address (tex_info_buffer header_only_buffer))
    by (vm_compute; reflexivity).
  assert (Hfit : ConstBufferInfo.address (tex_info_buffer header_only_buffer)
                 + TextureInfoOffset < 2 ^ 64)
    by (vm_compute; reflexivity).
  assert (Hsize : 0 <= ConstBufferInfo.size (tex_info_buffer header_only_buffer)
                  <= TextureInfoOffset)
    by (vm_compute; split; discriminate).
  exact (GetStageTextures_header_only header identity_map header_only_buffer 4
           (fragment_shader header_only_buffer) (tex_info_buffer header_only_buffer)
           0 Hstage Hshader Hindex Hslot Henabled Haddress Hfit Hsize).
Defined.

Lemma stream_words_overflow_witness :
  exists s', stream_words header identity_map [7; 8; 9] const_buffer_of_one_word
             = Abort ConstBufferOverflow s'
    /\ reg header cb_pos s' = 4.
Proof.
  assert (Hbound : BufferAddress header const_buffer_of_one_word <> 0)
    by (vm_compute; discriminate).
  assert (Hroom : 4 * Z.of_nat (length [7])
                  <= reg header cb_size const_buffer_of_one_word
                     - reg header cb_pos const_buffer_of_one_word
                  < 4 * Z.of_nat (length [7]) + 4)
    by (vm_compute; split; [discriminate | reflexivity]).
  destruct (stream_words_overflow header Reference_header_ok identity_map
              const_buffer_of_one_word [7] 8 [9] const_buffer_of_one_word_ok
              Hbound Hroom) as (s' & _ & Hrun & Hpos).
  exists s'. split; [exact Hrun|].
  rewrite Hpos. vm_compute. reflexivity.
Defined.

Lemma stream_words_memory_witness :
  exists s', stream_words header identity_map [7] const_buffer_of_one_word = Ok tt s'
    /\ memory s' = Write32 0x1000 7 (memory const_buffer_of_one_word).
Proof.
  assert (Hbound : BufferAddress header const_buffer_of_one_word <> 0)
    by (vm_compute; discriminate).
  assert (Hfit : reg header cb_pos const_buffer_of_one_word + 4 * Z.of_nat (length [7])
                 <= reg header cb_size const_buffer_of_one_word)
    by (vm_compute; discriminate).
  destruct (stream_words_memory header Reference_header_ok identity_map [7]
              const_buffer_of_one_word const_buffer_of_one_word_ok Hbound Hfit)
    as (s' & Hrun & Hmemory & _).
  exists s'. split; [exact Hrun|].
  rewrite Hmemory. vm_compute. reflexivity.
Defined.

Lemma resolver_read_only_witness :
  final_state (GetTICEntry header identity_map 1 unsupported_texture)
  = unsupported_texture.
Proof.
  destruct (resolver_read_only header identity_map unsupported_texture) as [Htic _].
  exact (Htic 1).
Defined.

Lemma SubmitMacroCode_effect_witness :
  SubmitMacroCode (13 + 2 ^ 31) [0x15] initial = SubmitMacroCode 13 [0x15] initial.
Proof.
  destruct (SubmitMacroCode_effect initial 13 [0x15]) as (_ & _ & _ & _ & _ & Hsame).
  exact Hsame.
Defined.

End FurtherRuns.
